(** * Tenzro regional node: task engine, signaling layer, global-node
      coordinator and DHT store, embedded from the TypeScript sources.

    Conventions of the embedding.
    - A JavaScript [Map] is an insertion-ordered association list without
      duplicate keys ([JsMap]): iteration order is observable in the code
      (first regional validator, first active backup, first R routing nodes).
    - A JavaScript [number] that carries an amount, a ratio or a duration is
      an exact rational ([Q]); counters are [nat]; clock readings
      ([new Date()], ISO time stamps) are milliseconds in [Z] and are passed
      to every handler as [now].
    - Handlers are computations in a state-and-exception monad [M]: a thrown
      JavaScript exception keeps the mutations made before the throw.
    - Every socket write is appended to a log held in the component state. *)

From Stdlib Require Import ZArith QArith Qminmax String List Bool Arith Lia Lqa.
Import ListNotations.
Local Open Scope string_scope.
Local Open Scope list_scope.

(* ------------------------------------------------------------------ *)
(** ** Insertion-ordered maps keyed by strings (JavaScript [Map]) *)

Module JsMap.

Definition t (V : Type) : Type := list (string * V).

Definition empty {V : Type} : t V := [].

Fixpoint mget {V : Type} (m : t V) (k : string) : option V :=
  match m with
  | [] => None
  | (k', v) :: r => if String.eqb k' k then Some v else mget r k
  end.

Definition mhas {V : Type} (m : t V) (k : string) : bool :=
  match mget m k with Some _ => true | None => false end.

(** [Map.prototype.set]: an existing key keeps its position. *)
Fixpoint mset {V : Type} (m : t V) (k : string) (v : V) : t V :=
  match m with
  | [] => [(k, v)]
  | (k', v') :: r =>
      if String.eqb k' k then (k', v) :: r else (k', v') :: mset r k v
  end.

Definition mdelete {V : Type} (m : t V) (k : string) : t V :=
  filter (fun kv => negb (String.eqb (fst kv) k)) m.

Definition mkeys {V : Type} (m : t V) : list string := map fst m.
Definition mvalues {V : Type} (m : t V) : list V := map snd m.
Definition msize {V : Type} (m : t V) : nat := length m.

End JsMap.
Import JsMap.

(* ------------------------------------------------------------------ *)
(** ** JavaScript helpers on numbers, strings and arrays *)

Definition Qlt_bool (a b : Q) : bool := negb (Qle_bool b a).

(** [s.includes(x)] on an array of strings. *)
Definition includes (l : list string) (x : string) : bool :=
  existsb (String.eqb x) l.

(** [!s] for a possibly missing string: [undefined] and the empty string
    are falsy. *)
Definition falsy_str (s : option string) : bool :=
  match s with
  | None => true
  | Some x => String.eqb x ""
  end.

(** [arr.slice(0, n)] for an integer [n]: a negative [n] counts from the
    end of the array. *)
Definition slice0 {A : Type} (n : Z) (l : list A) : list A :=
  if (n <? 0)%Z
  then firstn (Z.to_nat (Z.max (Z.of_nat (length l) + n) 0)) l
  else firstn (Z.to_nat n) l.

(** Stable sort with a JavaScript comparator ([cmp a b < 0] puts [a]
    first), as [Array.prototype.sort]. *)
Fixpoint sort_insert {A : Type} (cmp : A -> A -> Z) (x : A) (l : list A) : list A :=
  match l with
  | [] => [x]
  | y :: r => if (cmp x y <? 0)%Z then x :: y :: r else y :: sort_insert cmp x r
  end.

Definition js_sort {A : Type} (cmp : A -> A -> Z) (l : list A) : list A :=
  fold_left (fun acc x => sort_insert cmp x acc) l [].

(* ------------------------------------------------------------------ *)
(** ** State and exception monad *)

Inductive Result (S A : Type) : Type :=
| Ok (a : A) (s : S)
| Throw (e : string) (s : S).
Arguments Ok {S A} a s.
Arguments Throw {S A} e s.

Definition M (S A : Type) : Type := S -> Result S A.

Definition ret {S A : Type} (a : A) : M S A := fun s => Ok a s.

Definition bind {S A B : Type} (m : M S A) (k : A -> M S B) : M S B :=
  fun s => match m s with
           | Ok a s' => k a s'
           | Throw e s' => Throw e s'
           end.

Definition throw {S A : Type} (e : string) : M S A := fun s => Throw e s.
Definition gets {S A : Type} (f : S -> A) : M S A := fun s => Ok (f s) s.
Definition modify {S : Type} (f : S -> S) : M S unit := fun s => Ok tt (f s).

(** [try { m } catch (e) { h e }] *)
Definition try_catch {S A : Type} (m : M S A) (h : string -> M S A) : M S A :=
  fun s => match m s with
           | Ok a s' => Ok a s'
           | Throw e s' => h e s'
           end.

Declare Scope js_scope.
Delimit Scope js_scope with js.
Notation "x <- c ;; k" := (bind c (fun x => k))
  (at level 61, c at next level, right associativity) : js_scope.
Notation "c ;; k" := (bind c (fun _ => k))
  (at level 61, right associativity) : js_scope.
Local Open Scope js_scope.

(** [for (const x of l) { await f x }] *)
Fixpoint forEach {S A : Type} (l : list A) (f : A -> M S unit) : M S unit :=
  match l with
  | [] => ret tt
  | x :: r => f x ;; forEach r f
  end.

Definition state_of {S A : Type} (r : Result S A) : S :=
  match r with Ok _ s => s | Throw _ s => s end.

Definition threw {S A : Type} (r : Result S A) : option string :=
  match r with Ok _ _ => None | Throw e _ => Some e end.

(* ------------------------------------------------------------------ *)
(** ** types.ts *)

Inductive NodeType := individual | regional_node | global_node.
Inductive NodeTier := inference | aggregator | training | feedback.
Inductive TaskType :=
| compute | train | process | aggregate | store
| validate | verify | dispute | report | update.
Inductive TaskState :=
| pending | assigned | accepted | processing | completed | failed.
Inductive Priority := low | medium | high.

Definition NodeType_eqb (a b : NodeType) : bool :=
  match a, b with
  | individual, individual | regional_node, regional_node
  | global_node, global_node => true
  | _, _ => false
  end.

Definition NodeTier_eqb (a b : NodeTier) : bool :=
  match a, b with
  | inference, inference | aggregator, aggregator
  | training, training | feedback, feedback => true
  | _, _ => false
  end.

Definition TaskState_eqb (a b : TaskState) : bool :=
  match a, b with
  | pending, pending | assigned, assigned | accepted, accepted
  | processing, processing | completed, completed | failed, failed => true
  | _, _ => false
  end.

Definition tier_includes (l : list NodeTier) (x : NodeTier) : bool :=
  existsb (NodeTier_eqb x) l.

Record TaskRequirements := {
  minTier : NodeTier;
  minStorage : option Q;
  minMemory : option Q;
  gpuRequired : option bool;
  priority : Priority;
  estimatedDuration : Q;
  maxNodes : Z;
  redundancy : option Z
}.

Record TaskReward := {
  total : Q;
  perNode : Q;
  validatorShare : Q;
  deadline : string;
  penaltyRate : Q
}.

Record TaskStatus := {
  state : TaskState;
  assignedNodes : list string;
  acceptedNodes : list string;
  progress : Q;
  startTime : option Z;
  completionTime : option Z;
  error : option string
}.

(** [Task]; the opaque payload [data] is kept as a string. *)
Record Task := {
  taskId : string;
  type : TaskType;
  requirements : TaskRequirements;
  data : string;
  reward : TaskReward;
  status : TaskStatus;
  timestamp : Z;
  expiry : string;
  submitter : string;
  globalValidator : option string;
  backupValidators : option (list string)
}.

Record PeerInfo := {
  peerId : string;
  nodeType : NodeType;
  nodeTier : NodeTier;
  region : string;
  tokenBalance : Q;
  connected : bool;
  lastSeen : Z
}.

Record ResourceStats := {
  cpu : Q;
  memory : Q;
  storage : Q;
  bandwidth : Q;
  rs_timestamp : Z
}.

(** [NodeStatus] (also the inline [status] of [ConnectedPeer]); the fields
    that repeat [PeerInfo] carry the prefix [ns_]. *)
Record NodeStatus := {
  ns_peerId : string;
  online : bool;
  ns_nodeType : NodeType;
  ns_nodeTier : NodeTier;
  ns_region : string;
  connections : nat;
  resources : ResourceStats;
  earnings : Q;
  ns_activeTasks : nat;
  ns_completedTasks : nat;
  lastUpdate : Z
}.

(** The socket of a peer as the handlers see it: an identity, whether
    [readyState === OPEN], and whether a write on it raises. *)
Record ExtendedWebSocket := {
  wsId : nat;
  readyOpen : bool;
  sendFails : bool
}.

(** [ConnectedPeer]; its [status] field is [pstatus] here. *)
Record ConnectedPeer := {
  ws : ExtendedWebSocket;
  info : PeerInfo;
  joinTime : Z;
  lastActivity : Z;
  pstatus : NodeStatus
}.

Inductive GlobalNodeStatus := gs_active | gs_degraded | gs_failing | gs_offline.

Definition GlobalNodeStatus_eqb (a b : GlobalNodeStatus) : bool :=
  match a, b with
  | gs_active, gs_active | gs_degraded, gs_degraded
  | gs_failing, gs_failing | gs_offline, gs_offline => true
  | _, _ => false
  end.

Record HealthMetrics := {
  responsiveness : Q;
  taskCompletion : Q;
  networkLatency : Q;
  resourceUtilization : Q
}.

Record GlobalNodeHealth := {
  nodeId : string;
  gh_status : GlobalNodeStatus;
  lastCheck : Z;
  metrics : HealthMetrics;
  issues : list string
}.

Record GlobalNodeFailover := {
  failedNodeId : string;
  backupNodeId : string;
  affectedTasks : list string;
  fo_timestamp : Z;
  reason : string
}.

(** Region summary sent in a [network_state] message (the metrics snapshot
    of the passive recorder is left out). *)
Record RegionSummary := {
  rsum_id : string;
  rsum_name : string;
  peerCount : nat;
  validatorCount : nat
}.

(** The [status] payload of a [node_status] message: a plain status
    object, or one shaped like a health record (['status' in status]). *)
Inductive StatusPayload :=
| PlainStatus (s : NodeStatus)
| HealthStatus (h : GlobalNodeHealth).

(** [SignalingMessage], one constructor per [type] with the fields the
    handlers read or write for it; a field a handler tests for presence
    is optional. [Mother] stands for the types no handler dispatches on. *)
Inductive SignalingMessage :=
| Mjoin (peerId : option string) (nodeType : option NodeType)
        (nodeTier : option NodeTier) (tokenBalance : option Q)
        (region : option string)
| Mleave (peerId : option string)
| Mnode_status (peerId : option string) (status : option StatusPayload)
| Mtask_broadcast (task : option Task) (peerId : option string)
| Mtask_assignment (task : option Task) (peerId : option string)
| Mtask_accepted (taskId peerId : option string)
| Mtask_completed (taskId peerId : option string) (result : option string)
| Mtask_failed (taskId peerId : option string) (error : option string)
| Mpeer_joined (peerInfo : PeerInfo)
| Mpeer_left (peerId : string) (region : string)
| Mnetwork_state (peers : list PeerInfo) (regions : list RegionSummary)
                 (activeTasks : nat)
| Merror (error : string)
| Mreward_distribution (taskId : string) (reward : Q)
| Mglobal_node_health_status (peerId : string) (status : NodeStatus)
                             (nodeHealth : GlobalNodeHealth)
| Mglobal_node_health (globalNodeHealth : GlobalNodeHealth)
| Mtask_reassignment (task : Task) (previousNode : option string)
| Mglobal_node_failover (failoverInfo : GlobalNodeFailover)
| Msync_request (tasks : list Task) (validators : list PeerInfo)
| Mother (type : string).

Definition message_type (m : SignalingMessage) : string :=
  match m with
  | Mjoin _ _ _ _ _ => "join"
  | Mleave _ => "leave"
  | Mnode_status _ _ => "node_status"
  | Mtask_broadcast _ _ => "task_broadcast"
  | Mtask_assignment _ _ => "task_assignment"
  | Mtask_accepted _ _ => "task_accepted"
  | Mtask_completed _ _ _ => "task_completed"
  | Mtask_failed _ _ _ => "task_failed"
  | Mpeer_joined _ => "peer_joined"
  | Mpeer_left _ _ => "peer_left"
  | Mnetwork_state _ _ _ => "network_state"
  | Merror _ => "error"
  | Mreward_distribution _ _ => "reward_distribution"
  | Mglobal_node_health_status _ _ _ => "global_node_health"
  | Mglobal_node_health _ => "global_node_health"
  | Mtask_reassignment _ _ => "task_reassignment"
  | Mglobal_node_failover _ => "global_node_failover"
  | Msync_request _ _ => "sync_request"
  | Mother t => t
  end.

(** A write on a socket: the socket's identity and the message. *)
Definition Sent : Type := (nat * SignalingMessage)%type.

Record TierPolicy := {
  tiers : list NodeTier;
  minReward : Q;
  policyShare : Q
}.

(** [TASK_TIER_REQUIREMENTS] ([policyShare] is its [validatorShare]). *)
Definition TASK_TIER_REQUIREMENTS (t : TaskType) : TierPolicy :=
  match t with
  | compute => {| tiers := [training; feedback]; minReward := 100; policyShare := 10 |}
  | train => {| tiers := [training; feedback]; minReward := 100; policyShare := 10 |}
  | process => {| tiers := [aggregator; training; feedback]; minReward := 50; policyShare := 10 |}
  | aggregate => {| tiers := [aggregator; training; feedback]; minReward := 50; policyShare := 10 |}
  | store => {| tiers := [inference; aggregator; training; feedback]; minReward := 20; policyShare := 5 |}
  | validate => {| tiers := [aggregator; training; feedback]; minReward := 50; policyShare := 10 |}
  | verify => {| tiers := [training; feedback]; minReward := 75; policyShare := 10 |}
  | dispute => {| tiers := [feedback]; minReward := 100; policyShare := 15 |}
  | report => {| tiers := [aggregator; training; feedback]; minReward := 30; policyShare := 5 |}
  | update => {| tiers := [training; feedback]; minReward := 50; policyShare := 10 |}
  end%Q.

(* ------------------------------------------------------------------ *)
(** ** config.ts: the part of [config.env] the core reads *)

Record Config := {
  regionalTokenRequirement : Q;
  globalTokenRequirement : Q;
  maxTaskDuration : Q;
  minTaskDuration : Q;
  maxNodesPerTask : Z;
  taskTimeout : Z;
  replicationFactor : Z;
  retentionPeriod : Z
}.

(** The values [envConfig] takes when no environment variable is set. *)
Definition envConfig : Config := {|
  regionalTokenRequirement := 1000;
  globalTokenRequirement := 5000;
  maxTaskDuration := 86400;
  minTaskDuration := 60;
  maxNodesPerTask := 100;
  taskTimeout := 3600;
  replicationFactor := 3;
  retentionPeriod := 86400000
|}.

(* ------------------------------------------------------------------ *)
(** ** Field updates (JavaScript assignments to object fields) *)

Definition set_state (st : TaskStatus) (x : TaskState) : TaskStatus :=
  {| state := x; assignedNodes := assignedNodes st;
     acceptedNodes := acceptedNodes st; progress := progress st;
     startTime := startTime st; completionTime := completionTime st;
     error := error st |}.

Definition set_assignedNodes (st : TaskStatus) (l : list string) : TaskStatus :=
  {| state := state st; assignedNodes := l;
     acceptedNodes := acceptedNodes st; progress := progress st;
     startTime := startTime st; completionTime := completionTime st;
     error := error st |}.

Definition set_acceptedNodes (st : TaskStatus) (l : list string) : TaskStatus :=
  {| state := state st; assignedNodes := assignedNodes st;
     acceptedNodes := l; progress := progress st;
     startTime := startTime st; completionTime := completionTime st;
     error := error st |}.

Definition set_startTime (st : TaskStatus) (x : option Z) : TaskStatus :=
  {| state := state st; assignedNodes := assignedNodes st;
     acceptedNodes := acceptedNodes st; progress := progress st;
     startTime := x; completionTime := completionTime st;
     error := error st |}.

Definition set_completionTime (st : TaskStatus) (x : option Z) : TaskStatus :=
  {| state := state st; assignedNodes := assignedNodes st;
     acceptedNodes := acceptedNodes st; progress := progress st;
     startTime := startTime st; completionTime := x;
     error := error st |}.

Definition set_error (st : TaskStatus) (x : option string) : TaskStatus :=
  {| state := state st; assignedNodes := assignedNodes st;
     acceptedNodes := acceptedNodes st; progress := progress st;
     startTime := startTime st; completionTime := completionTime st;
     error := x |}.

Definition set_status (t : Task) (st : TaskStatus) : Task :=
  {| taskId := taskId t; type := type t; requirements := requirements t;
     data := data t; reward := reward t; status := st;
     timestamp := timestamp t; expiry := expiry t; submitter := submitter t;
     globalValidator := globalValidator t;
     backupValidators := backupValidators t |}.

Definition set_reward (t : Task) (r : TaskReward) : Task :=
  {| taskId := taskId t; type := type t; requirements := requirements t;
     data := data t; reward := r; status := status t;
     timestamp := timestamp t; expiry := expiry t; submitter := submitter t;
     globalValidator := globalValidator t;
     backupValidators := backupValidators t |}.

Definition set_timestamp (t : Task) (x : Z) : Task :=
  {| taskId := taskId t; type := type t; requirements := requirements t;
     data := data t; reward := reward t; status := status t;
     timestamp := x; expiry := expiry t; submitter := submitter t;
     globalValidator := globalValidator t;
     backupValidators := backupValidators t |}.


Definition set_perNode (r : TaskReward) (x : Q) : TaskReward :=
  {| total := total r; perNode := x; validatorShare := validatorShare r;
     deadline := deadline r; penaltyRate := penaltyRate r |}.

(* ------------------------------------------------------------------ *)
(** ** ValidatorSystem.ts *)

Module ValidatorSystem.

(** A timer armed with [setTimeout]: its handle, the task whose
    [handleTaskTimeout] it calls, and the time at which it fires. *)
Record Timer := {
  timerId : nat;
  timerTask : string;
  fireAt : Z
}.

(** The fields of the class, followed by the runtime's armed timers and
    the log of socket writes. *)
Record State := {
  globalValidators : JsMap.t ConnectedPeer;
  regionalValidators : JsMap.t (JsMap.t ConnectedPeer);
  individualNodes : JsMap.t (JsMap.t ConnectedPeer);
  activeTasks : JsMap.t Task;
  taskTimeouts : JsMap.t nat;
  rewardDistributions : JsMap.t (JsMap.t Q);
  timers : list Timer;
  nextTimer : nat;
  wire : list Sent
}.

Definition init : State :=
  {| globalValidators := []; regionalValidators := []; individualNodes := [];
     activeTasks := []; taskTimeouts := []; rewardDistributions := [];
     timers := []; nextTimer := 0; wire := [] |}.

Definition upd_globalValidators (f : JsMap.t ConnectedPeer -> JsMap.t ConnectedPeer)
  (s : State) : State :=
  {| globalValidators := f (globalValidators s);
     regionalValidators := regionalValidators s;
     individualNodes := individualNodes s; activeTasks := activeTasks s;
     taskTimeouts := taskTimeouts s;
     rewardDistributions := rewardDistributions s;
     timers := timers s; nextTimer := nextTimer s; wire := wire s |}.

Definition upd_regionalValidators
  (f : JsMap.t (JsMap.t ConnectedPeer) -> JsMap.t (JsMap.t ConnectedPeer))
  (s : State) : State :=
  {| globalValidators := globalValidators s;
     regionalValidators := f (regionalValidators s);
     individualNodes := individualNodes s; activeTasks := activeTasks s;
     taskTimeouts := taskTimeouts s;
     rewardDistributions := rewardDistributions s;
     timers := timers s; nextTimer := nextTimer s; wire := wire s |}.

Definition upd_individualNodes
  (f : JsMap.t (JsMap.t ConnectedPeer) -> JsMap.t (JsMap.t ConnectedPeer))
  (s : State) : State :=
  {| globalValidators := globalValidators s;
     regionalValidators := regionalValidators s;
     individualNodes := f (individualNodes s); activeTasks := activeTasks s;
     taskTimeouts := taskTimeouts s;
     rewardDistributions := rewardDistributions s;
     timers := timers s; nextTimer := nextTimer s; wire := wire s |}.

Definition upd_activeTasks (f : JsMap.t Task -> JsMap.t Task) (s : State) : State :=
  {| globalValidators := globalValidators s;
     regionalValidators := regionalValidators s;
     individualNodes := individualNodes s; activeTasks := f (activeTasks s);
     taskTimeouts := taskTimeouts s;
     rewardDistributions := rewardDistributions s;
     timers := timers s; nextTimer := nextTimer s; wire := wire s |}.

Definition upd_rewardDistributions
  (f : JsMap.t (JsMap.t Q) -> JsMap.t (JsMap.t Q)) (s : State) : State :=
  {| globalValidators := globalValidators s;
     regionalValidators := regionalValidators s;
     individualNodes := individualNodes s; activeTasks := activeTasks s;
     taskTimeouts := taskTimeouts s;
     rewardDistributions := f (rewardDistributions s);
     timers := timers s; nextTimer := nextTimer s; wire := wire s |}.

(** [setTimeout] and the [taskTimeouts.set] that follows it. *)
Definition arm_timer (task : string) (at_ : Z) (s : State) : State :=
  {| globalValidators := globalValidators s;
     regionalValidators := regionalValidators s;
     individualNodes := individualNodes s; activeTasks := activeTasks s;
     taskTimeouts := mset (taskTimeouts s) task (nextTimer s);
     rewardDistributions := rewardDistributions s;
     timers := timers s ++ [{| timerId := nextTimer s; timerTask := task;
                               fireAt := at_ |}];
     nextTimer := S (nextTimer s); wire := wire s |}.

(** [clearTimeout(h)] followed by [taskTimeouts.delete(task)]. *)
Definition clear_timer (task : string) (h : nat) (s : State) : State :=
  {| globalValidators := globalValidators s;
     regionalValidators := regionalValidators s;
     individualNodes := individualNodes s; activeTasks := activeTasks s;
     taskTimeouts := mdelete (taskTimeouts s) task;
     rewardDistributions := rewardDistributions s;
     timers := filter (fun t => negb (Nat.eqb (timerId t) h)) (timers s);
     nextTimer := nextTimer s; wire := wire s |}.

(** The runtime takes a timer off its queue when it fires. *)
Definition drop_timer (h : nat) (s : State) : State :=
  {| globalValidators := globalValidators s;
     regionalValidators := regionalValidators s;
     individualNodes := individualNodes s; activeTasks := activeTasks s;
     taskTimeouts := taskTimeouts s;
     rewardDistributions := rewardDistributions s;
     timers := filter (fun t => negb (Nat.eqb (timerId t) h)) (timers s);
     nextTimer := nextTimer s; wire := wire s |}.

Definition emit (m : Sent) (s : State) : State :=
  {| globalValidators := globalValidators s;
     regionalValidators := regionalValidators s;
     individualNodes := individualNodes s; activeTasks := activeTasks s;
     taskTimeouts := taskTimeouts s;
     rewardDistributions := rewardDistributions s;
     timers := timers s; nextTimer := nextTimer s; wire := wire s ++ [m] |}.

(** The map of a region, created empty when missing
    ([if (!m.has(region)) m.set(region, new Map())]). *)
Definition ensure_region {V : Type} (region : string)
  (m : JsMap.t (JsMap.t V)) : JsMap.t (JsMap.t V) :=
  if mhas m region then m else mset m region [].

(** [m.get(region)!.set(peerId, peer)] *)
Definition region_set {V : Type} (region k : string) (v : V)
  (m : JsMap.t (JsMap.t V)) : JsMap.t (JsMap.t V) :=
  match mget m region with
  | Some inner => mset m region (mset inner k v)
  | None => m
  end.

(** [m.get(region)?.delete(peerId)] *)
Definition region_delete {V : Type} (region k : string)
  (m : JsMap.t (JsMap.t V)) : JsMap.t (JsMap.t V) :=
  match mget m region with
  | Some inner => mset m region (mdelete inner k)
  | None => m
  end.

(** The peer objects of the pools are shared with the signaling server.
    When the server assigns to [peer.status], the object filed under the
    peer's type, region and id shows the new status here as well. *)
Definition refresh_object (peer : ConnectedPeer) (s : State) : State :=
  let p := info peer in
  match nodeType p with
  | global_node =>
      if mhas (globalValidators s) (peerId p)
      then upd_globalValidators (fun m => mset m (peerId p) peer) s
      else s
  | regional_node =>
      match mget (regionalValidators s) (region p) with
      | Some inner =>
          if mhas inner (peerId p)
          then upd_regionalValidators (region_set (region p) (peerId p) peer) s
          else s
      | None => s
      end
  | individual =>
      match mget (individualNodes s) (region p) with
      | Some inner =>
          if mhas inner (peerId p)
          then upd_individualNodes (region_set (region p) (peerId p) peer) s
          else s
      | None => s
      end
  end.

Definition addNode (peer : ConnectedPeer) : M State unit :=
  let p := info peer in
  modify (upd_regionalValidators (ensure_region (region p))) ;;
  modify (upd_individualNodes (ensure_region (region p))) ;;
  match nodeType p with
  | global_node =>
      modify (upd_globalValidators (fun m => mset m (peerId p) peer))
  | regional_node =>
      modify (upd_regionalValidators (region_set (region p) (peerId p) peer))
  | individual =>
      modify (upd_individualNodes (region_set (region p) (peerId p) peer))
  end.

Definition cleanupTask (taskId : string) : M State unit :=
  timeout <- gets (fun s => mget (taskTimeouts s) taskId) ;;
  match timeout with
  | Some h => modify (clear_timer taskId h)
  | None => ret tt
  end ;;
  modify (upd_rewardDistributions (fun m => mdelete m taskId)).

Definition handleNodeFailure (taskId nodeId : string) : M State unit :=
  found <- gets (fun s => mget (activeTasks s) taskId) ;;
  match found with
  | None => ret tt
  | Some task =>
      let st1 := set_assignedNodes (status task)
        (filter (fun id => negb (String.eqb id nodeId))
                (assignedNodes (status task))) in
      let st2 := set_acceptedNodes st1
        (filter (fun id => negb (String.eqb id nodeId))
                (acceptedNodes st1)) in
      if Nat.eqb (length (assignedNodes st2)) 0 then
        modify (upd_activeTasks (fun m =>
          mset m taskId
            (set_status task
               (set_error (set_state st2 failed)
                          (Some "All assigned nodes failed"))))) ;;
        cleanupTask taskId
      else
        modify (upd_activeTasks (fun m => mset m taskId (set_status task st2)))
  end.

(** [removeNode]: [activeTasks.forEach] visits the keys in order and reads
    the task each key holds when it is visited; [failIfAssigned] is its
    callback. *)
Definition failIfAssigned (peerId : string) (k : string) : M State unit :=
  found <- gets (fun s => mget (activeTasks s) k) ;;
  match found with
  | Some task =>
      if includes (assignedNodes (status task)) peerId
      then handleNodeFailure (taskId task) peerId
      else ret tt
  | None => ret tt
  end.

Definition removeNode (peerId : string) (nodeType : NodeType)
  (region : string) : M State unit :=
  keys <- gets (fun s => mkeys (activeTasks s)) ;;
  forEach keys (failIfAssigned peerId) ;;
  match nodeType with
  | global_node => modify (upd_globalValidators (fun m => mdelete m peerId))
  | regional_node => modify (upd_regionalValidators (region_delete region peerId))
  | individual => modify (upd_individualNodes (region_delete region peerId))
  end.

Definition forwardMessage (peer : ConnectedPeer) (message : SignalingMessage)
  : M State unit :=
  if readyOpen (ws peer) then
    if sendFails (ws peer) then throw "send failed"
    else modify (emit (wsId (ws peer), message))
  else ret tt.

Definition getMaxTasksForTier (tier : NodeTier) : nat :=
  match tier with
  | inference => 5
  | aggregator => 10
  | training => 15
  | feedback => 20
  end.

(** [x && v < x] for an optional number [x]: missing and zero are falsy. *)
Definition floor_violated (floor : option Q) (v : Q) : bool :=
  match floor with
  | Some x => negb (Qeq_bool x 0) && Qlt_bool v x
  | None => false
  end.

Definition isNodeEligibleForTask (node : ConnectedPeer) (task : Task) : bool :=
  let tier := nodeTier (info node) in
  let req := requirements task in
  let res := resources (pstatus node) in
  if negb (tier_includes (tiers (TASK_TIER_REQUIREMENTS (type task))) tier)
  then false
  else if floor_violated (minStorage req) (storage res) then false
  else if floor_violated (minMemory req) (memory res) then false
  else if match gpuRequired req with Some true => true | _ => false end
          && negb (tier_includes [training; feedback] tier)
  then false
  else if Nat.leb (getMaxTasksForTier tier) (ns_activeTasks (pstatus node)) then false
  else true.

Definition calculateNodeReward (task : Task) (nodeCount : nat) : Q :=
  let totalNodeReward :=
    (total (reward task) * (1 - validatorShare (reward task) / 100))%Q in
  (totalNodeReward / inject_Z (Z.of_nat nodeCount))%Q.

Definition selectRegionalValidator (validators : list ConnectedPeer)
  : option ConnectedPeer :=
  hd_error
    (js_sort
       (fun a b =>
          let d := (Z.of_nat (ns_activeTasks (pstatus a))
                    - Z.of_nat (ns_activeTasks (pstatus b)))%Z in
          if (d =? 0)%Z
          then (Z.of_nat (ns_completedTasks (pstatus b))
                - Z.of_nat (ns_completedTasks (pstatus a)))%Z
          else d)
       validators).

Definition getRegionalValidatorForNode (region : string) (s : State)
  : option ConnectedPeer :=
  match mget (regionalValidators s) region with
  | None => None
  | Some validators => hd_error (mvalues validators)
  end.

(** [a || b] on possibly undefined objects. *)
Definition or_else {A : Type} (a b : option A) : option A :=
  match a with Some _ => a | None => b end.

Definition findPeer (id : string) (s : State) : option ConnectedPeer :=
  or_else (mget (globalValidators s) id)
    (or_else
       (find (fun p => String.eqb (peerId (info p)) id)
             (flat_map (fun m => mvalues m) (mvalues (regionalValidators s))))
       (find (fun p => String.eqb (peerId (info p)) id)
             (flat_map (fun m => mvalues m) (mvalues (individualNodes s))))).

(** Identity of peer objects held in the pools. [addNode] files an object
    under its own type, region and id, so two distinct objects of the
    pools differ on one of the three. *)
Definition same_peer (a b : ConnectedPeer) : bool :=
  String.eqb (peerId (info a)) (peerId (info b))
  && NodeType_eqb (nodeType (info a)) (nodeType (info b))
  && String.eqb (region (info a)) (region (info b)).

Definition getTaskValidators (task : Task) (s : State) : list ConnectedPeer :=
  let validators :=
    match mget (globalValidators s) (submitter task) with
    | Some g => [g]
    | None => []
    end in
  fold_left
    (fun validators nodeId =>
       match findPeer nodeId s with
       | Some nodePeer =>
           match getRegionalValidatorForNode (region (info nodePeer)) s with
           | Some regionalValidator =>
               if existsb (same_peer regionalValidator) validators
               then validators
               else validators ++ [regionalValidator]
           | None => validators
           end
       | None => validators
       end)
    (assignedNodes (status task)) validators.

(** The reward map of the task once [finalizeTask] has written the
    validator shares into it. *)
Definition withValidatorShares (task : Task) (validators : list ConnectedPeer)
  (taskRewards : JsMap.t Q) : JsMap.t Q :=
  let validatorReward :=
    (total (reward task) * (validatorShare (reward task) / 100))%Q in
  let share := (validatorReward / inject_Z (Z.of_nat (length validators)))%Q in
  fold_left (fun m validator => mset m (peerId (info validator)) share)
            validators taskRewards.

(** The loop of [finalizeTask] over [taskRewards.entries()]. *)
Definition sendRewards (taskId : string) (taskRewards : JsMap.t Q)
  : M State unit :=
  forEach taskRewards (fun '(id, amount) =>
    peer <- gets (findPeer id) ;;
    match peer with
    | Some p => forwardMessage p (Mreward_distribution taskId amount)
    | None => ret tt
    end).

(** [finalizeTask] up to its last statement: the task is marked
    completed, the validator shares are written into its reward map and
    one [reward_distribution] message goes to every rewarded peer that is
    found. [key] is the entry of the task table that holds the object
    [task] (the caller read it there), so the assignments to
    [task.status] are written there. *)
Definition distributeRewards (key : string) (task : Task) (completionTime : Z)
  : M State unit :=
  let task' :=
    set_status task
      (set_completionTime (set_state (status task) completed)
                          (Some completionTime)) in
  modify (upd_activeTasks (fun m => mset m key task')) ;;
  found <- gets (fun s => mget (rewardDistributions s) (taskId task')) ;;
  match found with
  | None => throw "TypeError: taskRewards is undefined"
  | Some taskRewards =>
      validators <- gets (getTaskValidators task') ;;
      let taskRewards' := withValidatorShares task' validators taskRewards in
      modify (upd_rewardDistributions (fun m => mset m (taskId task') taskRewards')) ;;
      sendRewards (taskId task') taskRewards'
  end.

Definition finalizeTask (key : string) (task : Task) (completionTime : Z)
  : M State unit :=
  distributeRewards key task completionTime ;;
  cleanupTask (taskId task).

(** [duration]: seconds from [startTime] to [now]; with no [startTime]
    the date is invalid and the duration is not a number. *)
Definition elapsed (task : Task) (now : Z) : option Q :=
  match startTime (status task) with
  | Some st => Some (inject_Z (now - st) / 1000)%Q
  | None => None
  end.

(** The reward [handleTaskCompletion] records for a report at [now]
    (a comparison with not-a-number is false). *)
Definition completionReward (task : Task) (now : Z) : Q :=
  match elapsed task now with
  | Some duration =>
      if Qlt_bool (estimatedDuration (requirements task)) duration then
        let penalty :=
          ((duration - estimatedDuration (requirements task))
           / estimatedDuration (requirements task)
           * penaltyRate (reward task))%Q in
        (perNode (reward task) * (1 - Qmin penalty 1))%Q
      else perNode (reward task)
  | None => perNode (reward task)
  end.

(** [handleTaskCompletion] up to [taskRewards.set(peerId, reward)]:
    returns the task and its reward map, or nothing for an unknown
    task. *)
Definition recordCompletion (now : Z) (taskId peerId : string)
  : M State (option (Task * JsMap.t Q)) :=
  found <- gets (fun s => mget (activeTasks s) taskId) ;;
  match found with
  | None => ret None
  | Some task =>
      let reward := completionReward task now in
      ledger <- gets (fun s => mget (rewardDistributions s) taskId) ;;
      match ledger with
      | None => throw "TypeError: taskRewards is undefined"
      | Some taskRewards =>
          let taskRewards' := mset taskRewards peerId reward in
          modify (upd_rewardDistributions (fun m => mset m taskId taskRewards')) ;;
          ret (Some (task, taskRewards'))
      end
  end.

Definition handleTaskCompletion (now : Z) (taskId peerId : string)
  : M State unit :=
  recorded <- recordCompletion now taskId peerId ;;
  match recorded with
  | None => ret tt
  | Some (task, taskRewards) =>
      if Nat.eqb (msize taskRewards) (length (acceptedNodes (status task)))
      then finalizeTask taskId task now
      else ret tt
  end.

Definition handleTaskAcceptance (now : Z) (taskId peerId : string)
  : M State unit :=
  found <- gets (fun s => mget (activeTasks s) taskId) ;;
  match found with
  | None => ret tt
  | Some task =>
      let st1 := set_acceptedNodes (status task)
                   (acceptedNodes (status task) ++ [peerId]) in
      let st2 :=
        match startTime st1 with
        | None => set_state (set_startTime st1 (Some now)) processing
        | Some _ => st1
        end in
      modify (upd_activeTasks (fun m => mset m taskId (set_status task st2))) ;;
      has <- gets (fun s => mhas (rewardDistributions s) taskId) ;;
      if has then ret tt
      else modify (upd_rewardDistributions (fun m => mset m taskId []))
  end.

Definition handleTaskTimeout (taskId : string) : M State unit :=
  found <- gets (fun s => mget (activeTasks s) taskId) ;;
  match found with
  | None => ret tt
  | Some task =>
      if negb (TaskState_eqb (state (status task)) pending) then ret tt
      else
        modify (upd_activeTasks (fun m =>
          mset m taskId
            (set_status task
               (set_error (set_state (status task) failed)
                          (Some "Task timed out waiting for acceptance"))))) ;;
        cleanupTask taskId
  end.

(** The runtime fires the armed timer [h]: it leaves the queue and its
    callback runs. A cleared timer never fires. *)
Definition fireTimer (h : nat) : M State unit :=
  armed <- gets (fun s => find (fun t => Nat.eqb (timerId t) h) (timers s)) ;;
  match armed with
  | None => ret tt
  | Some t => modify (drop_timer h) ;; handleTaskTimeout (timerTask t)
  end.

Section WithConfig.
Variable cfg : Config.

Definition validateTaskRequirements (task : Task) : bool :=
  let tierReqs := TASK_TIER_REQUIREMENTS (type task) in
  tier_includes (tiers tierReqs) (minTier (requirements task))
  && Qle_bool (minReward tierReqs) (total (reward task))
  && Qeq_bool (validatorShare (reward task)) (policyShare tierReqs)
  && Qle_bool (minTaskDuration cfg) (estimatedDuration (requirements task))
  && Qle_bool (estimatedDuration (requirements task)) (maxTaskDuration cfg)
  && (maxNodes (requirements task) <=? maxNodesPerTask cfg)%Z.

Definition setupTaskTimeout (now : Z) (task : Task) : M State unit :=
  modify (arm_timer (taskId task) (now + taskTimeout cfg * 1000)%Z).

Definition broadcastTask (now : Z) (task : Task)
  (sourceGlobalValidator : string) : M State unit :=
  if negb (validateTaskRequirements task)
  then throw "Invalid task requirements"
  else
    modify (upd_activeTasks (fun m => mset m (taskId task) task)) ;;
    setupTaskTimeout now task ;;
    regions <- gets regionalValidators ;;
    forEach regions (fun '(region, validators) =>
      let eligibleValidators :=
        filter (fun v => online (pstatus v)) (mvalues validators) in
      if Nat.eqb (length eligibleValidators) 0 then ret tt
      else
        match selectRegionalValidator eligibleValidators with
        | Some targetValidator =>
            forwardMessage targetValidator (Mtask_broadcast (Some task) None)
        | None => ret tt
        end).

Definition retryTask (now : Z) (taskId : string) : M State bool :=
  found <- gets (fun s => mget (activeTasks s) taskId) ;;
  match found with
  | None => ret false
  | Some task =>
      if negb (TaskState_eqb (state (status task)) failed) then ret false
      else
        let task' :=
          set_timestamp
            (set_status task
               {| state := pending; assignedNodes := [];
                  acceptedNodes := []; progress := 0;
                  startTime := None; completionTime := None;
                  error := None |})
            now in
        modify (upd_activeTasks (fun m => mset m taskId task')) ;;
        broadcastTask now task' (submitter task') ;;
        ret true
  end.

(** The sweep armed by [setupTaskCleanup]. *)
Definition taskCleanup (now : Z) : M State unit :=
  modify (upd_activeTasks
    (filter (fun '(_, task) =>
       negb ((TaskState_eqb (state (status task)) completed
              || TaskState_eqb (state (status task)) failed)
             && (retentionPeriod cfg <? now - timestamp task)%Z)))).

End WithConfig.

Definition handleRegionalTaskDistribution (task : Task) (region : string)
  (sourceValidator : string) : M State unit :=
  found <- gets (fun s => mget (individualNodes s) region) ;;
  match found with
  | None => ret tt
  | Some nodes =>
      let eligibleNodes :=
        slice0 (maxNodes (requirements task))
               (filter (fun node => isNodeEligibleForTask node task)
                       (mvalues nodes)) in
      if Nat.eqb (length eligibleNodes) 0 then ret tt
      else
        let rewardPerNode := calculateNodeReward task (length eligibleNodes) in
        forEach eligibleNodes (fun node =>
          forwardMessage node
            (Mtask_assignment
               (Some
                  (set_status
                     (set_reward task (set_perNode (reward task) rewardPerNode))
                     (set_assignedNodes (status task)
                        (assignedNodes (status task) ++ [peerId (info node)]))))
               None)) ;;
        modify (upd_activeTasks (fun m =>
          mset m (taskId task)
            (set_status task
               (set_assignedNodes (status task)
                  (assignedNodes (status task)
                   ++ map (fun n => peerId (info n)) eligibleNodes)))))
  end.

Definition getTaskStatus (taskId : string) (s : State) : option Task :=
  mget (activeTasks s) taskId.

Definition getActiveTasks (s : State) : list Task :=
  filter (fun task =>
            negb (TaskState_eqb (state (status task)) completed)
            && negb (TaskState_eqb (state (status task)) failed))
         (mvalues (activeTasks s)).

Definition getPendingRewards (s : State) : JsMap.t Q :=
  fold_left
    (fun pendingRewards '(_, rewards) =>
       fold_left
         (fun pending '(id, amount) =>
            let current :=
              match mget pending id with Some c => c | None => 0%Q end in
            mset pending id (current + amount)%Q)
         rewards pendingRewards)
    (rewardDistributions s) [].

(** [updateTaskProgress], as far as its guard: a node that is not
    assigned to the task is refused. *)
Definition updateTaskProgress_guard (taskId peerId : string) : M State unit :=
  found <- gets (fun s => mget (activeTasks s) taskId) ;;
  match found with
  | None => ret tt
  | Some task =>
      if negb (includes (assignedNodes (status task)) peerId)
      then throw "Node not assigned to task"
      else ret tt
  end.


Definition getTasksForNode (peerId : string) (s : State) : list Task :=
  filter (fun task => includes (assignedNodes (status task)) peerId)
         (mvalues (activeTasks s)).


Definition getMinNodesForTask (taskType : TaskType) : nat :=
  match taskType with
  | train => 1
  | process => 3
  | store => 2
  | _ => 1
  end.

Definition validateTaskBudget (task : Task) : bool :=
  let tierReqs := TASK_TIER_REQUIREMENTS (type task) in
  if Qlt_bool (total (reward task)) (minReward tierReqs) then false
  else if negb (Qeq_bool (validatorShare (reward task)) (policyShare tierReqs))
  then false
  else
    let minNodes := getMinNodesForTask (type task) in
    let rewardPerNode := calculateNodeReward task minNodes in
    Qle_bool (minReward tierReqs / inject_Z (Z.of_nat minNodes)) rewardPerNode.

End ValidatorSystem.

(* ------------------------------------------------------------------ *)
(** ** signalingServer.ts *)

Module SignalingServer.

Inductive RegionStatus := r_active | r_degraded | r_offline.

(** [RegionInfo]; the two [Set<string>] are lists in insertion order and
    the metrics snapshot pushed to the passive recorder is left out. *)
Record RegionInfo := {
  r_id : string;
  r_name : string;
  r_validators : list string;
  r_peers : list string;
  r_lastUpdate : Z;
  r_status : RegionStatus
}.

Definition set_add (l : list string) (x : string) : list string :=
  if includes l x then l else l ++ [x].

Definition set_delete (l : list string) (x : string) : list string :=
  filter (fun y => negb (String.eqb y x)) l.

Record State := {
  peers : JsMap.t ConnectedPeer;
  regions : JsMap.t RegionInfo;
  validatorSystem : ValidatorSystem.State;
  wire : list Sent
}.

Definition init : State :=
  {| peers := []; regions := []; validatorSystem := ValidatorSystem.init;
     wire := [] |}.

Definition upd_peers (f : JsMap.t ConnectedPeer -> JsMap.t ConnectedPeer)
  (s : State) : State :=
  {| peers := f (peers s); regions := regions s;
     validatorSystem := validatorSystem s; wire := wire s |}.

Definition upd_regions (f : JsMap.t RegionInfo -> JsMap.t RegionInfo)
  (s : State) : State :=
  {| peers := peers s; regions := f (regions s);
     validatorSystem := validatorSystem s; wire := wire s |}.

Definition set_validatorSystem (v : ValidatorSystem.State) (s : State) : State :=
  {| peers := peers s; regions := regions s;
     validatorSystem := v; wire := wire s |}.

Definition emit (m : Sent) (s : State) : State :=
  {| peers := peers s; regions := regions s;
     validatorSystem := validatorSystem s; wire := wire s ++ [m] |}.

(** A call into [this.validatorSystem]. *)
Definition callV {A : Type} (m : M ValidatorSystem.State A) : M State A :=
  fun s =>
    match m (validatorSystem s) with
    | Ok a v => Ok a (set_validatorSystem v s)
    | Throw e v => Throw e (set_validatorSystem v s)
    end.

(** [sendMessage]: a failed write is logged and swallowed. *)
Definition sendMessage (ws : ExtendedWebSocket) (message : SignalingMessage)
  : M State unit :=
  if readyOpen ws then
    if sendFails ws then ret tt else modify (emit (wsId ws, message))
  else ret tt.

Definition sendError (ws : ExtendedWebSocket) (message : string) : M State unit :=
  sendMessage ws (Merror message).

Definition broadcastToPeerGroup (peerInfo : PeerInfo)
  (message : SignalingMessage) : M State unit :=
  relevantPeers <- gets (fun s =>
    filter (fun p => String.eqb (region (info p)) (region peerInfo)
                     && negb (String.eqb (peerId (info p)) (peerId peerInfo)))
           (mvalues (peers s))) ;;
  forEach relevantPeers (fun peer =>
    if readyOpen (ws peer) then
      if sendFails (ws peer) then throw "send failed"
      else modify (emit (wsId (ws peer), message))
    else ret tt).

Definition sendNetworkState (ws : ExtendedWebSocket) : M State unit :=
  networkState <- gets (fun s =>
    Mnetwork_state
      (map info (mvalues (peers s)))
      (map (fun '(id, r) =>
              {| rsum_id := id; rsum_name := r_name r;
                 peerCount := length (r_peers r);
                 validatorCount := length (r_validators r) |})
           (regions s))
      (length (ValidatorSystem.getActiveTasks (validatorSystem s)))) ;;
  sendMessage ws networkState.

Definition updateRegionInfo (now : Z) (region peerId : string)
  (nodeType : NodeType) : M State unit :=
  has <- gets (fun s => mhas (regions s) region) ;;
  (if has then ret tt
   else modify (upd_regions (fun m =>
          mset m region
            {| r_id := region; r_name := region; r_validators := [];
               r_peers := []; r_lastUpdate := now; r_status := r_active |}))) ;;
  modify (upd_regions (fun m =>
    match mget m region with
    | Some r =>
        mset m region
          {| r_id := r_id r; r_name := r_name r;
             r_validators :=
               (if NodeType_eqb nodeType individual then r_validators r
                else set_add (r_validators r) peerId);
             r_peers := set_add (r_peers r) peerId;
             r_lastUpdate := now; r_status := r_status r |}
    | None => m
    end)).

Section WithConfig.
Variable cfg : Config.

Definition validateValidatorEligibility (nodeTier : NodeTier)
  (validatorType : NodeType) (tokenBalance : Q) : bool :=
  match validatorType with
  | regional_node =>
      tier_includes [aggregator; training] nodeTier
      && Qle_bool (regionalTokenRequirement cfg) tokenBalance
  | global_node =>
      tier_includes [training; feedback] nodeTier
      && Qle_bool (globalTokenRequirement cfg) tokenBalance
  | individual => false
  end.

(** The peer object [handleJoin] builds. *)
Definition new_peer (now : Z) (ws : ExtendedWebSocket) (peerId : string)
  (nodeType : NodeType) (nodeTier : NodeTier) (region : string)
  (tokenBalance : Q) : ConnectedPeer :=
  {| ws := ws;
     info := {| peerId := peerId; nodeType := nodeType;
                nodeTier := nodeTier; region := region;
                tokenBalance := tokenBalance; connected := true;
                lastSeen := now |};
     joinTime := now;
     lastActivity := now;
     pstatus := {| ns_peerId := peerId; online := true;
                   ns_nodeType := nodeType; ns_nodeTier := nodeTier;
                   ns_region := region; connections := 0;
                   resources := {| cpu := 0; memory := 0; storage := 0;
                                   bandwidth := 0; rs_timestamp := now |};
                   earnings := 0; ns_activeTasks := 0;
                   ns_completedTasks := 0; lastUpdate := now |} |}.

Definition handleJoin (now : Z) (ws : ExtendedWebSocket)
  (message : SignalingMessage) : M State unit :=
  match message with
  | Mjoin (Some peerId) (Some nodeType) (Some nodeTier) balance (Some region) =>
      let tokenBalance := match balance with Some b => b | None => 0%Q end in
      if String.eqb peerId "" || String.eqb region ""
      then sendError ws "Invalid join message format"
      else if negb (NodeType_eqb nodeType individual)
              && negb (validateValidatorEligibility nodeTier nodeType tokenBalance)
      then sendError ws "Insufficient tier or tokens for validator role"
      else
        let peer := new_peer now ws peerId nodeType nodeTier region tokenBalance in
        modify (upd_peers (fun m => mset m peerId peer)) ;;
        callV (ValidatorSystem.addNode peer) ;;
        updateRegionInfo now region peerId nodeType ;;
        sendNetworkState ws ;;
        broadcastToPeerGroup (info peer) (Mpeer_joined (info peer))
  | _ => sendError ws "Invalid join message format"
  end.

Definition handleLeave (id : option string) : M State unit :=
  found <- gets (fun s =>
    match id with Some i => mget (peers s) i | None => None end) ;;
  match found with
  | None => ret tt
  | Some peer =>
      let p := info peer in
      modify (upd_regions (fun m =>
        match mget m (region p) with
        | Some r =>
            mset m (region p)
              {| r_id := r_id r; r_name := r_name r;
                 r_validators :=
                   (if NodeType_eqb (nodeType p) individual then r_validators r
                    else set_delete (r_validators r) (peerId p));
                 r_peers := set_delete (r_peers r) (peerId p);
                 r_lastUpdate := r_lastUpdate r; r_status := r_status r |}
        | None => m
        end)) ;;
      callV (ValidatorSystem.removeNode (peerId p) (nodeType p) (region p)) ;;
      modify (upd_peers (fun m => mdelete m (peerId p))) ;;
      broadcastToPeerGroup p (Mpeer_left (peerId p) (region p))
  end.

Definition handleNodeStatus (now : Z) (message : SignalingMessage)
  : M State unit :=
  match message with
  | Mnode_status (Some sender) (Some payload) =>
      if String.eqb sender "" then ret tt
      else
        found <- gets (fun s => mget (peers s) sender) ;;
        match found with
        | None => ret tt
        | Some peer =>
            let old := pstatus peer in
            let status' :=
              match payload with
              | HealthStatus health =>
                  {| ns_peerId := sender;
                     online := GlobalNodeStatus_eqb (gh_status health) gs_active;
                     ns_nodeType := nodeType (info peer);
                     ns_nodeTier := nodeTier (info peer);
                     ns_region := region (info peer);
                     connections := connections old;
                     resources :=
                       {| cpu := resourceUtilization (metrics health);
                          memory := memory (resources old);
                          storage := storage (resources old);
                          bandwidth := bandwidth (resources old);
                          rs_timestamp := lastCheck health |};
                     earnings := earnings old;
                     ns_activeTasks := ns_activeTasks old;
                     ns_completedTasks := ns_completedTasks old;
                     lastUpdate := lastCheck health |}
              | PlainStatus st => st
              end in
            let peer' :=
              {| ws := ws peer; info := info peer; joinTime := joinTime peer;
                 lastActivity := now; pstatus := status' |} in
            modify (upd_peers (fun m => mset m sender peer')) ;;
            modify (fun s =>
              set_validatorSystem
                (ValidatorSystem.refresh_object peer' (validatorSystem s)) s)
        end
  | _ => ret tt
  end.

Definition handleTaskBroadcast (now : Z) (message : SignalingMessage)
  : M State unit :=
  match message with
  | Mtask_broadcast (Some task) (Some sender) =>
      if String.eqb sender "" then ret tt
      else
        found <- gets (fun s => mget (peers s) sender) ;;
        match found with
        | Some peer =>
            if negb (NodeType_eqb (nodeType (info peer)) global_node)
            then ret tt
            else
              try_catch
                (callV (ValidatorSystem.broadcastTask cfg now task sender))
                (fun _ => sendError (ws peer) "Task broadcast failed")
        | None => ret tt
        end
  | _ => ret tt
  end.

Definition handleTaskAssignment (message : SignalingMessage) : M State unit :=
  match message with
  | Mtask_assignment (Some task) (Some sender) =>
      if String.eqb sender "" then ret tt
      else
        found <- gets (fun s => mget (peers s) sender) ;;
        match found with
        | Some peer =>
            if negb (NodeType_eqb (nodeType (info peer)) regional_node)
            then ret tt
            else
              try_catch
                (callV (ValidatorSystem.handleRegionalTaskDistribution
                          task (region (info peer)) sender))
                (fun _ => sendError (ws peer) "Task assignment failed")
        | None => ret tt
        end
  | _ => ret tt
  end.

Definition handleTaskAcceptance (now : Z) (message : SignalingMessage)
  : M State unit :=
  match message with
  | Mtask_accepted (Some taskId) (Some sender) =>
      if String.eqb taskId "" || String.eqb sender "" then ret tt
      else
        try_catch
          (callV (ValidatorSystem.handleTaskAcceptance now taskId sender))
          (fun _ =>
             found <- gets (fun s => mget (peers s) sender) ;;
             match found with
             | Some peer => sendError (ws peer) "Task acceptance failed"
             | None => ret tt
             end)
  | _ => ret tt
  end.

Definition handleTaskCompletion (now : Z) (message : SignalingMessage)
  : M State unit :=
  match message with
  | Mtask_completed (Some taskId) (Some sender) result =>
      if String.eqb taskId "" || String.eqb sender "" || falsy_str result
      then ret tt
      else
        try_catch
          (callV (ValidatorSystem.handleTaskCompletion now taskId sender))
          (fun _ =>
             found <- gets (fun s => mget (peers s) sender) ;;
             match found with
             | Some peer => sendError (ws peer) "Task completion failed"
             | None => ret tt
             end)
  | _ => ret tt
  end.

Definition handleTaskFailure (message : SignalingMessage) : M State unit :=
  match message with
  | Mtask_failed (Some taskId) (Some sender) err =>
      if String.eqb taskId "" || String.eqb sender "" then ret tt
      else
        task <- gets (fun s =>
          ValidatorSystem.getTaskStatus taskId (validatorSystem s)) ;;
        peer <- gets (fun s => mget (peers s) sender) ;;
        match task, peer with
        | Some t, Some _ =>
            globalValidator <- gets (fun s => mget (peers s) (submitter t)) ;;
            match globalValidator with
            | Some g => sendMessage (ws g) (Mtask_failed (Some taskId) None err)
            | None => ret tt
            end
        | _, _ => ret tt
        end
  | _ => ret tt
  end.

Definition handleMessage (now : Z) (ws : ExtendedWebSocket)
  (message : SignalingMessage) : M State unit :=
  try_catch
    (match message with
     | Mjoin _ _ _ _ _ => handleJoin now ws message
     | Mleave id => handleLeave id
     | Mnode_status _ _ => handleNodeStatus now message
     | Mtask_broadcast _ _ => handleTaskBroadcast now message
     | Mtask_assignment _ _ => handleTaskAssignment message
     | Mtask_accepted _ _ => handleTaskAcceptance now message
     | Mtask_completed _ _ _ => handleTaskCompletion now message
     | Mtask_failed _ _ _ => handleTaskFailure message
     | _ => ret tt
     end)
    (fun _ =>
       sendError ws (String.append "Failed to handle " (message_type message))).

End WithConfig.

(** The peer is in no registry of the server. *)
Definition registered_nowhere (id : string) (s : State) : Prop :=
  mget (peers s) id = None
  /\ (forall rid r, In (rid, r) (regions s) ->
        ~ In id (r_peers r) /\ ~ In id (r_validators r))
  /\ mget (ValidatorSystem.globalValidators (validatorSystem s)) id = None
  /\ (forall rid m, In (rid, m) (ValidatorSystem.regionalValidators (validatorSystem s)) ->
        mget m id = None)
  /\ (forall rid m, In (rid, m) (ValidatorSystem.individualNodes (validatorSystem s)) ->
        mget m id = None).

End SignalingServer.

(* ------------------------------------------------------------------ *)
(** ** GlobalNodeCoordinator.ts *)

Module GlobalNodeCoordinator.

Record State := {
  globalNodes : JsMap.t ConnectedPeer;
  healthMetrics : JsMap.t GlobalNodeHealth;
  failoverHistory : list GlobalNodeFailover;
  activeTasks : JsMap.t Task;
  wire : list Sent
}.

Definition init : State :=
  {| globalNodes := []; healthMetrics := []; failoverHistory := [];
     activeTasks := []; wire := [] |}.

Definition upd_globalNodes (f : JsMap.t ConnectedPeer -> JsMap.t ConnectedPeer)
  (s : State) : State :=
  {| globalNodes := f (globalNodes s); healthMetrics := healthMetrics s;
     failoverHistory := failoverHistory s; activeTasks := activeTasks s;
     wire := wire s |}.

Definition upd_healthMetrics
  (f : JsMap.t GlobalNodeHealth -> JsMap.t GlobalNodeHealth) (s : State) : State :=
  {| globalNodes := globalNodes s; healthMetrics := f (healthMetrics s);
     failoverHistory := failoverHistory s; activeTasks := activeTasks s;
     wire := wire s |}.


Definition emit (m : Sent) (s : State) : State :=
  {| globalNodes := globalNodes s; healthMetrics := healthMetrics s;
     failoverHistory := failoverHistory s; activeTasks := activeTasks s;
     wire := wire s ++ [m] |}.



Definition isNodeHealthy (id : string) (s : State) : bool :=
  match mget (healthMetrics s) id with
  | Some health => GlobalNodeStatus_eqb (gh_status health) gs_active
  | None => false
  end.

(** [forwardMessage]: the promise is rejected when the socket is not open
    or the write fails. *)
Definition forwardMessage (peer : ConnectedPeer) (message : SignalingMessage)
  : M State unit :=
  if negb (readyOpen (ws peer)) then throw "WebSocket not open"
  else if sendFails (ws peer) then throw "send failed"
  else modify (emit (wsId (ws peer), message)).

(** [broadcastToGlobalNodes]: every healthy node is written to and
    [Promise.allSettled] swallows the rejections. *)
Definition broadcastToGlobalNodes (message : SignalingMessage) : M State unit :=
  targets <- gets (fun s =>
    filter (fun node => isNodeHealthy (peerId (info node)) s)
           (mvalues (globalNodes s))) ;;
  forEach targets (fun node =>
    try_catch (forwardMessage node message) (fun _ => ret tt)).

Definition defaultHealth (now : Z) (id : string) : GlobalNodeHealth :=
  {| nodeId := id; gh_status := gs_active; lastCheck := now;
     metrics := {| responsiveness := 100; taskCompletion := 100;
                   networkLatency := 0; resourceUtilization := 0 |};
     issues := [] |}.

Definition initializeHealthMetrics (now : Z) (id : string) : M State unit :=
  modify (upd_healthMetrics (fun m => mset m id (defaultHealth now id))).

Definition synchronizeWithGlobalNodes : M State unit :=
  n <- gets (fun s => msize (globalNodes s)) ;;
  if Nat.eqb n 0 then ret tt
  else
    message <- gets (fun s =>
      Msync_request (mvalues (activeTasks s))
                    (map info (mvalues (globalNodes s)))) ;;
    broadcastToGlobalNodes message.

Definition addGlobalNode (now : Z) (peer : ConnectedPeer) : M State unit :=
  modify (upd_globalNodes (fun m => mset m (peerId (info peer)) peer)) ;;
  initializeHealthMetrics now (peerId (info peer)) ;;
  synchronizeWithGlobalNodes.

(** [getNodeTaskMetrics]: [completed / (active + completed) * 100 || 100]
    is 100 when the quotient is not a number or zero, that is when no
    task is completed. *)
Definition getNodeTaskMetrics (id : string) (s : State) : Q * Q :=
  match mget (globalNodes s) id with
  | None => (0, 0)%Q
  | Some node =>
      let c := ns_completedTasks (pstatus node) in
      let a := ns_activeTasks (pstatus node) in
      ((if Nat.eqb c 0 then 100
        else inject_Z (Z.of_nat c) / inject_Z (Z.of_nat (a + c)) * 100)%Q,
       ((cpu (resources (pstatus node)) + memory (resources (pstatus node))) / 2)%Q)
  end.

Definition determineNodeStatus (m : HealthMetrics) : GlobalNodeStatus :=
  if Qlt_bool (responsiveness m) 50 || Qlt_bool (taskCompletion m) 50
  then gs_failing
  else if Qlt_bool (responsiveness m) 80 || Qlt_bool (taskCompletion m) 80
  then gs_degraded
  else gs_active.

(** [assessNodeHealth]. [pong] is the environment: the latency with which
    a node answers the probe, or [None] when it does not answer in time. *)
Definition assessNodeHealth (now : Z) (pong : string -> option Q)
  (peer : ConnectedPeer) (s : State) : GlobalNodeHealth :=
  let id := peerId (info peer) in
  let health :=
    match mget (healthMetrics s) id with
    | Some h => h
    | None => defaultHealth now id
    end in
  let answered := if readyOpen (ws peer) then pong id else None in
  let '(resp, lat, iss) :=
    match answered with
    | Some latency => (100%Q, latency, issues health)
    | None => (Qmax 0 (responsiveness (metrics health) - 20),
               networkLatency (metrics health),
               issues health ++ ["Node not responding to ping"])
    end in
  let taskMetrics := getNodeTaskMetrics id s in
  let m := {| responsiveness := resp; taskCompletion := fst taskMetrics;
              networkLatency := lat; resourceUtilization := snd taskMetrics |} in
  {| nodeId := nodeId health; gh_status := determineNodeStatus m;
     lastCheck := now; metrics := m; issues := iss |}.

Definition handleDegradedNode (id : string) : M State unit :=
  node <- gets (fun s => mget (globalNodes s) id) ;;
  healthStatus <- gets (fun s => mget (healthMetrics s) id) ;;
  match node, healthStatus with
  | Some n, Some h =>
      let nodeStatus :=
        {| ns_peerId := id;
           online := GlobalNodeStatus_eqb (gh_status h) gs_active;
           ns_nodeType := nodeType (info n); ns_nodeTier := nodeTier (info n);
           ns_region := region (info n); connections := 0;
           resources := {| cpu := resourceUtilization (metrics h); memory := 0;
                           storage := 0; bandwidth := 0;
                           rs_timestamp := lastCheck h |};
           earnings := 0; ns_activeTasks := 0; ns_completedTasks := 0;
           lastUpdate := lastCheck h |} in
      broadcastToGlobalNodes (Mglobal_node_health_status id nodeStatus h)
  | _, _ => ret tt
  end.

Definition broadcastHealthUpdate (health : GlobalNodeHealth) : M State unit :=
  broadcastToGlobalNodes (Mglobal_node_health health).


Definition checkGlobalNodesHealth (now : Z) (pong : string -> option Q)
  : M State unit :=
  nodes <- gets globalNodes ;;
  forEach nodes (fun '(id, peer) =>
    try_catch
      (health <- gets (assessNodeHealth now pong peer) ;;
       modify (upd_healthMetrics (fun m => mset m id health)) ;;
       (if GlobalNodeStatus_eqb (gh_status health) gs_failing
        then handleDegradedNode id
        else ret tt) ;;
       broadcastHealthUpdate health)
      (fun _ => ret tt)).








Definition getFailoverHistory (s : State) : list GlobalNodeFailover :=
  failoverHistory s.

Definition getHealthyGlobalNodes (s : State) : list PeerInfo :=
  map info (filter (fun node => isNodeHealthy (peerId (info node)) s)
                   (mvalues (globalNodes s))).

End GlobalNodeCoordinator.

(* ------------------------------------------------------------------ *)
(** ** network/DHTNetwork.ts: the key-value part *)

Module DHTNetwork.

(** A stored value ([any]). *)
Inductive JsValue :=
| Vundefined
| Vnull
| Vnum (q : Q)
| Vstr (s : string).

Record DHTNode := {
  d_id : string;
  address : string;
  d_lastSeen : Z
}.

Inductive DHTMessageType :=
| DfindValue (key : string)
| Dstore (key : string) (value : JsValue).

Record State := {
  nodes : JsMap.t DHTNode;
  data : JsMap.t JsValue;
  activeConnections : JsMap.t ExtendedWebSocket;
  connected : bool;
  attempts : list (string * DHTMessageType);
  wire : list (nat * DHTMessageType)
}.

Definition set_data (f : JsMap.t JsValue -> JsMap.t JsValue) (s : State) : State :=
  {| nodes := nodes s; data := f (data s);
     activeConnections := activeConnections s; connected := connected s;
     attempts := attempts s; wire := wire s |}.

Definition note_attempt (a : string * DHTMessageType) (s : State) : State :=
  {| nodes := nodes s; data := data s;
     activeConnections := activeConnections s; connected := connected s;
     attempts := attempts s ++ [a]; wire := wire s |}.

Definition emit (m : nat * DHTMessageType) (s : State) : State :=
  {| nodes := nodes s; data := data s;
     activeConnections := activeConnections s; connected := connected s;
     attempts := attempts s; wire := wire s ++ [m] |}.

(** The environment of a round trip: what the node with the given id
    answers to a message ([response.value]), or [None] when no answer
    comes before the timeout. *)
Definition Replies : Type := string -> DHTMessageType -> option JsValue.

(** [sendMessage]: rejected when the node has no open connection or when
    no answer comes; otherwise resolves to the answer. The call itself is
    recorded in [attempts]. *)
Definition sendMessage (replies : Replies) (node : DHTNode)
  (message : DHTMessageType) : M State JsValue :=
  modify (note_attempt (d_id node, message)) ;;
  conn <- gets (fun s => mget (activeConnections s) (d_id node)) ;;
  match conn with
  | None => throw "WebSocket not open"
  | Some ws =>
      if negb (readyOpen ws) then throw "WebSocket not open"
      else
        modify (emit (wsId ws, message)) ;;
        match replies (d_id node) message with
        | Some v => ret v
        | None => throw "Message timeout"
        end
  end.

(** [findValue]: the local store first, then every known node in turn;
    the first defined answer is cached and returned, else [null]. *)
Fixpoint askNodes (replies : Replies) (key : string) (l : list DHTNode)
  : M State JsValue :=
  match l with
  | [] => ret Vnull
  | node :: r =>
      answer <- try_catch (sendMessage replies node (DfindValue key))
                          (fun _ => ret Vundefined) ;;
      match answer with
      | Vundefined => askNodes replies key r
      | v => modify (set_data (fun m => mset m key v)) ;; ret v
      end
  end.

Definition findValue (replies : Replies) (key : string) : M State JsValue :=
  isConnected <- gets connected ;;
  if negb isConnected then throw "Not connected to DHT network"
  else
    found <- gets (fun s => mget (data s) key) ;;
    match found with
    | Some v => ret v
    | None =>
        known <- gets (fun s => mvalues (nodes s)) ;;
        askNodes replies key known
    end.

(** [targets.map(node => this.sendMessage(node, message).catch(...))]
    awaited with [Promise.all]: one call per target, a rejection is
    logged and dropped. *)
Definition replicate (replies : Replies) (key : string) (value : JsValue)
  (replicas : list DHTNode) : M State unit :=
  forEach replicas (fun node =>
    try_catch (sendMessage replies node (Dstore key value) ;; ret tt)
              (fun _ => ret tt)).

Section WithConfig.
Variable cfg : Config.

Definition targets (s : State) : list DHTNode :=
  slice0 (replicationFactor cfg) (mvalues (nodes s)).

Definition store (replies : Replies) (key : string) (value : JsValue)
  : M State unit :=
  isConnected <- gets connected ;;
  if negb isConnected then throw "Not connected to DHT network"
  else
    try_catch
      (modify (set_data (fun m => mset m key value)) ;;
       replicas <- gets targets ;;
       replicate replies key value replicas)
      (fun e => throw e).

End WithConfig.

End DHTNetwork.

(* ------------------------------------------------------------------ *)
(** ** TaskBackupSystem.ts *)

Module TaskBackupSystem.

(** The two messages the class writes: a [SignalingMessage] of type
    [task_backup] or [task_recovery] that carries the task. *)
Inductive BackupMessage :=
| Mtask_backup (task : Task)
| Mtask_recovery (task : Task).

Record State := {
  taskBackups : JsMap.t (list Task);
  wire : list (nat * BackupMessage)
}.

Definition init : State := {| taskBackups := []; wire := [] |}.

Definition upd_taskBackups
  (f : JsMap.t (list Task) -> JsMap.t (list Task)) (s : State) : State :=
  {| taskBackups := f (taskBackups s); wire := wire s |}.

Definition emit (m : nat * BackupMessage) (s : State) : State :=
  {| taskBackups := taskBackups s; wire := wire s ++ [m] |}.

(** [sendBackupToNode]: the promise is rejected when the socket is not
    open or the write fails. *)
Definition sendBackupToNode (node : ConnectedPeer) (message : BackupMessage)
  : M State unit :=
  if negb (readyOpen (ws node)) then throw "WebSocket not open"
  else if sendFails (ws node) then throw "send failed"
  else modify (emit (wsId (ws node), message)).

(** [Promise.all(backups.map(node => this.sendBackupToNode(node, m)))]:
    every write is made while the promises are created; the result is a
    rejection when one of them is rejected. *)
Fixpoint sendAll (nodes : list ConnectedPeer) (message : BackupMessage)
  : M State (option string) :=
  match nodes with
  | [] => ret None
  | node :: r =>
      first <- try_catch (sendBackupToNode node message ;; ret None)
                         (fun e => ret (Some e)) ;;
      rest <- sendAll r message ;;
      ret (match first with Some e => Some e | None => rest end)
  end.

(** [task.requirements.redundancy || 2] *)
Definition redundancy_or_2 (task : Task) : Z :=
  match redundancy (requirements task) with
  | Some n => if (n =? 0)%Z then 2%Z else n
  | None => 2%Z
  end.

Definition backupTask (task : Task) (backupNodes : list ConnectedPeer)
  : M State unit :=
  try_catch
    (let backups := slice0 (redundancy_or_2 task) backupNodes in
     rejected <- sendAll backups (Mtask_backup task) ;;
     match rejected with
     | Some e => throw e
     | None =>
         modify (upd_taskBackups (fun m =>
           mset m (taskId task) (map (fun _ => task) backups)))
     end)
    (fun e => throw e).

Definition recoverTask (taskId : string) (targetNode : ConnectedPeer)
  : M State (option Task) :=
  backups <- gets (fun s => mget (taskBackups s) taskId) ;;
  match backups with
  | None => ret None
  | Some l =>
      match nth_error l (length l - 1) with
      | None => ret None
      | Some task =>
          try_catch
            (sendBackupToNode targetNode (Mtask_recovery task) ;;
             ret (Some task))
            (fun _ => ret None)
      end
  end.

Definition getBackupCount (taskId : string) (s : State) : nat :=
  match mget (taskBackups s) taskId with
  | Some l => length l
  | None => 0
  end.

Definition clearTaskBackups (taskId : string) : M State unit :=
  modify (upd_taskBackups (fun m => mdelete m taskId)).

(** [validateBackups]: task id, validity and number of copies. *)
Definition validateBackups (s : State) : list (string * bool * nat) :=
  map (fun '(id, backups) => (id, Nat.leb 2 (length backups), length backups))
      (taskBackups s).

End TaskBackupSystem.

(* ------------------------------------------------------------------ *)
(** ** Vocabulary of the statements *)

(** What the timer callback leaves in the table for a task that was still
    pending. *)
Definition timed_out (task : Task) : Task :=
  set_status task
    (set_error (set_state (status task) failed)
               (Some "Task timed out waiting for acceptance")).

(** The task breaks the policy of its type or the configured bounds. *)
Definition violates_policy (cfg : Config) (task : Task) : Prop :=
  let policy := TASK_TIER_REQUIREMENTS (type task) in
  ~ (validatorShare (reward task) == policyShare policy)%Q
  \/ ~ In (minTier (requirements task)) (tiers policy)
  \/ (total (reward task) < minReward policy)%Q
  \/ (estimatedDuration (requirements task) < minTaskDuration cfg)%Q
  \/ (maxTaskDuration cfg < estimatedDuration (requirements task))%Q
  \/ (maxNodesPerTask cfg < maxNodes (requirements task))%Z.

(** Every entry of the task table is filed under the id of its task (each
    [activeTasks.set] of the engine uses [task.taskId] or the key the task
    was read from). *)
Definition keys_match (tasks : JsMap.t Task) : Prop :=
  forall k t, mget tasks k = Some t -> taskId t = k.

(** The task once [handleNodeFailure] has taken [nodeId] out of it. *)
Definition without_node (nodeId : string) (task : Task) : Task :=
  let st1 := set_assignedNodes (status task)
    (filter (fun id => negb (String.eqb id nodeId)) (assignedNodes (status task))) in
  let st2 := set_acceptedNodes st1
    (filter (fun id => negb (String.eqb id nodeId)) (acceptedNodes st1)) in
  if Nat.eqb (length (assignedNodes st2)) 0
  then set_status task
         (set_error (set_state st2 failed) (Some "All assigned nodes failed"))
  else set_status task st2.

(** What [removeNode] does to one task of the table. *)
Definition touch (nodeId : string) (task : Task) : Task :=
  if includes (assignedNodes (status task)) nodeId
  then without_node nodeId task
  else task.

(** The sum of the amounts of a reward map. *)
Definition sum_values (m : JsMap.t Q) : Q :=
  fold_right (fun kv acc => (snd kv + acc)%Q) 0%Q m.



Definition or0 (o : option Q) : Q :=
  match o with Some q => q | None => 0%Q end.

(** The entry of a peer in the map [getPendingRewards] returns (0 when the
    peer has none). *)
Definition pending_of (id : string) (s : ValidatorSystem.State) : Q :=
  or0 (mget (ValidatorSystem.getPendingRewards s) id).

(** The validator reward pool of a task. *)
Definition validator_pool (task : Task) : Q :=
  (total (reward task) * (validatorShare (reward task) / 100))%Q.

(** The sum of the rewards the ledger holds for a task. *)
Definition entry_sum (id : string) (s : ValidatorSystem.State) : Q :=
  match mget (ValidatorSystem.rewardDistributions s) id with
  | Some m => sum_values m
  | None => 0%Q
  end.

(** The ledger is a map of maps: no key occurs twice. *)
Definition ledger_wf (ledger : JsMap.t (JsMap.t Q)) : Prop :=
  NoDup (mkeys ledger)
  /\ forall k m, In (k, m) ledger -> NoDup (mkeys m).

(** The share [finalizeTask] gives each of [n] validators. *)
Definition validator_share (task : Task) (n : nat) : Q :=
  (total (reward task) * (validatorShare (reward task) / 100)
   / inject_Z (Z.of_nat n))%Q.


(** The tables of the coordinator that a broadcast leaves alone. *)
Definition same_tables (a b : GlobalNodeCoordinator.State) : Prop :=
  GlobalNodeCoordinator.globalNodes b = GlobalNodeCoordinator.globalNodes a
  /\ GlobalNodeCoordinator.healthMetrics b = GlobalNodeCoordinator.healthMetrics a
  /\ GlobalNodeCoordinator.failoverHistory b = GlobalNodeCoordinator.failoverHistory a
  /\ GlobalNodeCoordinator.activeTasks b = GlobalNodeCoordinator.activeTasks a.


(** The calls the signaling layer and the runtime make into the task
    engine. *)
Inductive Call :=
| CaddNode (peer : ConnectedPeer)
| CremoveNode (peerId : string) (nodeType : NodeType) (region : string)
| CbroadcastTask (now : Z) (task : Task) (source : string)
| CdistributeTask (task : Task) (region : string) (source : string)
| CacceptTask (now : Z) (taskId peerId : string)
| CcompleteTask (now : Z) (taskId peerId : string)
| CretryTask (now : Z) (taskId : string)
| CfireTimer (h : nat)
| CtaskCleanup (now : Z).

(** The engine state a call leaves, also when it throws. *)
Definition perform (cfg : Config) (c : Call) (s : ValidatorSystem.State)
  : ValidatorSystem.State :=
  match c with
  | CaddNode peer => state_of (ValidatorSystem.addNode peer s)
  | CremoveNode id ty reg => state_of (ValidatorSystem.removeNode id ty reg s)
  | CbroadcastTask now task source =>
      state_of (ValidatorSystem.broadcastTask cfg now task source s)
  | CdistributeTask task reg source =>
      state_of (ValidatorSystem.handleRegionalTaskDistribution task reg source s)
  | CacceptTask now id peer =>
      state_of (ValidatorSystem.handleTaskAcceptance now id peer s)
  | CcompleteTask now id peer =>
      state_of (ValidatorSystem.handleTaskCompletion now id peer s)
  | CretryTask now id => state_of (ValidatorSystem.retryTask cfg now id s)
  | CfireTimer h => state_of (ValidatorSystem.fireTimer h s)
  | CtaskCleanup now => state_of (ValidatorSystem.taskCleanup cfg now s)
  end.

(** The engine states reached from the initial one. *)
Inductive reachable (cfg : Config) : ValidatorSystem.State -> Prop :=
| reach_init : reachable cfg ValidatorSystem.init
| reach_step (s : ValidatorSystem.State) (c : Call) :
    reachable cfg s -> reachable cfg (perform cfg c s).

(** The tables of the engine are maps: no key occurs twice, every task is
    filed under its own id, and the ledger is a map of maps. *)
Definition tables_wf (s : ValidatorSystem.State) : Prop :=
  NoDup (mkeys (ValidatorSystem.activeTasks s))
  /\ (forall k t, In (k, t) (ValidatorSystem.activeTasks s) -> taskId t = k)
  /\ ledger_wf (ValidatorSystem.rewardDistributions s).

(** [m] keeps the property [P] of the state, also when it throws. *)
Definition preserves {S A : Type} (P : S -> Prop) (m : M S A) : Prop :=
  forall s, P s -> P (state_of (m s)).

(** The accepted nodes of a task are among its assigned nodes. *)
Definition contained (t : Task) : Prop :=
  incl (acceptedNodes (status t)) (assignedNodes (status t)).

(** Containment for every task of the table. *)
Definition containment (s : ValidatorSystem.State) : Prop :=
  forall k t, mget (ValidatorSystem.activeTasks s) k = Some t -> contained t.

(** The task once [handleTaskAcceptance] has recorded [peer] at [now]. *)
Definition accepted_by (now : Z) (peer : string) (task : Task) : Task :=
  let st1 := set_acceptedNodes (status task)
               (acceptedNodes (status task) ++ [peer]) in
  set_status task
    match startTime st1 with
    | None => set_state (set_startTime st1 (Some now)) processing
    | Some _ => st1
    end.

(** The join asks for a validator role the tier or the balance does not
    allow. *)
Definition ineligible (cfg : Config) (ty : NodeType) (tier : NodeTier)
  (balance : Q) : Prop :=
  (ty = regional_node
   /\ (~ In tier [aggregator; training]
       \/ (balance < regionalTokenRequirement cfg)%Q))
  \/ (ty = global_node
      /\ (~ In tier [training; feedback]
          \/ (balance < globalTokenRequirement cfg)%Q)).

(** What a call must bring for the accepted nodes to stay among the
    assigned ones: an accepting peer is assigned to the task it accepts,
    and a task handed in from outside is itself in order. *)
Definition call_respects_assignment (c : Call) (s : ValidatorSystem.State)
  : Prop :=
  match c with
  | CacceptTask _ id peer =>
      forall task, mget (ValidatorSystem.activeTasks s) id = Some task ->
                   In peer (assignedNodes (status task))
  | CbroadcastTask _ task _ => contained task
  | CdistributeTask task _ _ => contained task
  | _ => True
  end.

(** [m] is at least as good a target as [v]: no more active tasks, and
    with as many active tasks no fewer completed ones. *)
Definition no_busier (m v : ConnectedPeer) : Prop :=
  (ns_activeTasks (pstatus m) <= ns_activeTasks (pstatus v))%nat
  /\ (ns_activeTasks (pstatus v) = ns_activeTasks (pstatus m) ->
      (ns_completedTasks (pstatus v) <= ns_completedTasks (pstatus m))%nat).

(** The comparator [selectRegionalValidator] sorts with. *)
Definition load_cmp (a b : ConnectedPeer) : Z :=
  let d := (Z.of_nat (ns_activeTasks (pstatus a))
            - Z.of_nat (ns_activeTasks (pstatus b)))%Z in
  if (d =? 0)%Z
  then (Z.of_nat (ns_completedTasks (pstatus b))
        - Z.of_nat (ns_completedTasks (pstatus a)))%Z
  else d.

(** The head of the array while [sort] inserts its elements one by one. *)
Definition running_head {A : Type} (cmp : A -> A -> Z) (h : option A) (x : A)
  : option A :=
  Some match h with
       | None => x
       | Some m => if (cmp x m <? 0)%Z then x else m
       end.

(** Two engine states that differ at most in the log of socket writes. *)
Definition same_engine_tables (a b : ValidatorSystem.State) : Prop :=
  ValidatorSystem.globalValidators b = ValidatorSystem.globalValidators a
  /\ ValidatorSystem.regionalValidators b = ValidatorSystem.regionalValidators a
  /\ ValidatorSystem.individualNodes b = ValidatorSystem.individualNodes a
  /\ ValidatorSystem.activeTasks b = ValidatorSystem.activeTasks a
  /\ ValidatorSystem.taskTimeouts b = ValidatorSystem.taskTimeouts a
  /\ ValidatorSystem.rewardDistributions b = ValidatorSystem.rewardDistributions a
  /\ ValidatorSystem.timers b = ValidatorSystem.timers a
  /\ ValidatorSystem.nextTimer b = ValidatorSystem.nextTimer a.


(** The nodes [handleRegionalTaskDistribution] assigns a task to in a
    region: the first [maxNodes] eligible individual nodes, none for an
    unknown region. *)
Definition selected_nodes (task : Task) (reg : string)
  (s : ValidatorSystem.State) : list ConnectedPeer :=
  match mget (ValidatorSystem.individualNodes s) reg with
  | None => []
  | Some nodes =>
      slice0 (maxNodes (requirements task))
             (filter (fun node => ValidatorSystem.isNodeEligibleForTask node task)
                     (mvalues nodes))
  end.

(** The assignment message a selected node is sent. *)
Definition assignment_for (task : Task) (count : nat) (node : ConnectedPeer)
  : SignalingMessage :=
  Mtask_assignment
    (Some
       (set_status
          (set_reward task
             (set_perNode (reward task)
                (ValidatorSystem.calculateNodeReward task count)))
          (set_assignedNodes (status task)
             (assignedNodes (status task) ++ [peerId (info node)]))))
    None.

(** The task object after [retryTask] has reset it in place. *)
Definition reset_for_retry (now : Z) (task : Task) : Task :=
  set_timestamp
    (set_status task
       {| state := pending; assignedNodes := []; acceptedNodes := [];
          progress := 0; startTime := None; completionTime := None;
          error := None |})
    now.




(** The peer object the pools hold for a node of type [ty] filed in
    [reg] under [id]. *)
Definition pool_entry (ty : NodeType) (reg id : string)
  (s : ValidatorSystem.State) : option ConnectedPeer :=
  match ty with
  | global_node => mget (ValidatorSystem.globalValidators s) id
  | regional_node =>
      match mget (ValidatorSystem.regionalValidators s) reg with
      | Some m => mget m id
      | None => None
      end
  | individual =>
      match mget (ValidatorSystem.individualNodes s) reg with
      | Some m => mget m id
      | None => None
      end
  end.

(** Two server states that differ at most in the log of socket writes. *)
Definition same_registries (a b : SignalingServer.State) : Prop :=
  SignalingServer.peers b = SignalingServer.peers a
  /\ SignalingServer.regions b = SignalingServer.regions a
  /\ SignalingServer.validatorSystem b = SignalingServer.validatorSystem a.

(** The [network_state] message [sendNetworkState] builds in a state. *)
Definition network_state_of (s : SignalingServer.State) : SignalingMessage :=
  Mnetwork_state
    (map info (mvalues (SignalingServer.peers s)))
    (map (fun '(id, r) =>
            {| rsum_id := id; rsum_name := SignalingServer.r_name r;
               peerCount := length (SignalingServer.r_peers r);
               validatorCount := length (SignalingServer.r_validators r) |})
         (SignalingServer.regions s))
    (length (ValidatorSystem.getActiveTasks (SignalingServer.validatorSystem s))).

(** A join that [handleJoin] admits: the fields are there and a validator
    passes the eligibility check. *)
Definition admissible_join (cfg : Config) (id : string) (ty : NodeType)
  (tier : NodeTier) (balance : option Q) (reg : string) : Prop :=
  id <> "" /\ reg <> ""
  /\ (ty = individual
      \/ SignalingServer.validateValidatorEligibility cfg tier ty
           (match balance with Some b => b | None => 0%Q end) = true).


(** The table of global validators is a map keyed by peer id. *)
Definition nodes_keyed (s : GlobalNodeCoordinator.State) : Prop :=
  NoDup (mkeys (GlobalNodeCoordinator.globalNodes s))
  /\ forall k p, In (k, p) (GlobalNodeCoordinator.globalNodes s) ->
                 peerId (info p) = k.

(** Health-check rounds run one after the other at the given times. *)
Definition health_rounds (times : list Z) (pong : string -> option Q)
  (s : GlobalNodeCoordinator.State) : GlobalNodeCoordinator.State :=
  fold_left
    (fun st t => state_of (GlobalNodeCoordinator.checkGlobalNodesHealth t pong st))
    times s.

(** The node does not answer the liveness probe. *)
Definition unanswered (pong : string -> option Q) (peer : ConnectedPeer) : Prop :=
  (if readyOpen (ws peer) then pong (peerId (info peer)) else None) = None.

(** The nodes a coordinator broadcast reaches: tracked, health status
    active, socket open and in order. *)
Definition reached (s : GlobalNodeCoordinator.State) : list ConnectedPeer :=
  filter (fun node => readyOpen (ws node) && negb (sendFails (ws node)))
    (filter (fun node =>
               GlobalNodeCoordinator.isNodeHealthy (peerId (info node)) s)
            (mvalues (GlobalNodeCoordinator.globalNodes s))).

(** The socket of the node is open and does not raise on a write. *)
Definition reachable_node (node : ConnectedPeer) : bool :=
  readyOpen (ws node) && negb (sendFails (ws node)).

(** The nodes [backupTask] writes a task to. *)
Definition backup_targets (task : Task) (backupNodes : list ConnectedPeer)
  : list ConnectedPeer :=
  slice0 (TaskBackupSystem.redundancy_or_2 task) backupNodes.

(** What a known node gives for [key] when asked by [findValue]: a
    defined value, if the node has an open connection and answers one in
    time. *)
Definition answer_of (replies : DHTNetwork.Replies) (key : string)
  (s : DHTNetwork.State) (node : DHTNetwork.DHTNode)
  : option DHTNetwork.JsValue :=
  match mget (DHTNetwork.activeConnections s) (DHTNetwork.d_id node) with
  | Some ws =>
      if readyOpen ws then
        match replies (DHTNetwork.d_id node) (DHTNetwork.DfindValue key) with
        | Some DHTNetwork.Vundefined => None
        | Some v => Some v
        | None => None
        end
      else None
  | None => None
  end.

(** The nodes [findValue] asks, in order, and the first defined answer:
    the search stops at the first node that gives one. *)
Fixpoint asked_until (replies : DHTNetwork.Replies) (key : string)
  (s : DHTNetwork.State) (l : list DHTNetwork.DHTNode)
  : list DHTNetwork.DHTNode * option DHTNetwork.JsValue :=
  match l with
  | [] => ([], None)
  | node :: r =>
      match answer_of replies key s node with
      | Some v => ([node], Some v)
      | None =>
          let '(asked, found) := asked_until replies key s r in
          (node :: asked, found)
      end
  end.

(* ------------------------------------------------------------------ *)
(** ** A small network used in the examples

    One global validator [G], one regional validator [R] and two training
    nodes [N1], [N2] in region [eu]; a [train] task worth 200 with the
    policy share of 10 percent, submitted by [G]. *)

Module Scenario.

Definition sock (n : nat) : ExtendedWebSocket :=
  {| wsId := n; readyOpen := true; sendFails := false |}.

Definition G : ConnectedPeer :=
  SignalingServer.new_peer 0 (sock 1) "G" global_node training "eu" 5000.
Definition R : ConnectedPeer :=
  SignalingServer.new_peer 0 (sock 2) "R" regional_node aggregator "eu" 1000.
Definition N1 : ConnectedPeer :=
  SignalingServer.new_peer 0 (sock 3) "N1" individual training "eu" 0.
Definition N2 : ConnectedPeer :=
  SignalingServer.new_peer 0 (sock 4) "N2" individual training "eu" 0.

Definition trainTask : Task :=
  {| taskId := "T"; type := train;
     requirements := {| minTier := training; minStorage := None;
                        minMemory := None; gpuRequired := None;
                        priority := medium; estimatedDuration := 60;
                        maxNodes := 2; redundancy := None |};
     data := "";
     reward := {| total := 200; perNode := 90; validatorShare := 10;
                  deadline := ""; penaltyRate := 1 |};
     status := {| state := pending; assignedNodes := []; acceptedNodes := [];
                  progress := 0; startTime := None; completionTime := None;
                  error := None |};
     timestamp := 0; expiry := ""; submitter := "G";
     globalValidator := None; backupValidators := None |}.

(** The same task declaring a validator share of 15 percent. *)
Definition wrongShareTask : Task :=
  set_reward trainTask
    {| total := 200; perNode := 90; validatorShare := 15;
       deadline := ""; penaltyRate := 1 |}.

(** A connected DHT node that knows four routing-table nodes and has an
    open connection to none of them. *)
Definition isolated : DHTNetwork.State :=
  {| DHTNetwork.nodes :=
       [("a", {| DHTNetwork.d_id := "a"; DHTNetwork.address := "ws://a";
                 DHTNetwork.d_lastSeen := 0 |});
        ("b", {| DHTNetwork.d_id := "b"; DHTNetwork.address := "ws://b";
                 DHTNetwork.d_lastSeen := 0 |});
        ("c", {| DHTNetwork.d_id := "c"; DHTNetwork.address := "ws://c";
                 DHTNetwork.d_lastSeen := 0 |});
        ("d", {| DHTNetwork.d_id := "d"; DHTNetwork.address := "ws://d";
                 DHTNetwork.d_lastSeen := 0 |})];
     DHTNetwork.data := [];
     DHTNetwork.activeConnections := [];
     DHTNetwork.connected := true;
     DHTNetwork.attempts := [];
     DHTNetwork.wire := [] |}.

(** No peer ever answers. *)
Definition silence : DHTNetwork.Replies := fun _ _ => None.

(** Three global validators [A], [B], [C] tracked by a coordinator. *)
Definition A : ConnectedPeer :=
  SignalingServer.new_peer 0 (sock 11) "A" global_node training "eu" 5000.
Definition B : ConnectedPeer :=
  SignalingServer.new_peer 0 (sock 12) "B" global_node training "eu" 5000.
Definition C : ConnectedPeer :=
  SignalingServer.new_peer 0 (sock 13) "C" global_node feedback "us" 5000.

(** Who answers the liveness probe: everyone but [A], or only [B]. *)
Definition all_but_A : string -> option Q :=
  fun id => if String.eqb id "A" then None else Some 5%Q.

(** [m] run from [s], keeping the state also when [m] throws. *)
Definition after {S A : Type} (m : M S A) (s : S) : S := state_of (m s).

(** The four peers have joined. *)
Definition joined : ValidatorSystem.State :=
  after (ValidatorSystem.addNode N2)
    (after (ValidatorSystem.addNode N1)
       (after (ValidatorSystem.addNode R)
          (after (ValidatorSystem.addNode G) ValidatorSystem.init))).

(** [G] has broadcast the task at time 0. *)
Definition broadcast : ValidatorSystem.State :=
  after (ValidatorSystem.broadcastTask envConfig 0 trainTask "G") joined.

(** [R] has distributed it in its region: [N1] and [N2] are assigned. *)
Definition distributed : ValidatorSystem.State :=
  after (ValidatorSystem.handleRegionalTaskDistribution trainTask "eu" "R")
        broadcast.

Definition tracked : GlobalNodeCoordinator.State :=
  after (GlobalNodeCoordinator.addGlobalNode 0 C)
    (after (GlobalNodeCoordinator.addGlobalNode 0 B)
       (after (GlobalNodeCoordinator.addGlobalNode 0 A)
              GlobalNodeCoordinator.init)).




(** [N1] has accepted at time 0: the task is processing. *)
Definition distributed_accepted : ValidatorSystem.State :=
  after (ValidatorSystem.handleTaskAcceptance 0 "T" "N1") distributed.

Definition acceptedTask : Task :=
  set_status trainTask
    {| state := processing; assignedNodes := ["N1"; "N2"];
       acceptedNodes := ["N1"]; progress := 0; startTime := Some 0%Z;
       completionTime := None; error := None |}.

(** [N1] has reported its completion one second after accepting, on
    time; [N2] never accepted. The reward of [N1] is recorded and
    finalization is about to run. *)
Definition one_completed : ValidatorSystem.State :=
  after (ValidatorSystem.recordCompletion 1000 "T" "N1") distributed_accepted.

(** Both nodes have accepted, and both have reported on time but the
    last report is still to be finalized. *)
Definition both_completed : ValidatorSystem.State :=
  after (ValidatorSystem.recordCompletion 2000 "T" "N2")
    (after (ValidatorSystem.recordCompletion 1000 "T" "N1")
       (after (ValidatorSystem.handleTaskAcceptance 0 "T" "N2")
          distributed_accepted)).

Definition bothTask : Task :=
  set_status trainTask
    {| state := processing; assignedNodes := ["N1"; "N2"];
       acceptedNodes := ["N1"; "N2"]; progress := 0; startTime := Some 0%Z;
       completionTime := None; error := None |}.

(** The regional validator [R] itself has accepted the distributed task
    at time 0 and reported its completion one second later: its
    completion reward is recorded and finalization is about to run. *)
Definition validator_completed : ValidatorSystem.State :=
  after (ValidatorSystem.recordCompletion 1000 "T" "R")
    (after (ValidatorSystem.handleTaskAcceptance 0 "T" "R") distributed).

Definition validatorTask : Task :=
  set_status trainTask
    {| state := processing; assignedNodes := ["N1"; "N2"];
       acceptedNodes := ["R"]; progress := 0; startTime := Some 0%Z;
       completionTime := None; error := None |}.

(** The signaling server after three messages: [G] joins, [G] broadcasts
    the task, and a peer [X] that never joined and was never assigned
    sends [task_accepted] for it. *)
Definition server_broadcast : SignalingServer.State :=
  after (SignalingServer.handleMessage envConfig 1 (sock 1)
           (Mtask_broadcast (Some trainTask) (Some "G")))
    (after (SignalingServer.handleMessage envConfig 0 (sock 1)
              (Mjoin (Some "G") (Some global_node) (Some training)
                     (Some 5000%Q) (Some "eu")))
           SignalingServer.init).

Definition server_intruded : SignalingServer.State :=
  after (SignalingServer.handleMessage envConfig 2 (sock 9)
           (Mtask_accepted (Some "T") (Some "X")))
        server_broadcast.

(** A regional validator of [eu] with the given numbers of active and
    completed tasks. *)
Definition loaded (n : nat) (id : string) (active done : nat) : ConnectedPeer :=
  {| ws := sock n;
     info := info (SignalingServer.new_peer 0 (sock n) id regional_node
                     aggregator "eu" 1000);
     joinTime := 0; lastActivity := 0;
     pstatus := {| ns_peerId := id; online := true;
                   ns_nodeType := regional_node; ns_nodeTier := aggregator;
                   ns_region := "eu"; connections := 0;
                   resources := {| cpu := 0; memory := 0; storage := 0;
                                   bandwidth := 0; rs_timestamp := 0 |};
                   earnings := 0; ns_activeTasks := active;
                   ns_completedTasks := done; lastUpdate := 0 |} |}.



(** A task with the wrong validator share reached the engine through a
    regional distribution, and both its nodes have left. *)
Definition failed_unpriced : ValidatorSystem.State :=
  after (ValidatorSystem.removeNode "N2" individual "eu")
    (after (ValidatorSystem.removeNode "N1" individual "eu")
       (after (ValidatorSystem.handleRegionalTaskDistribution
                 wrongShareTask "eu" "R")
              joined)).

Definition failedUnpricedTask : Task :=
  set_status wrongShareTask
    (set_error (set_state (status wrongShareTask) failed)
               (Some "All assigned nodes failed")).


(** The peer object the server built for [G], which joined through
    [handleMessage] at time 0. *)
Definition G1 : ConnectedPeer :=
  SignalingServer.new_peer 0 (sock 1) "G" global_node training "eu" 5000.

(** [B] as tracked by a coordinator, its socket closed since. *)
Definition unreachableB : ConnectedPeer :=
  {| ws := {| wsId := 12; readyOpen := false; sendFails := false |};
     info := info B; joinTime := 0; lastActivity := 0; pstatus := pstatus B |}.


(** A DHT node that holds ["k"] locally and has lost its connection to
    the network. *)
Definition offline_holder : DHTNetwork.State :=
  {| DHTNetwork.nodes := DHTNetwork.nodes isolated;
     DHTNetwork.data := [("k", DHTNetwork.Vnum 7)];
     DHTNetwork.activeConnections := [];
     DHTNetwork.connected := false;
     DHTNetwork.attempts := [];
     DHTNetwork.wire := [] |}.

(** The same routing table with open connections to [a], [b] and [d]. *)
Definition linked : DHTNetwork.State :=
  {| DHTNetwork.nodes := DHTNetwork.nodes isolated;
     DHTNetwork.data := [];
     DHTNetwork.activeConnections :=
       [("a", sock 21); ("b", sock 22); ("d", sock 24)];
     DHTNetwork.connected := true;
     DHTNetwork.attempts := [];
     DHTNetwork.wire := [] |}.

(** [a] answers without a value, [b] and [d] know the key. *)
Definition b_knows : DHTNetwork.Replies :=
  fun id _ =>
    if String.eqb id "a" then Some DHTNetwork.Vundefined
    else if String.eqb id "b" then Some (DHTNetwork.Vstr "v")
    else if String.eqb id "d" then Some (DHTNetwork.Vstr "w")
    else None.

End Scenario.

(* ================================================================== *)
(** * Properties *)

(** ** Facts on insertion-ordered maps *)

Section JsMapFacts.
Context {V : Type}.
Implicit Types (m : JsMap.t V) (k : string) (v : V).

Lemma mget_mset_same m k v : mget (mset m k v) k = Some v.
Proof.
  induction m as [|[k' v'] r IH]; simpl.
  - now rewrite String.eqb_refl.
  - destruct (String.eqb k' k) eqn:E; simpl; rewrite E; auto.
Qed.

Lemma mget_mset_other m k k' v :
  k <> k' -> mget (mset m k v) k' = mget m k'.
Proof.
  intros Hne. induction m as [|[k0 v0] r IH]; simpl.
  - destruct (String.eqb_spec k k'); [contradiction | reflexivity].
  - destruct (String.eqb_spec k0 k) as [->|Hk]; simpl.
    + destruct (String.eqb_spec k k'); [contradiction | reflexivity].
    + destruct (String.eqb_spec k0 k'); auto.
Qed.

Lemma mget_mdelete_same m k : mget (mdelete m k) k = None.
Proof.
  induction m as [|[k0 v0] r IH]; simpl; auto.
  destruct (String.eqb_spec k0 k) as [->|Hk]; simpl; auto.
  destruct (String.eqb_spec k0 k); [contradiction | auto].
Qed.

Lemma mget_mdelete_other m k k' :
  k <> k' -> mget (mdelete m k) k' = mget m k'.
Proof.
  intros Hne. induction m as [|[k0 v0] r IH]; simpl; auto.
  destruct (String.eqb_spec k0 k) as [->|Hk]; simpl.
  - destruct (String.eqb_spec k k'); [contradiction | auto].
  - destruct (String.eqb_spec k0 k'); auto.
Qed.

Lemma mkeys_mset_present m k v :
  mget m k <> None -> mkeys (mset m k v) = mkeys m.
Proof.
  unfold mkeys. induction m as [|[k0 v0] r IH]; simpl; intros H.
  - congruence.
  - destruct (String.eqb_spec k0 k) as [->|Hk]; simpl; auto.
    f_equal. auto.
Qed.

Lemma mkeys_mset_absent m k v :
  mget m k = None -> mkeys (mset m k v) = mkeys m ++ [k].
Proof.
  unfold mkeys. induction m as [|[k0 v0] r IH]; simpl; intros H; auto.
  destruct (String.eqb_spec k0 k) as [->|Hk]; simpl; [congruence|].
  f_equal. auto.
Qed.

Lemma mget_None_keys m k : mget m k = None <-> ~ In k (mkeys m).
Proof.
  induction m as [|[k0 v0] r IH]; simpl.
  - tauto.
  - destruct (String.eqb_spec k0 k) as [->|Hk].
    + split; [congruence | tauto].
    + rewrite IH. tauto.
Qed.

Lemma mget_In m k v : mget m k = Some v -> In (k, v) m.
Proof.
  induction m as [|[k0 v0] r IH]; simpl; [congruence|].
  destruct (String.eqb_spec k0 k) as [->|Hk]; intros H.
  - left. congruence.
  - right. auto.
Qed.

Lemma In_mget m k v :
  NoDup (mkeys m) -> In (k, v) m -> mget m k = Some v.
Proof.
  induction m as [|[k0 v0] r IH]; simpl; [tauto|].
  intros Hnd [Heq|Hin].
  - inversion Heq; subst. now rewrite String.eqb_refl.
  - inversion Hnd as [|? ? Hnotin Hnd']; subst.
    destruct (String.eqb_spec k0 k) as [->|Hk]; auto.
    exfalso. apply Hnotin. change (In k (mkeys r)).
    unfold mkeys. apply in_map_iff. now exists (k, v).
Qed.

Lemma NoDup_mkeys_mset m k v : NoDup (mkeys m) -> NoDup (mkeys (mset m k v)).
Proof.
  intros Hnd. destruct (mget m k) eqn:E.
  - rewrite mkeys_mset_present; congruence.
  - rewrite mkeys_mset_absent by assumption.
    apply NoDup_app; [assumption | repeat constructor; simpl; tauto |].
    intros x Hx [<-|[]]. now apply mget_None_keys in E.
Qed.

End JsMapFacts.

(** ** Running the monad *)

(** A relation between the states before and after each iteration holds
    between the states before and after the loop, also when it throws. *)
Lemma forEach_keeps {S A : Type} (P : S -> S -> Prop) (f : A -> M S unit) :
  (forall s, P s s) ->
  (forall a b c, P a b -> P b c -> P a c) ->
  (forall x s, P s (state_of (f x s))) ->
  forall l s, P s (state_of (forEach l f s)).
Proof.
  intros Hrefl Htrans Hstep.
  induction l as [|x r IH]; intros s; simpl.
  - apply Hrefl.
  - unfold bind. specialize (Hstep x s).
    destruct (f x s) as [[] s1|e s1]; simpl in *.
    + eapply Htrans; [exact Hstep | apply IH].
    + exact Hstep.
Qed.

Ltac run :=
  repeat (unfold bind, gets, modify, ret, throw, try_catch; simpl).

(** ** The acceptance timeout (C5) *)

Section TaskEngineFacts.
Import ValidatorSystem.

Lemma cleanupTask_ok taskId s :
  exists s', cleanupTask taskId s = Ok tt s'
    /\ activeTasks s' = activeTasks s
    /\ mget (taskTimeouts s') taskId = None
    /\ mget (rewardDistributions s') taskId = None
    /\ globalValidators s' = globalValidators s
    /\ regionalValidators s' = regionalValidators s
    /\ individualNodes s' = individualNodes s
    /\ wire s' = wire s.
Proof.
  unfold cleanupTask. run.
  destruct (mget (taskTimeouts s) taskId) eqn:E; simpl;
    eexists; (split; [reflexivity|]); simpl;
    repeat split; auto using mget_mdelete_same.
Qed.

Lemma handleTaskTimeout_pending (s : State) (id : string) (task : Task) :
  mget (activeTasks s) id = Some task ->
  state (status task) = pending ->
  exists s',
    handleTaskTimeout id s = Ok tt s'
    /\ mget (activeTasks s') id = Some (timed_out task)
    /\ (forall k, k <> id -> mget (activeTasks s') k = mget (activeTasks s) k)
    /\ mget (taskTimeouts s') id = None.
Proof.
  intros Hget Hp. unfold handleTaskTimeout. run. rewrite Hget, Hp. simpl.
  destruct (cleanupTask_ok id
              (upd_activeTasks (fun m => mset m id (timed_out task)) s))
    as (s' & Hrun & Htasks & Htimer & _).
  exists s'. unfold timed_out in *. rewrite Hrun.
  split; [reflexivity|]. rewrite Htasks. simpl.
  split; [apply mget_mset_same|].
  split; [|assumption].
  intros k Hk. apply mget_mset_other. congruence.
Qed.

Lemma handleTaskTimeout_not_pending (s : State) (id : string) (task : Task) :
  mget (activeTasks s) id = Some task ->
  state (status task) <> pending ->
  handleTaskTimeout id s = Ok tt s.
Proof.
  intros Hget Hp. unfold handleTaskTimeout. run. rewrite Hget.
  destruct (state (status task)); simpl; try reflexivity. congruence.
Qed.

(** C5. When the acceptance timer of a task fires, the task becomes failed
    with the reason "Task timed out waiting for acceptance" if it is still
    pending (its timer entry is dropped and every other task is untouched),
    and in any other state the whole engine state is left exactly as it
    was. *)
Theorem handleTaskTimeout_only_pending :
  forall (s : State) (id : string) (task : Task),
    mget (activeTasks s) id = Some task ->
    (state (status task) = pending ->
       exists s',
         handleTaskTimeout id s = Ok tt s'
         /\ mget (activeTasks s') id = Some (timed_out task)
         /\ state (status (timed_out task)) = failed
         /\ error (status (timed_out task))
            = Some "Task timed out waiting for acceptance"
         /\ (forall k, k <> id -> mget (activeTasks s') k = mget (activeTasks s) k)
         /\ mget (taskTimeouts s') id = None)
    /\ (state (status task) <> pending -> handleTaskTimeout id s = Ok tt s).
Proof.
  intros s id task Hget. split.
  - intros Hp.
    destruct (handleTaskTimeout_pending s id task Hget Hp)
      as (s' & Hrun & Ht & Hothers & Htimer).
    exists s'. repeat split; auto.
  - now apply handleTaskTimeout_not_pending.
Qed.

Lemma handleTaskTimeout_only_pending_witness :
  (exists s',
      handleTaskTimeout "T" Scenario.broadcast = Ok tt s'
      /\ mget (activeTasks s') "T" = Some (timed_out Scenario.trainTask)
      /\ state (status (timed_out Scenario.trainTask)) = failed
      /\ error (status (timed_out Scenario.trainTask))
         = Some "Task timed out waiting for acceptance"
      /\ (forall k, k <> "T" ->
            mget (activeTasks s') k = mget (activeTasks Scenario.broadcast) k)
      /\ mget (taskTimeouts s') "T" = None)
  /\ handleTaskTimeout "T" Scenario.distributed_accepted
     = Ok tt Scenario.distributed_accepted.
Proof.
  split.
  - apply (handleTaskTimeout_only_pending Scenario.broadcast "T" Scenario.trainTask);
      reflexivity.
  - apply (handleTaskTimeout_only_pending Scenario.distributed_accepted "T"
             Scenario.acceptedTask); [reflexivity | discriminate].
Defined.

Example scenario_broadcast_arms_timer :
  timers Scenario.broadcast = [{| timerId := 0; timerTask := "T"; fireAt := 3600000 |}]
  /\ mget (taskTimeouts Scenario.broadcast) "T" = Some 0%nat
  /\ map fst (wire Scenario.broadcast) = [2%nat].
Proof. repeat split. Qed.

(** The timer of a task that is no longer pending fires without effect on
    the task table. *)
Lemma fireTimer_not_pending (s : State) (h : nat) (t : Timer) (task : Task) :
  find (fun t => Nat.eqb (timerId t) h) (timers s) = Some t ->
  mget (activeTasks s) (timerTask t) = Some task ->
  state (status task) <> pending ->
  fireTimer h s = Ok tt (drop_timer h s).
Proof.
  intros Hfind Hget Hst. unfold fireTimer. run. rewrite Hfind. run.
  now rewrite (handleTaskTimeout_not_pending (drop_timer h s) (timerTask t) task Hget Hst).
Qed.

(** ** Submission of a task outside the policy (C2) *)

Lemma Qlt_bool_iff (a b : Q) : Qlt_bool a b = true <-> (a < b)%Q.
Proof.
  unfold Qlt_bool. rewrite negb_true_iff.
  destruct (Qle_bool b a) eqn:E.
  - apply Qle_bool_iff in E. split; [discriminate|]. intros H.
    exfalso. apply (Qlt_not_le _ _ H E).
  - split; auto. intros _. apply Qnot_le_lt. intros H.
    apply Qle_bool_iff in H. congruence.
Qed.

Lemma Qle_bool_false (a b : Q) : Qle_bool a b = false <-> (b < a)%Q.
Proof.
  rewrite <- Qlt_bool_iff. unfold Qlt_bool.
  destruct (Qle_bool a b); simpl; split; congruence.
Qed.

Lemma tier_includes_In (l : list NodeTier) (x : NodeTier) :
  tier_includes l x = true <-> In x l.
Proof.
  unfold tier_includes. rewrite existsb_exists. split.
  - intros (y & Hin & Heq). destruct x, y; simpl in Heq; congruence.
  - intros Hin. exists x. split; auto. destruct x; reflexivity.
Qed.

Lemma violates_policy_invalid (cfg : Config) (task : Task) :
  violates_policy cfg task <-> validateTaskRequirements cfg task = false.
Proof.
  unfold violates_policy, validateTaskRequirements.
  repeat rewrite andb_false_iff.
  rewrite <- !Qle_bool_false, Z.leb_gt.
  rewrite <- (tier_includes_In (tiers (TASK_TIER_REQUIREMENTS (type task)))),
    <- Qeq_bool_iff.
  rewrite !not_true_iff_false. tauto.
Qed.

(** C2. A task whose declared validator share differs from the policy share
    of its type, or whose minimum tier, total reward, estimated duration or
    maximum node count is outside the policy or the configured bounds, makes
    [broadcastTask] throw "Invalid task requirements" before any mutation:
    the engine state is the one before the call, so no entry is stored in
    the task table and no timer is armed. *)
Theorem broadcastTask_rejects_policy_violation :
  forall (cfg : Config) (now : Z) (task : Task) (source : string) (s : State),
    violates_policy cfg task ->
    broadcastTask cfg now task source s = Throw "Invalid task requirements" s
    /\ activeTasks (state_of (broadcastTask cfg now task source s)) = activeTasks s
    /\ taskTimeouts (state_of (broadcastTask cfg now task source s)) = taskTimeouts s
    /\ timers (state_of (broadcastTask cfg now task source s)) = timers s.
Proof.
  intros cfg now task source s Hv.
  apply violates_policy_invalid in Hv.
  assert (Hrun : broadcastTask cfg now task source s
                 = Throw "Invalid task requirements" s).
  { unfold broadcastTask. rewrite Hv. reflexivity. }
  rewrite Hrun. repeat split.
Qed.

Lemma broadcastTask_rejects_policy_violation_witness :
  broadcastTask envConfig 0 Scenario.wrongShareTask "G" Scenario.joined
  = Throw "Invalid task requirements" Scenario.joined
  /\ activeTasks (state_of (broadcastTask envConfig 0 Scenario.wrongShareTask "G"
                                          Scenario.joined))
     = activeTasks Scenario.joined
  /\ taskTimeouts (state_of (broadcastTask envConfig 0 Scenario.wrongShareTask "G"
                                           Scenario.joined))
     = taskTimeouts Scenario.joined
  /\ timers (state_of (broadcastTask envConfig 0 Scenario.wrongShareTask "G"
                                     Scenario.joined))
     = timers Scenario.joined.
Proof.
  apply (broadcastTask_rejects_policy_violation envConfig 0
           Scenario.wrongShareTask "G" Scenario.joined).
  left. simpl. intros H. vm_compute in H. discriminate.
Defined.

Example scenario_joined_has_no_task :
  mget (activeTasks Scenario.joined) "T" = None
  /\ timers Scenario.joined = [].
Proof. split; reflexivity. Qed.

(** ** Late-completion penalty (C7) *)




Lemma completionReward_le (task : Task) (now : Z) :
  (0 <= perNode (reward task))%Q ->
  (0 <= penaltyRate (reward task))%Q ->
  (0 < estimatedDuration (requirements task))%Q ->
  (completionReward task now <= perNode (reward task))%Q.
Proof.
  intros Hp Hr He. unfold completionReward.
  destruct (elapsed task now) as [d|]; [|lra].
  destruct (Qlt_bool _ _) eqn:E; [|lra].
  apply Qlt_bool_iff in E.
  set (pen := ((d - estimatedDuration (requirements task))
               / estimatedDuration (requirements task)
               * penaltyRate (reward task))%Q).
  assert (Hpen : (0 <= pen)%Q).
  { unfold pen. apply Qmult_le_0_compat; auto.
    apply Qle_shift_div_l; auto. lra. }
  assert (Hmin : (0 <= Qmin pen 1)%Q).
  { apply Q.min_glb; [assumption | lra]. }
  pose proof (Qmult_le_0_compat _ _ Hp Hmin) as Hprod.
  fold pen. lra.
Qed.



(** Thirty seconds late on an estimate of sixty, at penalty rate 1: half of
    the per-node reward is recorded. *)
Example completionReward_half :
  (completionReward Scenario.acceptedTask 90000 == 45)%Q.
Proof. vm_compute. reflexivity. Qed.

End TaskEngineFacts.

(** ** Rejected joins (C6) *)

Section JoinFacts.
Import SignalingServer.

Lemma sendError_registries (ws : ExtendedWebSocket) (e : string)
  (s : SignalingServer.State) :
  exists s',
    sendError ws e s = Ok tt s'
    /\ peers s' = peers s
    /\ regions s' = regions s
    /\ validatorSystem s' = validatorSystem s
    /\ SignalingServer.wire s'
       = SignalingServer.wire s
         ++ (if readyOpen ws && negb (sendFails ws)
             then [(wsId ws, Merror e)] else []).
Proof.
  unfold sendError, sendMessage.
  destruct (readyOpen ws), (sendFails ws); run;
    eexists; (split; [reflexivity|]); simpl;
    repeat split; auto using app_nil_r.
  all: now rewrite app_nil_r.
Qed.

Lemma ineligible_not_validated (cfg : Config) (ty : NodeType) (tier : NodeTier)
  (balance : Q) :
  ineligible cfg ty tier balance ->
  NodeType_eqb ty individual = false
  /\ validateValidatorEligibility cfg tier ty balance = false.
Proof.
  unfold ineligible, validateValidatorEligibility.
  intros [[-> H]|[-> H]]; (split; [reflexivity|]);
    apply andb_false_iff;
    (destruct H as [H|H];
     [left; apply not_true_iff_false; rewrite tier_includes_In; exact H
     |right; now apply Qle_bool_false]).
Qed.

(** C6. A join of a [regional_node] whose tier is not aggregator or
    training or whose balance (0 when absent) is below the regional token
    requirement, or of a [global_node] whose tier is not training or
    feedback or whose balance is below the global token requirement, is
    answered with an error message on the joining socket (written when that
    socket is open and the write succeeds) and changes no registry: the peer
    table, the regions and the validator system are what they were, so a
    peer registered nowhere before is registered nowhere after. *)
Theorem handleJoin_rejects_ineligible_validator :
  forall (cfg : Config) (now : Z) (ws : ExtendedWebSocket)
         (id : option string) (ty : NodeType) (tier : NodeTier)
         (balance : option Q) (reg : option string)
         (s : SignalingServer.State),
    ineligible cfg ty tier (match balance with Some b => b | None => 0%Q end) ->
    exists (e : string) (s' : SignalingServer.State),
      handleJoin cfg now ws (Mjoin id (Some ty) (Some tier) balance reg) s = Ok tt s'
      /\ handleMessage cfg now ws (Mjoin id (Some ty) (Some tier) balance reg) s
         = Ok tt s'
      /\ SignalingServer.wire s'
         = SignalingServer.wire s
           ++ (if readyOpen ws && negb (sendFails ws)
               then [(wsId ws, Merror e)] else [])
      /\ peers s' = peers s
      /\ regions s' = regions s
      /\ validatorSystem s' = validatorSystem s
      /\ (forall p, registered_nowhere p s -> registered_nowhere p s').
Proof.
  intros cfg now ws id ty tier balance reg s Hin.
  destruct (ineligible_not_validated _ _ _ _ Hin) as [Hty Hval].
  assert (Hjoin : exists e,
             handleJoin cfg now ws (Mjoin id (Some ty) (Some tier) balance reg) s
             = sendError ws e s).
  { unfold handleJoin.
    destruct id as [pid|]; [|eexists; reflexivity].
    destruct reg as [r|]; [|eexists; reflexivity].
    destruct (String.eqb pid "" || String.eqb r ""); [eexists; reflexivity|].
    rewrite Hty, Hval. simpl. eexists; reflexivity. }
  destruct Hjoin as (e & Hjoin).
  destruct (sendError_registries ws e s) as (s' & Hrun & Hp & Hr & Hv & Hw).
  exists e, s'. rewrite Hjoin, Hrun.
  split; [reflexivity|].
  split.
  { unfold handleMessage, try_catch. now rewrite Hjoin, Hrun. }
  do 4 (split; [assumption|]).
  intros p Hreg. unfold registered_nowhere in *. rewrite Hp, Hr, Hv. exact Hreg.
Qed.

Lemma handleJoin_rejects_ineligible_validator_witness :
  exists (e : string) (s' : SignalingServer.State),
    handleJoin envConfig 0 (Scenario.sock 7)
      (Mjoin (Some "V") (Some regional_node) (Some aggregator) (Some 500%Q)
             (Some "eu")) SignalingServer.init = Ok tt s'
    /\ handleMessage envConfig 0 (Scenario.sock 7)
         (Mjoin (Some "V") (Some regional_node) (Some aggregator) (Some 500%Q)
                (Some "eu")) SignalingServer.init = Ok tt s'
    /\ SignalingServer.wire s'
       = SignalingServer.wire SignalingServer.init
         ++ (if readyOpen (Scenario.sock 7) && negb (sendFails (Scenario.sock 7))
             then [(wsId (Scenario.sock 7), Merror e)] else [])
    /\ peers s' = peers SignalingServer.init
    /\ regions s' = regions SignalingServer.init
    /\ validatorSystem s' = validatorSystem SignalingServer.init
    /\ (forall p, registered_nowhere p SignalingServer.init ->
                  registered_nowhere p s').
Proof.
  apply (handleJoin_rejects_ineligible_validator envConfig 0 (Scenario.sock 7)
           (Some "V") regional_node aggregator (Some 500%Q) (Some "eu")
           SignalingServer.init).
  left. split; [reflexivity|]. right. reflexivity.
Defined.

(** The scenario of the specification: a regional node joining with a
    balance of 500 gets the eligibility error and the server stays empty,
    while the same node with a balance of 1000 is registered. *)
Example join_with_500_tokens :
  handleJoin envConfig 0 (Scenario.sock 7)
    (Mjoin (Some "V") (Some regional_node) (Some aggregator) (Some 500%Q)
           (Some "eu")) SignalingServer.init
  = Ok tt {| peers := []; regions := [];
             validatorSystem := ValidatorSystem.init;
             SignalingServer.wire :=
               [(7%nat, Merror "Insufficient tier or tokens for validator role")] |}.
Proof. reflexivity. Qed.

Example join_with_1000_tokens :
  mkeys (peers (Scenario.after
                  (handleJoin envConfig 0 (Scenario.sock 7)
                     (Mjoin (Some "V") (Some regional_node) (Some aggregator)
                            (Some 1000%Q) (Some "eu")))
                  SignalingServer.init)) = ["V"].
Proof. reflexivity. Qed.

End JoinFacts.

(** ** Local store and best-effort replication (C8) *)

Section StoreFacts.
Import DHTNetwork.

Lemma replica_attempt (replies : Replies) (node : DHTNode)
  (message : DHTMessageType) (s : DHTNetwork.State) :
  exists s',
    try_catch (sendMessage replies node message ;; ret tt) (fun _ => ret tt) s
    = Ok tt s'
    /\ data s' = data s
    /\ nodes s' = nodes s
    /\ connected s' = connected s
    /\ attempts s' = attempts s ++ [(d_id node, message)].
Proof.
  unfold sendMessage. run.
  destruct (mget (activeConnections s) (d_id node)) as [ws|]; simpl;
    [destruct (readyOpen ws); simpl;
     [destruct (replies (d_id node) message); simpl|]|];
    eexists; (split; [reflexivity|]); simpl; auto.
Qed.

Lemma replication_loop (replies : Replies) (key : string) (value : JsValue)
  (l : list DHTNode) :
  forall s : DHTNetwork.State,
    exists s',
      replicate replies key value l s = Ok tt s'
      /\ data s' = data s
      /\ nodes s' = nodes s
      /\ connected s' = connected s
      /\ attempts s'
         = attempts s ++ map (fun n => (d_id n, Dstore key value)) l.
Proof.
  unfold replicate.
  induction l as [|node r IH]; intros s; simpl.
  - exists s. unfold ret. now rewrite app_nil_r.
  - destruct (replica_attempt replies node (Dstore key value) s)
      as (s1 & Hrun & Hd & Hn & Hc & Ha).
    destruct (IH s1) as (s2 & Hrun2 & Hd2 & Hn2 & Hc2 & Ha2).
    exists s2. unfold bind at 1. rewrite Hrun, Hrun2.
    split; [reflexivity|].
    rewrite Hd2, Hn2, Hc2, Ha2, Hd, Hn, Hc, Ha, <- app_assoc. auto.
Qed.

(** C8. While connected and with a non-negative replication factor [R],
    [store key value] resolves whatever the replicas answer and whichever
    connections are open; [sendMessage] is called for exactly the first [R]
    nodes of the routing table, in order, and for no other node; and a
    [findValue key] that follows returns [value] from the local store
    without asking any peer. *)
Theorem store_is_local_and_best_effort :
  forall (cfg : Config) (replies replies' : Replies) (key : string)
         (value : JsValue) (s : DHTNetwork.State),
    connected s = true ->
    (0 <= replicationFactor cfg)%Z ->
    exists s',
      store cfg replies key value s = Ok tt s'
      /\ attempts s'
         = attempts s
           ++ map (fun n => (d_id n, Dstore key value))
                  (firstn (Z.to_nat (replicationFactor cfg)) (mvalues (nodes s)))
      /\ findValue replies' key s' = Ok value s'.
Proof.
  intros cfg replies replies' key value s Hc HR.
  unfold store. run. rewrite Hc. simpl.
  set (s0 := set_data (fun m => mset m key value) s).
  destruct (replication_loop replies key value (targets cfg s0) s0)
    as (s' & Hrun & Hd & Hn & Hc' & Ha).
  exists s'. rewrite Hrun. split; [reflexivity|]. split.
  - rewrite Ha. unfold targets, slice0.
    destruct (Z.ltb_spec (replicationFactor cfg) 0); [lia|]. reflexivity.
  - unfold findValue. run. rewrite Hc'. simpl. rewrite Hc. simpl.
    rewrite Hd. simpl. now rewrite mget_mset_same.
Qed.

Lemma store_is_local_and_best_effort_witness :
  exists s',
    store envConfig Scenario.silence "k" (Vstr "v") Scenario.isolated = Ok tt s'
    /\ attempts s'
       = attempts Scenario.isolated
         ++ map (fun n => (d_id n, Dstore "k" (Vstr "v")))
                (firstn (Z.to_nat (replicationFactor envConfig))
                        (mvalues (nodes Scenario.isolated)))
    /\ findValue Scenario.silence "k" s' = Ok (Vstr "v") s'.
Proof.
  apply (store_is_local_and_best_effort envConfig Scenario.silence
           Scenario.silence "k" (Vstr "v") Scenario.isolated).
  - reflexivity.
  - simpl. lia.
Defined.

Example store_with_no_reachable_replica :
  map fst (attempts (Scenario.after
                       (store envConfig Scenario.silence "k" (Vstr "v"))
                       Scenario.isolated)) = ["a"; "b"; "c"]
  /\ DHTNetwork.wire (Scenario.after
                        (store envConfig Scenario.silence "k" (Vstr "v"))
                        Scenario.isolated) = [].
Proof. split; reflexivity. Qed.

End StoreFacts.

(** ** A node leaves while it holds assignments (C4) *)

Section NodeFailureFacts.
Import ValidatorSystem.

Lemma includes_In (l : list string) (x : string) :
  includes l x = true <-> In x l.
Proof.
  unfold includes. rewrite existsb_exists. split.
  - intros (y & Hin & Heq). apply String.eqb_eq in Heq. now subst.
  - intros Hin. exists x. split; auto. apply String.eqb_refl.
Qed.

Lemma not_in_filter_neq (l : list string) (x : string) :
  ~ In x (filter (fun id => negb (String.eqb id x)) l).
Proof.
  rewrite filter_In. intros [_ H]. now rewrite String.eqb_refl in H.
Qed.

Lemma handleNodeFailure_table (s : State) (id n : string) (task : Task) :
  mget (activeTasks s) id = Some task ->
  exists s',
    handleNodeFailure id n s = Ok tt s'
    /\ activeTasks s' = mset (activeTasks s) id (without_node n task).
Proof.
  intros Hget. unfold handleNodeFailure. run. rewrite Hget.
  unfold without_node. simpl.
  destruct (Nat.eqb _ 0) eqn:E; simpl.
  - match goal with |- context [cleanupTask id ?s0] =>
      destruct (cleanupTask_ok id s0) as (s' & Hrun & Htasks & _)
    end.
    exists s'. rewrite Hrun. split; [reflexivity|]. now rewrite Htasks.
  - eexists. split; reflexivity.
Qed.

Lemma touch_idempotent (n : string) (task : Task) :
  touch n (touch n task) = touch n task.
Proof.
  destruct (includes (assignedNodes (status task)) n) eqn:E.
  - assert (Ht : touch n task = without_node n task)
      by (unfold touch; now rewrite E).
    rewrite Ht. unfold touch.
    assert (Hout : includes (assignedNodes (status (without_node n task))) n = false).
    { apply not_true_iff_false. rewrite includes_In. unfold without_node.
      destruct (Nat.eqb _ 0); simpl; apply not_in_filter_neq. }
    now rewrite Hout.
  - assert (Ht : touch n task = task) by (unfold touch; now rewrite E).
    now rewrite !Ht.
Qed.

Lemma taskId_touch (n : string) (task : Task) : taskId (touch n task) = taskId task.
Proof.
  unfold touch, without_node.
  destruct (includes _ _); auto. destruct (Nat.eqb _ 0); auto.
Qed.

Lemma failIfAssigned_table (s : State) (n k0 : string) :
  keys_match (activeTasks s) ->
  exists s',
    failIfAssigned n k0 s = Ok tt s'
    /\ keys_match (activeTasks s')
    /\ forall k,
         mget (activeTasks s') k
         = if String.eqb k0 k
           then option_map (touch n) (mget (activeTasks s) k)
           else mget (activeTasks s) k.
Proof.
  intros Hkm. unfold failIfAssigned. unfold bind at 1, gets at 1.
  destruct (mget (activeTasks s) k0) as [task|] eqn:Hget.
  - destruct (includes (assignedNodes (status task)) n) eqn:Hinc.
    + rewrite (Hkm _ _ Hget).
      destruct (handleNodeFailure_table s k0 n task Hget) as (s' & Hrun & Htab).
      exists s'. split; [assumption|].
      assert (Hlook : forall k,
                 mget (activeTasks s') k
                 = if String.eqb k0 k
                   then option_map (touch n) (mget (activeTasks s) k)
                   else mget (activeTasks s) k).
      { intros k. rewrite Htab.
        destruct (String.eqb_spec k0 k) as [<-|Hne].
        - rewrite mget_mset_same, Hget. simpl. unfold touch. now rewrite Hinc.
        - now apply mget_mset_other. }
      split; [|assumption].
      intros k t. rewrite Hlook.
      destruct (String.eqb_spec k0 k) as [<-|Hne]; [|apply Hkm].
      rewrite Hget. simpl. intros [= <-]. rewrite taskId_touch. now apply Hkm.
    + exists s. split; [reflexivity|]. split; [assumption|].
      intros k. destruct (String.eqb_spec k0 k) as [<-|Hne]; auto.
      rewrite Hget. simpl. unfold touch. now rewrite Hinc.
  - exists s. split; [reflexivity|]. split; [assumption|].
    intros k. destruct (String.eqb_spec k0 k) as [<-|Hne]; auto.
    now rewrite Hget.
Qed.

Lemma failIfAssigned_loop (n : string) (ks : list string) :
  forall s : State,
    keys_match (activeTasks s) ->
    exists s',
      forEach ks (failIfAssigned n) s = Ok tt s'
      /\ keys_match (activeTasks s')
      /\ (forall k, In k ks ->
            mget (activeTasks s') k = option_map (touch n) (mget (activeTasks s) k))
      /\ (forall k, ~ In k ks ->
            mget (activeTasks s') k = mget (activeTasks s) k).
Proof.
  induction ks as [|k0 r IH]; intros s Hkm; simpl.
  - exists s. unfold ret. repeat split; auto. intros k [].
  - destruct (failIfAssigned_table s n k0 Hkm) as (s1 & Hrun1 & Hkm1 & Hlook1).
    destruct (IH s1 Hkm1) as (s2 & Hrun2 & Hkm2 & Hin2 & Hout2).
    exists s2. unfold bind. rewrite Hrun1, Hrun2.
    split; [reflexivity|]. split; [assumption|]. split.
    + intros k Hk.
      destruct (in_dec string_dec k r) as [Hr|Hr].
      * rewrite (Hin2 k Hr), Hlook1.
        destruct (String.eqb_spec k0 k); auto.
        destruct (mget (activeTasks s) k); simpl; auto.
        now rewrite touch_idempotent.
      * rewrite (Hout2 k Hr), Hlook1.
        destruct Hk as [->|Hk]; [|contradiction].
        now rewrite String.eqb_refl.
    + intros k Hk.
      assert (Hr : ~ In k r) by tauto.
      rewrite (Hout2 k Hr), Hlook1.
      destruct (String.eqb_spec k0 k); auto. subst. tauto.
Qed.

Lemma removeNode_table (s : State) (n : string) (ty : NodeType) (reg : string) :
  keys_match (activeTasks s) ->
  exists s',
    removeNode n ty reg s = Ok tt s'
    /\ keys_match (activeTasks s')
    /\ forall k,
         mget (activeTasks s') k = option_map (touch n) (mget (activeTasks s) k).
Proof.
  intros Hkm.
  destruct (failIfAssigned_loop n (mkeys (activeTasks s)) s Hkm)
    as (s1 & Hrun & Hkm1 & Hin & Hout).
  assert (Hlook : forall k,
             mget (activeTasks s1) k
             = option_map (touch n) (mget (activeTasks s) k)).
  { intros k. destruct (in_dec string_dec k (mkeys (activeTasks s))) as [Hk|Hk].
    - now apply Hin.
    - rewrite (Hout k Hk). apply mget_None_keys in Hk. now rewrite Hk. }
  unfold removeNode. unfold bind at 1, gets at 1. unfold bind at 1.
  rewrite Hrun.
  destruct ty; unfold modify; eexists; (split; [reflexivity|]); simpl; auto.
Qed.

(** C4. When a node listed in a task's assigned nodes is removed from the
    network, the task loses that node from its assigned and its accepted
    nodes; it becomes failed with the error "All assigned nodes failed" when
    no assigned node is left, and otherwise keeps its state and error (a
    processing task stays processing). *)
Theorem removeNode_updates_assigned_task :
  forall (s : State) (n : string) (ty : NodeType) (reg id : string) (task : Task),
    keys_match (activeTasks s) ->
    mget (activeTasks s) id = Some task ->
    In n (assignedNodes (status task)) ->
    exists (s' : State) (task' : Task),
      removeNode n ty reg s = Ok tt s'
      /\ mget (activeTasks s') id = Some task'
      /\ assignedNodes (status task')
         = filter (fun x => negb (String.eqb x n)) (assignedNodes (status task))
      /\ acceptedNodes (status task')
         = filter (fun x => negb (String.eqb x n)) (acceptedNodes (status task))
      /\ ~ In n (assignedNodes (status task'))
      /\ ~ In n (acceptedNodes (status task'))
      /\ (assignedNodes (status task') = [] ->
            state (status task') = failed
            /\ error (status task') = Some "All assigned nodes failed")
      /\ (assignedNodes (status task') <> [] ->
            state (status task') = state (status task)
            /\ error (status task') = error (status task)).
Proof.
  intros s n ty reg id task Hkm Hget Hin.
  destruct (removeNode_table s n ty reg Hkm) as (s' & Hrun & _ & Hlook).
  exists s', (without_node n task).
  split; [assumption|]. split.
  { rewrite Hlook, Hget. simpl. unfold touch.
    apply includes_In in Hin. now rewrite Hin. }
  unfold without_node.
  destruct (Nat.eqb _ 0) eqn:E; simpl in *.
  - apply Nat.eqb_eq in E. apply length_zero_iff_nil in E.
    do 4 (split; [auto using not_in_filter_neq|]).
    split; [auto|]. intros Hne. contradiction.
  - apply Nat.eqb_neq in E.
    do 4 (split; [auto using not_in_filter_neq|]).
    split; [|auto].
    intros Hnil. rewrite Hnil in E. simpl in E. congruence.
Qed.

Lemma removeNode_updates_assigned_task_witness :
  exists (s' : State) (task' : Task),
    removeNode "N1" individual "eu" Scenario.distributed_accepted = Ok tt s'
    /\ mget (activeTasks s') "T" = Some task'
    /\ assignedNodes (status task')
       = filter (fun x => negb (String.eqb x "N1"))
                (assignedNodes (status Scenario.acceptedTask))
    /\ acceptedNodes (status task')
       = filter (fun x => negb (String.eqb x "N1"))
                (acceptedNodes (status Scenario.acceptedTask))
    /\ ~ In "N1" (assignedNodes (status task'))
    /\ ~ In "N1" (acceptedNodes (status task'))
    /\ (assignedNodes (status task') = [] ->
          state (status task') = failed
          /\ error (status task') = Some "All assigned nodes failed")
    /\ (assignedNodes (status task') <> [] ->
          state (status task') = state (status Scenario.acceptedTask)
          /\ error (status task') = error (status Scenario.acceptedTask)).
Proof.
  apply (removeNode_updates_assigned_task Scenario.distributed_accepted
           "N1" individual "eu" "T" Scenario.acceptedTask).
  - assert (Htab : activeTasks Scenario.distributed_accepted
                   = [("T", Scenario.acceptedTask)]) by reflexivity.
    rewrite Htab. intros k t H. unfold mget in H.
    destruct (String.eqb_spec "T" k) as [<-|_]; [|discriminate].
    injection H as <-. reflexivity.
  - reflexivity.
  - simpl. auto.
Defined.

(** The two cases of the specification: [N1] leaves while [N2] is still
    assigned, then [N2] leaves as well. *)
Example removeNode_other_assignee_remains :
  option_map (fun t => (state (status t), assignedNodes (status t),
                        acceptedNodes (status t), error (status t)))
    (mget (activeTasks
             (Scenario.after (removeNode "N1" individual "eu")
                             Scenario.distributed_accepted)) "T")
  = Some (processing, ["N2"], [], None).
Proof. reflexivity. Qed.

Example removeNode_last_assignee :
  option_map (fun t => (state (status t), assignedNodes (status t),
                        acceptedNodes (status t), error (status t)))
    (mget (activeTasks
             (Scenario.after (removeNode "N2" individual "eu")
                (Scenario.after (removeNode "N1" individual "eu")
                                Scenario.distributed_accepted))) "T")
  = Some (failed, [], [], Some "All assigned nodes failed").
Proof. reflexivity. Qed.

End NodeFailureFacts.

(** ** Settlement: the reward map at finalization (C10, C1) *)

Section SettlementFacts.
Import ValidatorSystem.


Lemma withValidatorShares_NoDup (task : Task) (validators : list ConnectedPeer) :
  forall m : JsMap.t Q,
    NoDup (mkeys m) -> NoDup (mkeys (withValidatorShares task validators m)).
Proof.
  unfold withValidatorShares.
  generalize (total (reward task) * (validatorShare (reward task) / 100)
              / inject_Z (Z.of_nat (length validators)))%Q as c.
  intros c. induction validators as [|v r IH]; intros m Hnd; simpl; auto.
  apply IH. now apply NoDup_mkeys_mset.
Qed.


Lemma forwardMessage_keeps_ledger (p : ConnectedPeer) (msg : SignalingMessage)
  (s : State) :
  rewardDistributions (state_of (forwardMessage p msg s)) = rewardDistributions s
  /\ activeTasks (state_of (forwardMessage p msg s)) = activeTasks s.
Proof.
  unfold forwardMessage.
  destruct (readyOpen (ws p)); [destruct (sendFails (ws p))|]; simpl; auto.
Qed.

Lemma sendRewards_keeps_ledger (id : string) (l : JsMap.t Q) (s : State) :
  rewardDistributions (state_of (sendRewards id l s)) = rewardDistributions s
  /\ activeTasks (state_of (sendRewards id l s)) = activeTasks s.
Proof.
  unfold sendRewards.
  apply (forEach_keeps
           (fun a b : State => rewardDistributions b = rewardDistributions a
                               /\ activeTasks b = activeTasks a)).
  - auto.
  - intros a b c [H1 H2] [H3 H4]. split; congruence.
  - intros [pid amount] s0. unfold bind, gets.
    destruct (findPeer pid s0); [apply forwardMessage_keeps_ledger | simpl; auto].
Qed.

Lemma getTaskValidators_completed (task : Task) (t : Z) (s : State) :
  getTaskValidators
    (set_status task (set_completionTime (set_state (status task) completed) (Some t))) s
  = getTaskValidators task s.
Proof. reflexivity. Qed.

(** The ledger entry of the task in the state [distributeRewards] leaves,
    also when a write on a socket raised. *)
Lemma distributeRewards_ledger (s : State) (key : string) (task : Task) (now : Z)
  (m : JsMap.t Q) :
  mget (rewardDistributions s) (taskId task) = Some m ->
  rewardDistributions (state_of (distributeRewards key task now s))
  = mset (rewardDistributions s) (taskId task)
         (withValidatorShares task (getTaskValidators task s) m).
Proof.
  intros Hm. unfold distributeRewards.
  unfold bind at 1, modify at 1. unfold bind at 1, gets at 1. simpl.
  rewrite Hm. unfold bind at 1, gets at 1. unfold bind at 1, modify at 1.
  match goal with |- context [sendRewards ?i ?l ?s0] =>
    destruct (sendRewards_keeps_ledger i l s0) as [Hl _]
  end.
  etransitivity; [exact Hl|]. reflexivity.
Qed.










(** In that run [R] is owed 90 before finalization; finalization writes 10
    over it, sends 10 to [R] and to [G], and then drops the entry. *)
Example validator_reward_before_finalization :
  (pending_of "R" Scenario.validator_completed == 90)%Q.
Proof. vm_compute. reflexivity. Qed.

Example validator_reward_during_finalization :
  (pending_of "R"
     (state_of (distributeRewards "T" Scenario.validatorTask 1000
                  Scenario.validator_completed)) == 10)%Q.
Proof. vm_compute. reflexivity. Qed.

Example validator_reward_messages :
  map fst (wire (Scenario.after (handleTaskCompletion 1000 "T" "R")
                   (Scenario.after (handleTaskAcceptance 0 "T" "R")
                                   Scenario.distributed)))
  = [2; 3; 4; 2; 1]%nat
  /\ rewardDistributions
       (Scenario.after (handleTaskCompletion 1000 "T" "R")
          (Scenario.after (handleTaskAcceptance 0 "T" "R")
                          Scenario.distributed)) = [].
Proof. split; reflexivity. Qed.

Lemma mset_absent_app {V : Type} (m : JsMap.t V) (k : string) (v : V) :
  mget m k = None -> mset m k v = m ++ [(k, v)].
Proof.
  induction m as [|[k0 v0] r IH]; simpl; auto.
  destruct (String.eqb_spec k0 k); [discriminate|].
  intros H. now rewrite IH.
Qed.

Lemma mget_app_None {V : Type} (a b : JsMap.t V) (k : string) :
  mget a k = None -> mget (a ++ b) k = mget b k.
Proof.
  induction a as [|[k0 v0] r IH]; simpl; auto.
  destruct (String.eqb_spec k0 k); [discriminate | auto].
Qed.

Lemma sum_values_app (a b : JsMap.t Q) :
  (sum_values (a ++ b) == sum_values a + sum_values b)%Q.
Proof.
  induction a as [|[k q] r IH]; simpl; [ring|]. rewrite IH. ring.
Qed.

Lemma withValidatorShares_fresh (task : Task) (validators : list ConnectedPeer)
  (m : JsMap.t Q) :
  NoDup (map (fun v => peerId (info v)) validators) ->
  (forall v, In v validators -> mget m (peerId (info v)) = None) ->
  withValidatorShares task validators m
  = m ++ map (fun v => (peerId (info v), validator_share task (length validators)))
             validators.
Proof.
  unfold withValidatorShares, validator_share.
  generalize (total (reward task) * (validatorShare (reward task) / 100)
              / inject_Z (Z.of_nat (length validators)))%Q as c.
  intros c. revert m.
  induction validators as [|v r IH]; intros m Hnd Hfresh; simpl.
  - now rewrite app_nil_r.
  - inversion Hnd as [|? ? Hnotin Hnd']; subst.
    rewrite (mset_absent_app m) by (apply Hfresh; now left).
    rewrite IH; auto.
    + now rewrite <- app_assoc.
    + intros w Hw. rewrite mget_app_None by (apply Hfresh; now right).
      simpl. destruct (String.eqb_spec (peerId (info v)) (peerId (info w))) as [E|_]; auto.
      exfalso. apply Hnotin. rewrite E.
      apply (in_map (fun v => peerId (info v)) r w Hw).
Qed.

Lemma sum_values_const (l : list ConnectedPeer) (c : Q) :
  (sum_values (map (fun v => (peerId (info v), c)) l)
   == inject_Z (Z.of_nat (length l)) * c)%Q.
Proof.
  induction l as [|v r IH].
  - simpl. ring.
  - change (sum_values (map (fun v => (peerId (info v), c)) (v :: r)))
      with (c + sum_values (map (fun v => (peerId (info v), c)) r))%Q.
    change (length (v :: r)) with (S (length r)).
    rewrite IH, Nat2Z.inj_succ, <- Z.add_1_r, inject_Z_plus. ring.
Qed.

Lemma sum_values_all_eq (m : JsMap.t Q) (p : Q) :
  (forall id a, In (id, a) m -> (a == p)%Q) ->
  (sum_values m == inject_Z (Z.of_nat (msize m)) * p)%Q.
Proof.
  unfold msize. induction m as [|[k q] r IH]; intros H.
  - simpl. ring.
  - change (sum_values ((k, q) :: r)) with (q + sum_values r)%Q.
    assert (H1 : (sum_values r == inject_Z (Z.of_nat (length r)) * p)%Q)
      by (apply IH; intros; eapply H; right; eauto).
    assert (H2 : (q == p)%Q) by (apply (H k); now left).
    change (length ((k, q) :: r)) with (S (length r)).
    rewrite H1, H2, Nat2Z.inj_succ, <- Z.add_1_r, inject_Z_plus. ring.
Qed.

Lemma sum_values_all_le (m : JsMap.t Q) (p : Q) :
  (forall id a, In (id, a) m -> (a <= p)%Q) ->
  (sum_values m <= inject_Z (Z.of_nat (msize m)) * p)%Q.
Proof.
  unfold msize. induction m as [|[k q] r IH]; intros H.
  - assert (E : (inject_Z (Z.of_nat 0) * p == 0)%Q) by (simpl; ring).
    simpl sum_values. simpl length. rewrite E. apply Qle_refl.
  - change (sum_values ((k, q) :: r)) with (q + sum_values r)%Q.
    assert (H1 : (sum_values r <= inject_Z (Z.of_nat (length r)) * p)%Q)
      by (apply IH; intros; eapply H; right; eauto).
    assert (H2 : (q <= p)%Q) by (apply (H k); now left).
    change (length ((k, q) :: r)) with (S (length r)).
    rewrite Nat2Z.inj_succ, <- Z.add_1_r, inject_Z_plus.
    setoid_replace ((inject_Z (Z.of_nat (length r)) + inject_Z 1) * p)%Q
      with (inject_Z (Z.of_nat (length r)) * p + p)%Q by ring.
    lra.
Qed.

Lemma inject_nat_nonzero (n : nat) :
  (0 < n)%nat -> ~ (inject_Z (Z.of_nat n) == 0)%Q.
Proof.
  intros Hn H. unfold Qeq in H. simpl in H. lia.
Qed.

Lemma entry_sum_after_distribution (s : State) (key : string) (task : Task)
  (now : Z) (taskRewards : JsMap.t Q) :
  mget (rewardDistributions s) (taskId task) = Some taskRewards ->
  getTaskValidators task s <> [] ->
  NoDup (map (fun v => peerId (info v)) (getTaskValidators task s)) ->
  (forall v, In v (getTaskValidators task s) ->
             mget taskRewards (peerId (info v)) = None) ->
  (entry_sum (taskId task) (state_of (distributeRewards key task now s))
   == sum_values taskRewards + validator_pool task)%Q.
Proof.
  intros Hm Hne Hnd Hfresh. unfold entry_sum.
  rewrite (distributeRewards_ledger s key task now taskRewards Hm), mget_mset_same.
  rewrite withValidatorShares_fresh by assumption.
  rewrite sum_values_app, sum_values_const.
  unfold validator_share, validator_pool.
  assert (Hlen : (0 < length (getTaskValidators task s))%nat).
  { destruct (getTaskValidators task s); [congruence | simpl; lia]. }
  pose proof (inject_nat_nonzero _ Hlen). field. assumption.
Qed.

(** C1, as the code has it. At finalization, when the reward map of the task
    holds a reward for [n >= 1] nodes, the stored per-node reward equals
    [total * (1 - validatorShare / 100) / n], at least one validator of the
    task is found, the validators have distinct ids and none of them has a
    node reward in the map, then the rewards the map holds once the
    validator shares are written sum to [total] if every node reward is the
    per-node reward (all reports on time), and to at most [total] if
    penalties lowered some of them. *)
Theorem settlement_sums_to_total :
  forall (s : State) (key : string) (task : Task) (now : Z)
         (taskRewards : JsMap.t Q),
    mget (rewardDistributions s) (taskId task) = Some taskRewards ->
    (0 < msize taskRewards)%nat ->
    getTaskValidators task s <> [] ->
    NoDup (map (fun v => peerId (info v)) (getTaskValidators task s)) ->
    (forall v, In v (getTaskValidators task s) ->
               mget taskRewards (peerId (info v)) = None) ->
    (perNode (reward task) == calculateNodeReward task (msize taskRewards))%Q ->
    let s' := state_of (distributeRewards key task now s) in
    ((forall id a, In (id, a) taskRewards -> (a == perNode (reward task))%Q) ->
     (entry_sum (taskId task) s' == total (reward task))%Q)
    /\ ((forall id a, In (id, a) taskRewards -> (a <= perNode (reward task))%Q) ->
        (entry_sum (taskId task) s' <= total (reward task))%Q).
Proof.
  intros s key task now taskRewards Hm Hn Hne Hnd Hfresh Hper s'.
  pose proof (entry_sum_after_distribution s key task now taskRewards
                Hm Hne Hnd Hfresh) as Hsum.
  fold s' in Hsum.
  pose proof (inject_nat_nonzero _ Hn) as Hnz.
  assert (Hnodes : (inject_Z (Z.of_nat (msize taskRewards)) * perNode (reward task)
                    + validator_pool task == total (reward task))%Q).
  { rewrite Hper. unfold calculateNodeReward, validator_pool. field. assumption. }
  split; intros Hall; rewrite Hsum.
  - rewrite (sum_values_all_eq _ _ Hall). exact Hnodes.
  - pose proof (sum_values_all_le _ _ Hall). lra.
Qed.

Lemma settlement_sums_to_total_witness :
  ((forall id a, In (id, a) [("N1", 90%Q); ("N2", 90%Q)] ->
                 (a == perNode (reward Scenario.bothTask))%Q) ->
   (entry_sum "T" (state_of (distributeRewards "T" Scenario.bothTask 2000
                                Scenario.both_completed))
    == total (reward Scenario.bothTask))%Q)
  /\ ((forall id a, In (id, a) [("N1", 90%Q); ("N2", 90%Q)] ->
                    (a <= perNode (reward Scenario.bothTask))%Q) ->
      (entry_sum "T" (state_of (distributeRewards "T" Scenario.bothTask 2000
                                   Scenario.both_completed))
       <= total (reward Scenario.bothTask))%Q).
Proof.
  apply (settlement_sums_to_total Scenario.both_completed "T" Scenario.bothTask
           2000 [("N1", 90%Q); ("N2", 90%Q)]).
  - reflexivity.
  - simpl. lia.
  - discriminate.
  - repeat constructor; simpl; intuition discriminate.
  - intros v [<-|[<-|[]]]; reflexivity.
  - reflexivity.
Defined.

(** The scenario of the specification: both nodes report on time, each has
    90 recorded, [G] and [R] get 10 each, 200 in all. *)
Example both_nodes_on_time :
  (entry_sum "T" (state_of (distributeRewards "T" Scenario.bothTask 2000
                              Scenario.both_completed)) == 200)%Q
  /\ (validator_share Scenario.bothTask 2 == 10)%Q
  /\ (calculateNodeReward Scenario.trainTask 2 == 90)%Q.
Proof. repeat split; vm_compute; reflexivity. Qed.

(** C1 fails as stated: the per-node reward is fixed when the task is
    distributed, over the nodes that are eligible, and is not recomputed
    over the nodes that accept. Here two nodes are assigned at 90 each, only
    [N1] accepts, it reports on time and the task is finalized: the node
    rewards (90) and the validator pool (20) make 110, not 200, and no
    penalty was applied. *)
Lemma rewards_short_of_total_counterexample :
  option_map (fun t => (state (status t), acceptedNodes (status t)))
    (mget (activeTasks (Scenario.after (handleTaskCompletion 1000 "T" "N1")
                                       Scenario.distributed_accepted)) "T")
  = Some (completed, ["N1"])
  /\ completionReward Scenario.acceptedTask 1000
     = perNode (reward Scenario.acceptedTask)
  /\ (entry_sum "T" Scenario.one_completed == 90)%Q
  /\ (validator_pool Scenario.acceptedTask == 20)%Q
  /\ (entry_sum "T" (state_of (distributeRewards "T" Scenario.acceptedTask 1000
                                 Scenario.one_completed)) == 110)%Q
  /\ ~ (entry_sum "T" Scenario.one_completed
        + validator_pool Scenario.acceptedTask
        == total (reward Scenario.acceptedTask))%Q.
Proof.
  repeat split; try (vm_compute; reflexivity).
  vm_compute. discriminate.
Qed.

End SettlementFacts.

(** ** Failover of a global validator (C3) *)

Section FailoverFacts.
Import GlobalNodeCoordinator.

Lemma broadcast_loop (message : SignalingMessage) (targets : list ConnectedPeer) :
  forall s : State,
    exists s' tail,
      forEach targets (fun node =>
        try_catch (forwardMessage node message) (fun _ => ret tt)) s = Ok tt s'
      /\ same_tables s s'
      /\ wire s' = wire s ++ tail
      /\ Forall (fun m => snd m = message) tail.
Proof.
  induction targets as [|node r IH]; intros s; simpl.
  - exists s, []. unfold ret, same_tables. rewrite app_nil_r. auto 10.
  - unfold bind at 1, try_catch at 1, forwardMessage at 1.
    destruct (readyOpen (ws node)); simpl;
      [destruct (sendFails (ws node)); simpl|].
    + apply IH.
    + destruct (IH (emit (wsId (ws node), message) s))
        as (s' & tail & Hrun & Hsame & Hw & Hall).
      exists s', ((wsId (ws node), message) :: tail).
      split; [exact Hrun|]. split; [exact Hsame|]. split.
      * rewrite Hw. simpl. now rewrite <- app_assoc.
      * constructor; auto.
    + apply IH.
Qed.

Lemma broadcastToGlobalNodes_ok (message : SignalingMessage) (s : State) :
  exists s' tail,
    broadcastToGlobalNodes message s = Ok tt s'
    /\ same_tables s s'
    /\ wire s' = wire s ++ tail
    /\ Forall (fun m => snd m = message) tail.
Proof.
  unfold broadcastToGlobalNodes. unfold bind at 1, gets at 1.
  apply broadcast_loop.
Qed.










End FailoverFacts.

(** ** Accepted nodes among assigned nodes (C9) *)

Section ContainmentFacts.
Import ValidatorSystem.

Lemma handleTaskAcceptance_table (s : State) (now : Z) (id peer : string)
  (task : Task) :
  mget (activeTasks s) id = Some task ->
  exists s',
    handleTaskAcceptance now id peer s = Ok tt s'
    /\ activeTasks s' = mset (activeTasks s) id (accepted_by now peer task).
Proof.
  intros Hget. unfold handleTaskAcceptance. run. rewrite Hget. simpl.
  destruct (mhas (rewardDistributions s) id); simpl;
    eexists; split; reflexivity.
Qed.

Lemma containment_mset (s s' : State) (id : string) (task : Task) :
  containment s ->
  activeTasks s' = mset (activeTasks s) id task ->
  contained task ->
  containment s'.
Proof.
  intros Hc Htab Ht k t. rewrite Htab.
  destruct (String.eqb_spec id k) as [<-|Hne].
  - rewrite mget_mset_same. intros [= <-]. exact Ht.
  - rewrite mget_mset_other by assumption. apply Hc.
Qed.

(** An acceptance by a node that is assigned to the task keeps the
    containment. *)
Lemma handleTaskAcceptance_assigned_keeps (s : State) (now : Z)
  (id peer : string) (task : Task) :
  containment s ->
  mget (activeTasks s) id = Some task ->
  In peer (assignedNodes (status task)) ->
  containment (state_of (handleTaskAcceptance now id peer s)).
Proof.
  intros Hc Hget Hin.
  destruct (handleTaskAcceptance_table s now id peer task Hget) as (s' & Hrun & Htab).
  rewrite Hrun. simpl. apply (containment_mset s s' id _ Hc Htab).
  unfold contained, accepted_by.
  assert (Hbase : incl (acceptedNodes (status task) ++ [peer])
                       (assignedNodes (status task))).
  { apply incl_app; [apply (Hc id task Hget)|].
    intros x [<-|[]]. exact Hin. }
  simpl. destruct (startTime (status task)); simpl; exact Hbase.
Qed.

Lemma handleTaskTimeout_keeps (s : State) (id : string) :
  containment s -> containment (state_of (handleTaskTimeout id s)).
Proof.
  intros Hc. destruct (mget (activeTasks s) id) as [task|] eqn:Hget.
  - destruct (TaskState_eqb (state (status task)) pending) eqn:Hp.
    + assert (Hpend : state (status task) = pending)
        by (destruct (state (status task)); simpl in Hp; congruence).
      destruct (handleTaskTimeout_pending s id task Hget Hpend)
        as (s' & Hrun & Hat & Hothers & _).
      rewrite Hrun. simpl. intros k t.
      destruct (String.eqb_spec id k) as [<-|Hne].
      * rewrite Hat. intros [= <-]. apply (Hc id task Hget).
      * rewrite Hothers by congruence. apply Hc.
    + assert (Hnp : state (status task) <> pending)
        by (intros E; rewrite E in Hp; discriminate).
      now rewrite (handleTaskTimeout_not_pending s id task Hget Hnp).
  - unfold handleTaskTimeout. run. now rewrite Hget.
Qed.

Lemma contained_touch (n : string) (task : Task) :
  contained task -> contained (touch n task).
Proof.
  unfold contained, touch, without_node. intros Hc.
  destruct (includes _ _); auto.
  destruct (Nat.eqb _ 0); simpl; intros x Hx;
    apply filter_In in Hx; apply filter_In; destruct Hx; auto.
Qed.

Lemma removeNode_keeps (s : State) (n : string) (ty : NodeType) (reg : string) :
  keys_match (activeTasks s) ->
  containment s ->
  containment (state_of (removeNode n ty reg s)).
Proof.
  intros Hkm Hc.
  destruct (removeNode_table s n ty reg Hkm) as (s' & Hrun & _ & Hlook).
  rewrite Hrun. simpl. intros k t. rewrite Hlook.
  destruct (mget (activeTasks s) k) as [t0|] eqn:Hget; simpl; [|discriminate].
  intros [= <-]. apply contained_touch. apply (Hc k t0 Hget).
Qed.

(** C9. The containment is broken by [handleTaskAcceptance], which appends
    the sender to the accepted nodes without looking at the assigned nodes.
    Run on the signaling server: [G] joins and broadcasts the task, then a
    [task_accepted] for it arrives with the id of a peer [X] that is not
    assigned (nor registered). The task is then processing with accepted
    nodes [X] and no assigned node, while [updateTaskProgress] refuses the
    same peer on the same task as not assigned. *)
Theorem acceptance_breaks_containment :
  containment (SignalingServer.validatorSystem Scenario.server_broadcast)
  /\ option_map (fun t => (state (status t), assignedNodes (status t),
                           acceptedNodes (status t)))
       (mget (activeTasks (SignalingServer.validatorSystem Scenario.server_intruded))
             "T")
     = Some (processing, [], ["X"])
  /\ ~ containment (SignalingServer.validatorSystem Scenario.server_intruded)
  /\ threw (updateTaskProgress_guard "T" "X"
              (SignalingServer.validatorSystem Scenario.server_broadcast))
     = Some "Node not assigned to task".
Proof.
  split; [|split; [reflexivity | split; [|reflexivity]]].
  - intros k t H.
    assert (Htab : activeTasks (SignalingServer.validatorSystem Scenario.server_broadcast)
                   = [("T", Scenario.trainTask)]) by reflexivity.
    rewrite Htab in H. unfold mget in H.
    destruct (String.eqb "T" k); [|discriminate].
    injection H as <-. intros x [].
  - intros Hc.
    assert (Hget : mget (activeTasks (SignalingServer.validatorSystem
                                        Scenario.server_intruded)) "T"
                   = Some (accepted_by 2 "X" Scenario.trainTask)) by reflexivity.
    apply (Hc _ _ Hget "X"). simpl. auto.
Qed.

End ContainmentFacts.

(** ** The tables of reachable engine states are well formed *)

Section PreservationRules.
Context {S : Type} (P : S -> Prop).

Lemma preserves_ret {A : Type} (a : A) : preserves P (ret a).
Proof. intros s H. exact H. Qed.

Lemma preserves_throw {A : Type} (e : string) : preserves P (@throw S A e).
Proof. intros s H. exact H. Qed.

Lemma preserves_modify (f : S -> S) :
  (forall s, P s -> P (f s)) -> preserves P (modify f).
Proof. intros Hf s H. simpl. auto. Qed.

Lemma preserves_bind {A B : Type} (m : M S A) (k : A -> M S B) :
  preserves P m -> (forall a, preserves P (k a)) -> preserves P (bind m k).
Proof.
  intros Hm Hk s H. unfold bind. specialize (Hm s H).
  destruct (m s) as [a s1|e s1]; simpl in *; auto. now apply Hk.
Qed.

Lemma preserves_gets_bind {A B : Type} (f : S -> A) (k : A -> M S B) :
  (forall s, P s -> P (state_of (k (f s) s))) -> preserves P (bind (gets f) k).
Proof. intros Hk s H. unfold bind, gets. now apply Hk. Qed.

Lemma preserves_forEach {A : Type} (l : list A) (f : A -> M S unit) :
  (forall x, preserves P (f x)) -> preserves P (forEach l f).
Proof.
  intros Hf. induction l as [|x r IH]; simpl.
  - apply preserves_ret.
  - apply preserves_bind; auto.
Qed.

End PreservationRules.

Section TablesFacts.
Import ValidatorSystem.

Lemma In_mset {V : Type} (m : JsMap.t V) (k k' : string) (v v' : V) :
  In (k', v') (mset m k v) -> (k' = k /\ v' = v) \/ In (k', v') m.
Proof.
  induction m as [|[k0 v0] r IH]; simpl.
  - intros [H|[]]. left. split; congruence.
  - destruct (String.eqb_spec k0 k) as [->|Hne]; simpl.
    + intros [H|H]; [left; split; congruence | right; right; exact H].
    + intros [H|H]; [right; left; exact H|].
      destruct (IH H); [left | right; right]; assumption.
Qed.

Lemma NoDup_mkeys_filter {V : Type} (f : string * V -> bool) (m : JsMap.t V) :
  NoDup (mkeys m) -> NoDup (mkeys (filter f m)).
Proof.
  unfold mkeys. induction m as [|[k0 v0] r IH]; simpl; auto.
  intros Hnd. inversion Hnd as [|? ? Hnotin Hnd']; subst.
  destruct (f (k0, v0)); simpl; auto.
  constructor; auto. intros Hin. apply Hnotin.
  apply in_map_iff in Hin. destruct Hin as (x & Hx & Hf).
  apply filter_In in Hf. apply in_map_iff. exists x. tauto.
Qed.

Lemma wf_same (s s' : State) :
  activeTasks s' = activeTasks s ->
  rewardDistributions s' = rewardDistributions s ->
  tables_wf s -> tables_wf s'.
Proof. unfold tables_wf. intros -> ->. auto. Qed.

Lemma wf_store_task (s : State) (k : string) (t : Task) :
  tables_wf s -> taskId t = k ->
  tables_wf (upd_activeTasks (fun m => mset m k t) s).
Proof.
  intros (Hnd & Hkeys & Hl) Hid. unfold tables_wf. simpl.
  split; [now apply NoDup_mkeys_mset|]. split; [|assumption].
  intros k' t' Hin. apply In_mset in Hin.
  destruct Hin as [[-> ->]|Hin]; auto.
Qed.

Lemma wf_store_entry (s : State) (k : string) (m : JsMap.t Q) :
  tables_wf s -> NoDup (mkeys m) ->
  tables_wf (upd_rewardDistributions (fun l => mset l k m) s).
Proof.
  intros (Hnd & Hkeys & Hl1 & Hl2) Hm. unfold tables_wf, ledger_wf. simpl.
  repeat split; auto using NoDup_mkeys_mset.
  intros k' m' Hin. apply In_mset in Hin.
  destruct Hin as [[-> ->]|Hin]; eauto.
Qed.

Lemma wf_delete_entry (s : State) (k : string) :
  tables_wf s -> tables_wf (upd_rewardDistributions (fun l => mdelete l k) s).
Proof.
  intros (Hnd & Hkeys & Hl1 & Hl2). unfold tables_wf, ledger_wf. simpl.
  repeat split; auto.
  - now apply NoDup_mkeys_filter.
  - intros k' m' Hin. apply filter_In in Hin. destruct Hin. eauto.
Qed.

Lemma wf_task_key (s : State) (k : string) (t : Task) :
  tables_wf s -> mget (activeTasks s) k = Some t -> taskId t = k.
Proof. intros (_ & Hkeys & _) Hget. apply Hkeys. now apply mget_In. Qed.

Lemma wf_entry_NoDup (s : State) (k : string) (m : JsMap.t Q) :
  tables_wf s -> mget (rewardDistributions s) k = Some m -> NoDup (mkeys m).
Proof. intros (_ & _ & _ & Hin) Hget. apply (Hin k). now apply mget_In. Qed.

Lemma wf_forwardMessage (p : ConnectedPeer) (m : SignalingMessage) :
  preserves tables_wf (forwardMessage p m).
Proof.
  intros s H. unfold forwardMessage.
  destruct (readyOpen (ws p)); [destruct (sendFails (ws p))|]; simpl; auto.
Qed.

Lemma wf_cleanupTask (id : string) : preserves tables_wf (cleanupTask id).
Proof.
  unfold cleanupTask. apply preserves_gets_bind. intros s H.
  apply preserves_bind; auto.
  - destruct (mget (taskTimeouts s) id).
    + apply preserves_modify. intros s0. apply wf_same; reflexivity.
    + apply preserves_ret.
  - intros _. apply preserves_modify. intros s0. apply wf_delete_entry.
Qed.

Lemma wf_handleNodeFailure (id n : string) :
  preserves tables_wf (handleNodeFailure id n).
Proof.
  unfold handleNodeFailure. apply preserves_gets_bind. intros s H.
  destruct (mget (activeTasks s) id) as [task|] eqn:Hget; [|exact H].
  pose proof (wf_task_key s id task H Hget) as Hid.
  destruct (Nat.eqb _ 0).
  - apply preserves_bind; auto.
    + apply preserves_modify. intros s0 H0. now apply wf_store_task.
    + intros _. apply wf_cleanupTask.
  - apply preserves_modify; auto. intros s0 H0. now apply wf_store_task.
Qed.

Lemma wf_addNode (peer : ConnectedPeer) : preserves tables_wf (addNode peer).
Proof.
  unfold addNode.
  repeat (apply preserves_bind; [|intros _]);
    try (apply preserves_modify; intros s0; apply wf_same; reflexivity).
  destruct (nodeType (info peer));
    apply preserves_modify; intros s0; apply wf_same; reflexivity.
Qed.

Lemma wf_removeNode (id : string) (ty : NodeType) (reg : string) :
  preserves tables_wf (removeNode id ty reg).
Proof.
  unfold removeNode. apply preserves_gets_bind. intros s H.
  apply preserves_bind; auto.
  - apply preserves_forEach. intros k. unfold failIfAssigned.
    apply preserves_gets_bind. intros s0 H0.
    destruct (mget (activeTasks s0) k) as [task|]; [|exact H0].
    destruct (includes _ _); [|exact H0].
    now apply wf_handleNodeFailure.
  - intros _. destruct ty;
      apply preserves_modify; intros s0; apply wf_same; reflexivity.
Qed.

Lemma wf_broadcastTask (cfg : Config) (now : Z) (task : Task) (source : string) :
  preserves tables_wf (broadcastTask cfg now task source).
Proof.
  unfold broadcastTask.
  destruct (negb (validateTaskRequirements cfg task)); [apply preserves_throw|].
  apply preserves_bind.
  { apply preserves_modify. intros s0 H0. now apply wf_store_task. }
  intros _. apply preserves_bind.
  { unfold setupTaskTimeout. apply preserves_modify.
    intros s0. apply wf_same; reflexivity. }
  intros _. apply preserves_gets_bind. intros s H.
  apply preserves_forEach; auto. intros [reg validators].
  destruct (Nat.eqb _ 0); [apply preserves_ret|].
  destruct (selectRegionalValidator _);
    [apply wf_forwardMessage | apply preserves_ret].
Qed.

Lemma wf_distribution (task : Task) (reg source : string) :
  preserves tables_wf (handleRegionalTaskDistribution task reg source).
Proof.
  unfold handleRegionalTaskDistribution. apply preserves_gets_bind. intros s H.
  destruct (mget (individualNodes s) reg) as [nodes|]; [|exact H].
  destruct (Nat.eqb _ 0); [exact H|].
  apply preserves_bind; auto.
  - apply preserves_forEach. intros node. apply wf_forwardMessage.
  - intros _. apply preserves_modify. intros s0 H0. now apply wf_store_task.
Qed.

Lemma wf_acceptance (now : Z) (id peer : string) :
  preserves tables_wf (handleTaskAcceptance now id peer).
Proof.
  unfold handleTaskAcceptance. apply preserves_gets_bind. intros s H.
  destruct (mget (activeTasks s) id) as [task|] eqn:Hget; [|exact H].
  pose proof (wf_task_key s id task H Hget) as Hid.
  apply preserves_bind; auto.
  - apply preserves_modify. intros s0 H0. now apply wf_store_task.
  - intros _. apply preserves_gets_bind. intros s0 H0.
    destruct (mhas (rewardDistributions s0) id); [exact H0|].
    apply preserves_modify; auto. intros s1 H1.
    apply wf_store_entry; [assumption | constructor].
Qed.

Lemma wf_sendRewards (id : string) (l : JsMap.t Q) :
  preserves tables_wf (sendRewards id l).
Proof.
  unfold sendRewards. apply preserves_forEach. intros [pid amount].
  apply preserves_gets_bind. intros s H.
  destruct (findPeer pid s); [now apply wf_forwardMessage | exact H].
Qed.

Lemma wf_finalizeTask (key : string) (task : Task) (now : Z) :
  taskId task = key -> preserves tables_wf (finalizeTask key task now).
Proof.
  intros Hid. unfold finalizeTask. apply preserves_bind.
  - unfold distributeRewards. apply preserves_bind.
    { apply preserves_modify. intros s0 H0. now apply wf_store_task. }
    intros _. apply preserves_gets_bind. intros s H.
    match goal with |- context [match ?o with Some _ => _ | None => _ end] =>
      destruct o as [taskRewards|] eqn:Hledger end; [|exact H].
    assert (Hnd : NoDup (mkeys taskRewards)) by (eapply wf_entry_NoDup; eauto).
    apply preserves_gets_bind; [|exact H]. intros s0 H0.
    apply preserves_bind; [| |exact H0].
    + apply preserves_modify. intros s1 H1. apply wf_store_entry; auto.
      now apply withValidatorShares_NoDup.
    + intros _. apply wf_sendRewards.
  - intros _. apply wf_cleanupTask.
Qed.

Lemma wf_completion (now : Z) (id peer : string) :
  preserves tables_wf (handleTaskCompletion now id peer).
Proof.
  intros s H. unfold handleTaskCompletion, recordCompletion.
  unfold bind at 1. unfold bind at 1, gets at 1.
  destruct (mget (activeTasks s) id) as [task|] eqn:Hget; [|exact H].
  pose proof (wf_task_key s id task H Hget) as Hid.
  unfold bind at 1, gets at 1.
  destruct (mget (rewardDistributions s) id) as [taskRewards|] eqn:Hledger;
    [|exact H].
  pose proof (wf_entry_NoDup s id taskRewards H Hledger) as Hnd.
  unfold bind at 1, modify at 1, ret at 1.
  assert (H1 : tables_wf
                 (upd_rewardDistributions
                    (fun m => mset m id
                       (mset taskRewards peer (completionReward task now))) s)).
  { apply wf_store_entry; auto. now apply NoDup_mkeys_mset. }
  destruct (Nat.eqb _ _); [|exact H1].
  now apply wf_finalizeTask.
Qed.

Lemma wf_retryTask (cfg : Config) (now : Z) (id : string) :
  preserves tables_wf (retryTask cfg now id).
Proof.
  unfold retryTask. apply preserves_gets_bind. intros s H.
  destruct (mget (activeTasks s) id) as [task|] eqn:Hget; [|exact H].
  pose proof (wf_task_key s id task H Hget) as Hid.
  destruct (negb _); [exact H|].
  apply preserves_bind; auto.
  - apply preserves_modify. intros s0 H0. now apply wf_store_task.
  - intros _. apply preserves_bind.
    + apply wf_broadcastTask.
    + intros _. apply preserves_ret.
Qed.

Lemma wf_handleTaskTimeout (id : string) :
  preserves tables_wf (handleTaskTimeout id).
Proof.
  unfold handleTaskTimeout. apply preserves_gets_bind. intros s H.
  destruct (mget (activeTasks s) id) as [task|] eqn:Hget; [|exact H].
  pose proof (wf_task_key s id task H Hget) as Hid.
  destruct (negb _); [exact H|].
  apply preserves_bind; auto.
  - apply preserves_modify. intros s0 H0. now apply wf_store_task.
  - intros _. apply wf_cleanupTask.
Qed.

Lemma wf_fireTimer (h : nat) : preserves tables_wf (fireTimer h).
Proof.
  unfold fireTimer. apply preserves_gets_bind. intros s H.
  destruct (find _ (timers s)); [|exact H].
  apply preserves_bind; auto.
  - apply preserves_modify. intros s0. apply wf_same; reflexivity.
  - intros _. apply wf_handleTaskTimeout.
Qed.

Lemma wf_taskCleanup (cfg : Config) (now : Z) :
  preserves tables_wf (taskCleanup cfg now).
Proof.
  unfold taskCleanup. apply preserves_modify.
  intros s (Hnd & Hkeys & Hl). unfold tables_wf. simpl.
  split; [now apply NoDup_mkeys_filter|]. split; [|assumption].
  intros k t Hin. apply filter_In in Hin. destruct Hin. auto.
Qed.

(** Every reachable state of the task engine has well-formed tables: in
    particular its task table is keyed by task id. *)
Lemma reachable_tables_wf (cfg : Config) (s : State) :
  reachable cfg s -> tables_wf s.
Proof.
  induction 1 as [|s c Hr IH].
  - unfold tables_wf, ledger_wf. simpl. repeat split; try constructor.
    all: intros ? ? [].
  - destruct c; simpl.
    + now apply wf_addNode.
    + now apply wf_removeNode.
    + now apply wf_broadcastTask.
    + now apply wf_distribution.
    + now apply wf_acceptance.
    + now apply wf_completion.
    + now apply wf_retryTask.
    + now apply wf_fireTimer.
    + now apply wf_taskCleanup.
Qed.

Lemma reachable_keys_match (cfg : Config) (s : State) :
  reachable cfg s -> keys_match (activeTasks s).
Proof.
  intros Hr k t Hget. eapply wf_task_key; eauto using reachable_tables_wf.
Qed.

Lemma reachable_ledger_wf (cfg : Config) (s : State) :
  reachable cfg s -> ledger_wf (rewardDistributions s).
Proof. intros Hr. now destruct (reachable_tables_wf cfg s Hr) as (_ & _ & H). Qed.

(** The state in which the unassigned peer's acceptance is recorded is a
    reachable state of the engine. *)
Example intrusion_is_reachable :
  reachable envConfig
    (Scenario.after (handleTaskAcceptance 2 "T" "X")
       (Scenario.after (broadcastTask envConfig 1 Scenario.trainTask "G")
          (Scenario.after (addNode Scenario.G) init)))
  /\ ~ containment
         (Scenario.after (handleTaskAcceptance 2 "T" "X")
            (Scenario.after (broadcastTask envConfig 1 Scenario.trainTask "G")
               (Scenario.after (addNode Scenario.G) init))).
Proof.
  split.
  - apply (reach_step envConfig _ (CacceptTask 2 "T" "X")).
    apply (reach_step envConfig _ (CbroadcastTask 1 Scenario.trainTask "G")).
    apply (reach_step envConfig _ (CaddNode Scenario.G)).
    apply reach_init.
  - intros Hc.
    assert (Hget : mget (activeTasks
                     (Scenario.after (handleTaskAcceptance 2 "T" "X")
                        (Scenario.after (broadcastTask envConfig 1 Scenario.trainTask "G")
                           (Scenario.after (addNode Scenario.G) init)))) "T"
                   = Some (accepted_by 2 "X" Scenario.trainTask)) by reflexivity.
    apply (Hc _ _ Hget "X"). simpl. auto.
Qed.

End TablesFacts.

(** ** Invariants of the task engine over its calls *)

Section EngineInvariants.
Import ValidatorSystem.

(** X1. In every state the task engine reaches from its initial state by
    its calls, whether they return or throw, every task of the active table
    is stored under its own task id, and no key occurs twice in the task
    table, in the reward ledger or in a reward map of the ledger. *)
Theorem reachable_tables_keyed_by_task_id :
  forall (cfg : Config) (s : State),
    reachable cfg s ->
    keys_match (activeTasks s)
    /\ NoDup (mkeys (activeTasks s))
    /\ ledger_wf (rewardDistributions s).
Proof.
  intros cfg s Hr.
  pose proof (reachable_tables_wf cfg s Hr) as (Hnd & Hkeys & Hl).
  split; [|split; assumption].
  intros k t Hget. apply Hkeys. now apply mget_In.
Qed.

Lemma reachable_tables_keyed_by_task_id_witness :
  keys_match (activeTasks (perform envConfig (CacceptTask 0 "T" "N1")
                             (perform envConfig
                                (CbroadcastTask 0 Scenario.trainTask "G") init)))
  /\ NoDup (mkeys (activeTasks (perform envConfig (CacceptTask 0 "T" "N1")
                                  (perform envConfig
                                     (CbroadcastTask 0 Scenario.trainTask "G") init))))
  /\ ledger_wf (rewardDistributions
                  (perform envConfig (CacceptTask 0 "T" "N1")
                     (perform envConfig
                        (CbroadcastTask 0 Scenario.trainTask "G") init))).
Proof.
  apply (reachable_tables_keyed_by_task_id envConfig).
  apply reach_step. apply reach_step. apply reach_init.
Defined.

Lemma cont_same (s s' : State) :
  activeTasks s' = activeTasks s -> containment s -> containment s'.
Proof. unfold containment. intros ->. auto. Qed.

Lemma cont_store (k : string) (t : Task) :
  contained t ->
  forall s, containment s -> containment (upd_activeTasks (fun m => mset m k t) s).
Proof.
  intros Ht s Hc. apply (containment_mset s _ k t Hc); [reflexivity | exact Ht].
Qed.

Lemma cont_forwardMessage (p : ConnectedPeer) (m : SignalingMessage) :
  preserves containment (forwardMessage p m).
Proof.
  intros s H. unfold forwardMessage.
  destruct (readyOpen (ws p)); [destruct (sendFails (ws p))|]; simpl; auto.
Qed.

Lemma cont_cleanupTask (id : string) : preserves containment (cleanupTask id).
Proof.
  unfold cleanupTask. apply preserves_gets_bind. intros s H.
  apply preserves_bind; auto.
  - destruct (mget (taskTimeouts s) id).
    + apply preserves_modify. intros s0. apply cont_same; reflexivity.
    + apply preserves_ret.
  - intros _. apply preserves_modify. intros s0. apply cont_same; reflexivity.
Qed.

Lemma cont_addNode (peer : ConnectedPeer) : preserves containment (addNode peer).
Proof.
  unfold addNode.
  repeat (apply preserves_bind; [|intros _]);
    try (apply preserves_modify; intros s0; apply cont_same; reflexivity).
  destruct (nodeType (info peer));
    apply preserves_modify; intros s0; apply cont_same; reflexivity.
Qed.

Lemma cont_broadcastTask (cfg : Config) (now : Z) (task : Task) (source : string) :
  contained task -> preserves containment (broadcastTask cfg now task source).
Proof.
  intros Ht. unfold broadcastTask.
  destruct (negb (validateTaskRequirements cfg task)); [apply preserves_throw|].
  apply preserves_bind.
  { apply preserves_modify. now apply cont_store. }
  intros _. apply preserves_bind.
  { unfold setupTaskTimeout. apply preserves_modify.
    intros s0. apply cont_same; reflexivity. }
  intros _. apply preserves_gets_bind. intros s H.
  apply preserves_forEach; auto. intros [reg validators].
  destruct (Nat.eqb _ 0); [apply preserves_ret|].
  destruct (selectRegionalValidator _);
    [apply cont_forwardMessage | apply preserves_ret].
Qed.

Lemma cont_distribution (task : Task) (reg source : string) :
  contained task ->
  preserves containment (handleRegionalTaskDistribution task reg source).
Proof.
  intros Ht. unfold handleRegionalTaskDistribution.
  apply preserves_gets_bind. intros s H.
  destruct (mget (individualNodes s) reg) as [nodes|]; [|exact H].
  destruct (Nat.eqb _ 0); [exact H|].
  apply preserves_bind; auto.
  - apply preserves_forEach. intros node. apply cont_forwardMessage.
  - intros _. apply preserves_modify. apply cont_store.
    unfold contained in *. simpl. now apply incl_appl.
Qed.

Lemma cont_sendRewards (id : string) (l : JsMap.t Q) :
  preserves containment (sendRewards id l).
Proof.
  unfold sendRewards. apply preserves_forEach. intros [pid amount].
  apply preserves_gets_bind. intros s H.
  destruct (findPeer pid s); [now apply cont_forwardMessage | exact H].
Qed.

Lemma cont_finalizeTask (key : string) (task : Task) (now : Z) :
  contained task -> preserves containment (finalizeTask key task now).
Proof.
  intros Ht. unfold finalizeTask. apply preserves_bind.
  - unfold distributeRewards. apply preserves_bind.
    { apply preserves_modify. apply cont_store. exact Ht. }
    intros _. apply preserves_gets_bind. intros s H.
    match goal with |- context [match ?o with Some _ => _ | None => _ end] =>
      destruct o as [taskRewards|] end; [|exact H].
    apply preserves_gets_bind; [|exact H]. intros s0 H0.
    apply preserves_bind; [| |exact H0].
    + apply preserves_modify. intros s1. apply cont_same; reflexivity.
    + intros _. apply cont_sendRewards.
  - intros _. apply cont_cleanupTask.
Qed.

Lemma cont_completion (now : Z) (id peer : string) :
  preserves containment (handleTaskCompletion now id peer).
Proof.
  intros s H. unfold handleTaskCompletion, recordCompletion.
  unfold bind at 1. unfold bind at 1, gets at 1.
  destruct (mget (activeTasks s) id) as [task|] eqn:Hget; [|exact H].
  unfold bind at 1, gets at 1.
  destruct (mget (rewardDistributions s) id) as [taskRewards|]; [|exact H].
  unfold bind at 1, modify at 1, ret at 1.
  assert (H1 : containment
                 (upd_rewardDistributions
                    (fun m => mset m id
                       (mset taskRewards peer (completionReward task now))) s))
    by (apply (cont_same s); [reflexivity | exact H]).
  destruct (Nat.eqb _ _); [|exact H1].
  apply cont_finalizeTask; [|exact H1]. exact (H id task Hget).
Qed.

Lemma cont_retryTask (cfg : Config) (now : Z) (id : string) :
  preserves containment (retryTask cfg now id).
Proof.
  unfold retryTask. apply preserves_gets_bind. intros s H.
  destruct (mget (activeTasks s) id) as [task|]; [|exact H].
  destruct (negb _); [exact H|].
  assert (Hempty : forall t st, contained
            (set_timestamp
               (set_status t
                  {| state := st; assignedNodes := []; acceptedNodes := [];
                     progress := 0; startTime := None; completionTime := None;
                     error := None |}) now))
    by (intros t st x []).
  apply preserves_bind; auto.
  - apply preserves_modify. apply cont_store. apply Hempty.
  - intros _. apply preserves_bind.
    + apply cont_broadcastTask. apply Hempty.
    + intros _. apply preserves_ret.
Qed.

Lemma cont_fireTimer (h : nat) : preserves containment (fireTimer h).
Proof.
  unfold fireTimer. apply preserves_gets_bind. intros s H.
  destruct (find _ (timers s)); [|exact H].
  apply preserves_bind; auto.
  - apply preserves_modify. intros s0. apply cont_same; reflexivity.
  - intros _ s0. apply handleTaskTimeout_keeps.
Qed.

Lemma cont_taskCleanup (cfg : Config) (now : Z) (s : State) :
  NoDup (mkeys (activeTasks s)) ->
  containment s -> containment (state_of (taskCleanup cfg now s)).
Proof.
  intros Hnd Hc k t Hget. simpl in Hget.
  apply mget_In in Hget. apply filter_In in Hget. destruct Hget as [Hin _].
  apply (Hc k t). now apply In_mget.
Qed.

(** X2. Apart from what a call brings in from outside - the peer of an
    acceptance, which must be assigned to the task, and the task object of
    a broadcast or of a regional distribution, whose accepted nodes must be
    among its assigned nodes - every call of the task engine keeps the
    accepted nodes of every task among its assigned nodes, whether it
    returns or throws. *)
Theorem calls_keep_accepted_among_assigned :
  forall (cfg : Config) (c : Call) (s : State),
    tables_wf s ->
    containment s ->
    call_respects_assignment c s ->
    containment (perform cfg c s).
Proof.
  intros cfg c s Hwf Hc Hcall.
  destruct c as [peer|n ty reg|now task src|task reg src|now id peer|now id peer
                 |now id|h|now]; simpl in *.
  - now apply cont_addNode.
  - apply removeNode_keeps; auto.
    intros k t Hget. eapply wf_task_key; eauto.
  - now apply cont_broadcastTask.
  - now apply cont_distribution.
  - destruct (mget (activeTasks s) id) as [task|] eqn:Hget.
    + apply (handleTaskAcceptance_assigned_keeps s now id peer task); auto.
    + unfold handleTaskAcceptance, bind, gets. now rewrite Hget.
  - now apply cont_completion.
  - now apply cont_retryTask.
  - now apply cont_fireTimer.
  - apply cont_taskCleanup; auto. now destruct Hwf.
Qed.

Lemma calls_keep_accepted_among_assigned_witness :
  containment (perform envConfig (CacceptTask 0 "T" "N1") Scenario.distributed).
Proof.
  apply (calls_keep_accepted_among_assigned envConfig (CacceptTask 0 "T" "N1")
           Scenario.distributed).
  - apply (reachable_tables_wf envConfig).
    apply (reach_step envConfig _ (CdistributeTask Scenario.trainTask "eu" "R")).
    apply (reach_step envConfig _ (CbroadcastTask 0 Scenario.trainTask "G")).
    apply (reach_step envConfig _ (CaddNode Scenario.N2)).
    apply (reach_step envConfig _ (CaddNode Scenario.N1)).
    apply (reach_step envConfig _ (CaddNode Scenario.R)).
    apply (reach_step envConfig _ (CaddNode Scenario.G)).
    apply reach_init.
  - intros k t Hget.
    assert (Htab : activeTasks Scenario.distributed
                   = [("T", set_status Scenario.trainTask
                              (set_assignedNodes (status Scenario.trainTask)
                                 ["N1"; "N2"]))]) by reflexivity.
    rewrite Htab in Hget. unfold mget in Hget.
    destruct (String.eqb "T" k); [|discriminate].
    injection Hget as <-. intros x [].
  - intros task Hget.
    assert (Htab : mget (activeTasks Scenario.distributed) "T"
                   = Some (set_status Scenario.trainTask
                             (set_assignedNodes (status Scenario.trainTask)
                                ["N1"; "N2"]))) by reflexivity.
    rewrite Htab in Hget. injection Hget as <-. simpl. auto.
Defined.

End EngineInvariants.

(** ** The choice of a regional validator *)

Section ValidatorChoice.
Import ValidatorSystem.

Lemma hd_sort_insert {A : Type} (cmp : A -> A -> Z) (x : A) (l : list A) :
  hd_error (sort_insert cmp x l) = running_head cmp (hd_error l) x.
Proof.
  destruct l as [|y r]; simpl; auto.
  unfold running_head. now destruct (cmp x y <? 0)%Z.
Qed.

Lemma hd_js_sort {A : Type} (cmp : A -> A -> Z) (l : list A) :
  forall acc,
    hd_error (fold_left (fun acc x => sort_insert cmp x acc) l acc)
    = fold_left (running_head cmp) l (hd_error acc).
Proof.
  induction l as [|x r IH]; intros acc; simpl; auto.
  now rewrite IH, hd_sort_insert.
Qed.

Lemma load_cmp_neg (a b : ConnectedPeer) :
  (load_cmp a b <? 0)%Z = true ->
  (ns_activeTasks (pstatus a) < ns_activeTasks (pstatus b))%nat
  \/ (ns_activeTasks (pstatus a) = ns_activeTasks (pstatus b)
      /\ (ns_completedTasks (pstatus b) < ns_completedTasks (pstatus a))%nat).
Proof.
  unfold load_cmp. intros H. apply Z.ltb_lt in H.
  destruct (Z.eqb_spec (Z.of_nat (ns_activeTasks (pstatus a))
                        - Z.of_nat (ns_activeTasks (pstatus b))) 0); lia.
Qed.

Lemma load_cmp_nonneg (a b : ConnectedPeer) :
  (load_cmp a b <? 0)%Z = false -> no_busier b a.
Proof.
  unfold load_cmp, no_busier. intros H. apply Z.ltb_ge in H.
  destruct (Z.eqb_spec (Z.of_nat (ns_activeTasks (pstatus a))
                        - Z.of_nat (ns_activeTasks (pstatus b))) 0); lia.
Qed.

Lemma running_head_best (l : list ConnectedPeer) :
  forall h : option ConnectedPeer,
    (h <> None \/ l <> []) ->
    exists m,
      fold_left (running_head load_cmp) l h = Some m
      /\ (In m l \/ h = Some m)
      /\ (forall v, In v l -> no_busier m v)
      /\ (forall m0, h = Some m0 -> no_busier m m0).
Proof.
  induction l as [|x r IH]; intros h Hne; simpl.
  - destruct h as [m0|]; [|destruct Hne; congruence].
    exists m0. split; [reflexivity|]. split; [now right|].
    split; [intros v []|].
    intros m1 [= <-]. unfold no_busier. lia.
  - destruct (IH (running_head load_cmp h x)) as (m & Hfold & Hin & Hall & Hhead).
    { left. discriminate. }
    exists m. split; [exact Hfold|].
    assert (Hx : no_busier m x /\ (forall m0, h = Some m0 -> no_busier m m0)).
    { unfold running_head in Hhead. destruct h as [m0|].
      - destruct (load_cmp x m0 <? 0)%Z eqn:E.
        + pose proof (Hhead x eq_refl) as Hmx. split; [exact Hmx|].
          intros m1 [= <-]. apply load_cmp_neg in E.
          unfold no_busier in *. lia.
        + pose proof (Hhead m0 eq_refl) as Hmm0. split.
          * apply load_cmp_nonneg in E. unfold no_busier in *. lia.
          * intros m1 [= <-]. exact Hmm0.
      - split; [apply Hhead; reflexivity | discriminate]. }
    destruct Hx as [Hmx Hm0]. split; [|split].
    + destruct Hin as [Hin|Hin]; [left; now right|].
      unfold running_head in Hin. injection Hin as Hin.
      destruct h as [m0|].
      * destruct (load_cmp x m0 <? 0)%Z; subst; [left; now left | now right].
      * subst. left. now left.
    + intros v [<-|Hv]; auto.
    + exact Hm0.
Qed.

Lemma selectRegionalValidator_fold (validators : list ConnectedPeer) :
  selectRegionalValidator validators
  = fold_left (running_head load_cmp) validators None.
Proof.
  unfold selectRegionalValidator, js_sort.
  change (fun a b : ConnectedPeer =>
            let d := (Z.of_nat (ns_activeTasks (pstatus a))
                      - Z.of_nat (ns_activeTasks (pstatus b)))%Z in
            if (d =? 0)%Z
            then (Z.of_nat (ns_completedTasks (pstatus b))
                  - Z.of_nat (ns_completedTasks (pstatus a)))%Z
            else d) with load_cmp.
  now rewrite hd_js_sort.
Qed.

(** X3. From a non-empty list of validators [selectRegionalValidator]
    returns one of them that has the fewest active tasks and, among those
    with as few, the most completed tasks. *)
Theorem selectRegionalValidator_least_loaded :
  forall (validators : list ConnectedPeer),
    validators <> [] ->
    exists m,
      selectRegionalValidator validators = Some m
      /\ In m validators
      /\ forall v, In v validators -> no_busier m v.
Proof.
  intros validators Hne. rewrite selectRegionalValidator_fold.
  destruct (running_head_best validators None) as (m & Hfold & Hin & Hall & _).
  { now right. }
  exists m. split; [exact Hfold|]. split; [|exact Hall].
  destruct Hin as [Hin|Hin]; [exact Hin | discriminate].
Qed.

Lemma selectRegionalValidator_least_loaded_witness :
  exists m,
    selectRegionalValidator
      [Scenario.loaded 21 "R1" 3 9; Scenario.loaded 22 "R2" 1 2;
       Scenario.loaded 23 "R3" 1 7] = Some m
    /\ In m [Scenario.loaded 21 "R1" 3 9; Scenario.loaded 22 "R2" 1 2;
             Scenario.loaded 23 "R3" 1 7]
    /\ forall v, In v [Scenario.loaded 21 "R1" 3 9; Scenario.loaded 22 "R2" 1 2;
                       Scenario.loaded 23 "R3" 1 7] -> no_busier m v.
Proof.
  apply (selectRegionalValidator_least_loaded
           [Scenario.loaded 21 "R1" 3 9; Scenario.loaded 22 "R2" 1 2;
            Scenario.loaded 23 "R3" 1 7]).
  discriminate.
Defined.

Example selectRegionalValidator_picks_R3 :
  option_map (fun p => peerId (info p))
    (selectRegionalValidator
       [Scenario.loaded 21 "R1" 3 9; Scenario.loaded 22 "R2" 1 2;
        Scenario.loaded 23 "R3" 1 7]) = Some "R3"
  /\ selectRegionalValidator [] = None.
Proof. split; reflexivity. Qed.

End ValidatorChoice.

(** ** Submission of a valid task *)

Section BroadcastFacts.
Import ValidatorSystem.

Lemma same_engine_tables_refl (s : State) : same_engine_tables s s.
Proof. unfold same_engine_tables. auto 10. Qed.

Lemma same_engine_tables_trans (a b c : State) :
  same_engine_tables a b -> same_engine_tables b c -> same_engine_tables a c.
Proof.
  unfold same_engine_tables.
  intros (H1 & H2 & H3 & H4 & H5 & H6 & H7 & H8)
         (G1 & G2 & G3 & G4 & G5 & G6 & G7 & G8).
  repeat split; congruence.
Qed.






End BroadcastFacts.

(** ** Distribution of a task in a region *)

Section DistributionFacts.
Import ValidatorSystem.

Lemma assignment_loop (task : Task) (count : nat) (l : list ConnectedPeer) :
  (forall n, In n l -> sendFails (ws n) = false) ->
  forall s : State,
    exists s',
      forEach l (fun node => forwardMessage node (assignment_for task count node)) s
      = Ok tt s'
      /\ same_engine_tables s s'
      /\ wire s'
         = wire s
           ++ map (fun n => (wsId (ws n), assignment_for task count n))
                  (filter (fun n => readyOpen (ws n)) l).
Proof.
  intros Hfine. induction l as [|n r IH]; intros s; simpl.
  - exists s. unfold ret. rewrite app_nil_r.
    auto using same_engine_tables_refl.
  - unfold bind at 1, forwardMessage at 1.
    rewrite (Hfine n) by now left.
    destruct (readyOpen (ws n)); simpl.
    + destruct (IH (fun x Hx => Hfine x (or_intror Hx))
                   (emit (wsId (ws n), assignment_for task count n) s))
        as (s' & Hrun & Hsame & Hw).
      exists s'. split; [exact Hrun|]. split.
      * eapply same_engine_tables_trans; [|exact Hsame].
        unfold same_engine_tables. simpl. auto 10.
      * rewrite Hw. simpl. now rewrite <- app_assoc.
    + apply (IH (fun x Hx => Hfine x (or_intror Hx))).
Qed.

Lemma slice0_length {A : Type} (n : Z) (l : list A) :
  (0 <= n)%Z -> (Z.of_nat (length (slice0 n l)) <= n)%Z.
Proof.
  intros Hn. unfold slice0. destruct (Z.ltb_spec n 0); [lia|].
  rewrite length_firstn. lia.
Qed.

Lemma slice0_incl {A : Type} (n : Z) (l : list A) (x : A) :
  In x (slice0 n l) -> In x l.
Proof.
  assert (Hin : forall k (m : list A), In x (firstn k m) -> In x m).
  { induction k as [|k IH]; intros [|y m]; simpl; try tauto.
    intros [->|H]; [now left | right; now apply IH]. }
  unfold slice0. destruct (n <? 0)%Z; apply Hin.
Qed.

(** X5. With no individual node to give the task to - the region has no
    pool, none of its nodes is eligible, or the task allows no node -
    [handleRegionalTaskDistribution] returns without any effect: the task
    is not stored and nothing is sent. *)
Theorem distribution_without_nodes_is_noop :
  forall (task : Task) (reg source : string) (s : State),
    selected_nodes task reg s = [] ->
    handleRegionalTaskDistribution task reg source s = Ok tt s.
Proof.
  intros task reg source s Hsel. unfold handleRegionalTaskDistribution.
  unfold selected_nodes in Hsel. unfold bind, gets.
  destruct (mget (individualNodes s) reg) as [nodes|]; [|reflexivity].
  now rewrite Hsel.
Qed.

Lemma distribution_without_nodes_is_noop_witness :
  handleRegionalTaskDistribution Scenario.trainTask "asia" "R" Scenario.broadcast
  = Ok tt Scenario.broadcast.
Proof.
  apply (distribution_without_nodes_is_noop Scenario.trainTask "asia" "R"
           Scenario.broadcast).
  reflexivity.
Defined.

(** X6. When some node is selected and no selected node's socket raises,
    [handleRegionalTaskDistribution] stores the task under its id with the
    selected nodes appended to its assigned nodes and writes, to every
    selected node whose socket is open and in order, an assignment that
    carries the reward per node and lists that node alone as newly
    assigned. The selected nodes are eligible nodes of the region, no more
    than [maxNodes] of them, and their number times the reward per node is
    the node share [total * (1 - validatorShare / 100)]. *)
Theorem distribution_assigns_selected_nodes :
  forall (task : Task) (reg source : string) (s : State),
    selected_nodes task reg s <> [] ->
    (forall n, In n (selected_nodes task reg s) -> sendFails (ws n) = false) ->
    let chosen := selected_nodes task reg s in
    exists s',
      handleRegionalTaskDistribution task reg source s = Ok tt s'
      /\ activeTasks s'
         = mset (activeTasks s) (taskId task)
             (set_status task
                (set_assignedNodes (status task)
                   (assignedNodes (status task)
                    ++ map (fun n => peerId (info n)) chosen)))
      /\ wire s'
         = wire s
           ++ map (fun n => (wsId (ws n), assignment_for task (length chosen) n))
                  (filter (fun n => readyOpen (ws n)) chosen)
      /\ rewardDistributions s' = rewardDistributions s
      /\ taskTimeouts s' = taskTimeouts s
      /\ (forall n, In n chosen ->
            isNodeEligibleForTask n task = true
            /\ exists nodes, mget (individualNodes s) reg = Some nodes
                             /\ In n (mvalues nodes))
      /\ ((0 <= maxNodes (requirements task))%Z ->
          (Z.of_nat (length chosen) <= maxNodes (requirements task))%Z)
      /\ (inject_Z (Z.of_nat (length chosen))
          * calculateNodeReward task (length chosen)
          == total (reward task) * (1 - validatorShare (reward task) / 100))%Q.
Proof.
  intros task reg source s Hne Hfine chosen.
  unfold selected_nodes in *.
  destruct (mget (individualNodes s) reg) as [nodes|] eqn:Hnodes;
    [|congruence].
  fold chosen in Hne, Hfine.
  destruct (assignment_loop task (length chosen) chosen Hfine s)
    as (s1 & Hrun & (H1 & H2 & H3 & H4 & H5 & H6 & H7 & H8) & Hw).
  eexists. split.
  { unfold handleRegionalTaskDistribution. unfold bind at 1, gets at 1.
    rewrite Hnodes. fold chosen.
    destruct (Nat.eqb_spec (length chosen) 0) as [E|_].
    { apply length_zero_iff_nil in E. congruence. }
    unfold bind at 1.
    change (forEach chosen (fun node =>
              forwardMessage node
                (Mtask_assignment
                   (Some (set_status
                            (set_reward task
                               (set_perNode (reward task)
                                  (calculateNodeReward task (length chosen))))
                            (set_assignedNodes (status task)
                               (assignedNodes (status task)
                                ++ [peerId (info node)]))))
                   None)) s)
      with (forEach chosen (fun node =>
              forwardMessage node (assignment_for task (length chosen) node)) s).
    rewrite Hrun. reflexivity. }
  simpl. rewrite H4, H5, H6, Hw.
  do 4 (split; [reflexivity|]).
  split.
  { intros n Hin. unfold chosen in Hin. apply slice0_incl in Hin.
    apply filter_In in Hin. destruct Hin as [Hin Hel]. split; [exact Hel|].
    exists nodes. auto. }
  split; [intros Hmax; now apply slice0_length|].
  unfold calculateNodeReward. field.
  apply inject_nat_nonzero.
  destruct chosen; [congruence | simpl; lia].
Qed.

Lemma distribution_assigns_selected_nodes_witness :
  let chosen := selected_nodes Scenario.trainTask "eu" Scenario.broadcast in
  exists s',
    handleRegionalTaskDistribution Scenario.trainTask "eu" "R" Scenario.broadcast
    = Ok tt s'
    /\ activeTasks s'
       = mset (activeTasks Scenario.broadcast) (taskId Scenario.trainTask)
           (set_status Scenario.trainTask
              (set_assignedNodes (status Scenario.trainTask)
                 (assignedNodes (status Scenario.trainTask)
                  ++ map (fun n => peerId (info n)) chosen)))
    /\ wire s'
       = wire Scenario.broadcast
         ++ map (fun n => (wsId (ws n),
                           assignment_for Scenario.trainTask (length chosen) n))
                (filter (fun n => readyOpen (ws n)) chosen)
    /\ rewardDistributions s' = rewardDistributions Scenario.broadcast
    /\ taskTimeouts s' = taskTimeouts Scenario.broadcast
    /\ (forall n, In n chosen ->
          isNodeEligibleForTask n Scenario.trainTask = true
          /\ exists nodes, mget (individualNodes Scenario.broadcast) "eu" = Some nodes
                           /\ In n (mvalues nodes))
    /\ ((0 <= maxNodes (requirements Scenario.trainTask))%Z ->
        (Z.of_nat (length chosen) <= maxNodes (requirements Scenario.trainTask))%Z)
    /\ (inject_Z (Z.of_nat (length chosen))
        * calculateNodeReward Scenario.trainTask (length chosen)
        == total (reward Scenario.trainTask)
           * (1 - validatorShare (reward Scenario.trainTask) / 100))%Q.
Proof.
  apply (distribution_assigns_selected_nodes Scenario.trainTask "eu" "R"
           Scenario.broadcast).
  - discriminate.
  - intros n [<-|[<-|[]]]; reflexivity.
Defined.

Example distribution_scenario :
  map (fun n => peerId (info n))
      (selected_nodes Scenario.trainTask "eu" Scenario.broadcast) = ["N1"; "N2"]
  /\ (calculateNodeReward Scenario.trainTask 2 == 90)%Q.
Proof. split; [reflexivity | vm_compute; reflexivity]. Qed.

End DistributionFacts.

(** ** Retrying a task *)

Section RetryFacts.
Import ValidatorSystem.

Lemma validate_reset (cfg : Config) (now : Z) (task : Task) :
  validateTaskRequirements cfg (reset_for_retry now task)
  = validateTaskRequirements cfg task.
Proof. reflexivity. Qed.

Lemma retryTask_failed_run (cfg : Config) (now : Z) (id : string) (task : Task)
  (s : State) :
  mget (activeTasks s) id = Some task ->
  state (status task) = failed ->
  retryTask cfg now id s
  = (broadcastTask cfg now (reset_for_retry now task) (submitter task) ;; ret true)%js
      (upd_activeTasks (fun m => mset m id (reset_for_retry now task)) s).
Proof.
  intros Hget Hfailed. unfold retryTask.
  unfold bind at 1, gets at 1. rewrite Hget, Hfailed. reflexivity.
Qed.

(** X7. [retryTask] answers [false] and changes nothing unless the task is
    stored and failed. *)
Theorem retryTask_only_failed :
  forall (cfg : Config) (now : Z) (id : string) (s : State),
    (forall task, mget (activeTasks s) id = Some task ->
                  state (status task) <> failed) ->
    retryTask cfg now id s = Ok false s.
Proof.
  intros cfg now id s Hnot. unfold retryTask, bind, gets.
  destruct (mget (activeTasks s) id) as [task|] eqn:Hget; [|reflexivity].
  specialize (Hnot task eq_refl).
  destruct (state (status task)); try reflexivity. congruence.
Qed.

Lemma retryTask_only_failed_witness :
  retryTask envConfig 5 "T" Scenario.distributed = Ok false Scenario.distributed.
Proof.
  apply (retryTask_only_failed envConfig 5 "T" Scenario.distributed).
  intros task Hget. vm_compute in Hget.
  injection Hget as <-. discriminate.
Defined.



(** X9. Retrying a failed task whose requirements do not pass the policy
    throws 'Invalid task requirements' - but the stored task has already
    been reset: it is left pending, with no assigned node and no error,
    and no timer is armed for it by the retry. *)
Theorem retryTask_invalid_leaves_task_pending :
  forall (cfg : Config) (now : Z) (id : string) (task : Task) (s : State),
    mget (activeTasks s) id = Some task ->
    state (status task) = failed ->
    validateTaskRequirements cfg task = false ->
    exists s',
      retryTask cfg now id s = Throw "Invalid task requirements" s'
      /\ mget (activeTasks s') id = Some (reset_for_retry now task)
      /\ (forall k, k <> id -> mget (activeTasks s') k = mget (activeTasks s) k)
      /\ taskTimeouts s' = taskTimeouts s
      /\ timers s' = timers s
      /\ wire s' = wire s.
Proof.
  intros cfg now id task s Hget Hfailed Hvalid.
  eexists. split.
  { rewrite (retryTask_failed_run cfg now id task s Hget Hfailed).
    unfold bind at 1, broadcastTask. rewrite validate_reset, Hvalid.
    reflexivity. }
  simpl. split; [apply mget_mset_same|].
  split; [intros k Hk; apply mget_mset_other; congruence|].
  auto.
Qed.

Lemma retryTask_invalid_leaves_task_pending_witness :
  exists s',
    retryTask envConfig 9 "T" Scenario.failed_unpriced
    = Throw "Invalid task requirements" s'
    /\ mget (activeTasks s') "T" = Some (reset_for_retry 9 Scenario.failedUnpricedTask)
    /\ (forall k, k <> "T" ->
                  mget (activeTasks s') k = mget (activeTasks Scenario.failed_unpriced) k)
    /\ taskTimeouts s' = taskTimeouts Scenario.failed_unpriced
    /\ timers s' = timers Scenario.failed_unpriced
    /\ wire s' = wire Scenario.failed_unpriced.
Proof.
  apply (retryTask_invalid_leaves_task_pending envConfig 9 "T"
           Scenario.failedUnpricedTask Scenario.failed_unpriced); reflexivity.
Defined.

End RetryFacts.

(** ** Queries on the task table and the ledger *)

Section QueryFacts.
Import ValidatorSystem.

Lemma touch_not_assigned (n : string) (task : Task) :
  includes (assignedNodes (status (touch n task))) n = false.
Proof.
  unfold touch. destruct (includes (assignedNodes (status task)) n) eqn:E;
    [|exact E].
  destruct (includes (assignedNodes (status (without_node n task))) n) eqn:E';
    [|reflexivity].
  apply includes_In in E'. exfalso. revert E'.
  unfold without_node. destruct (Nat.eqb _ 0); simpl; apply not_in_filter_neq.
Qed.

Lemma In_mvalues {V : Type} (m : JsMap.t V) (v : V) :
  In v (mvalues m) -> exists k, In (k, v) m.
Proof.
  unfold mvalues. intros H. apply in_map_iff in H.
  destruct H as ([k v'] & <- & H). now exists k.
Qed.

(** X10. Once [removeNode] has run for a node, no stored task lists the
    node among its assigned nodes: [getTasksForNode] is empty for it, and
    the tasks that did not list it are as they were. *)
Theorem removeNode_leaves_no_task_for_node :
  forall (s : State) (n : string) (ty : NodeType) (reg : string),
    tables_wf s ->
    exists s',
      removeNode n ty reg s = Ok tt s'
      /\ getTasksForNode n s' = []
      /\ (forall k t, mget (activeTasks s) k = Some t ->
                      includes (assignedNodes (status t)) n = false ->
                      mget (activeTasks s') k = Some t).
Proof.
  intros s n ty reg Hwf.
  assert (Hkm : keys_match (activeTasks s)).
  { intros k t Hget. eapply wf_task_key; eauto. }
  destruct (removeNode_table s n ty reg Hkm) as (s' & Hrun & _ & Hlook).
  exists s'. split; [exact Hrun|]. split.
  - unfold getTasksForNode.
    pose proof (wf_removeNode n ty reg s Hwf) as Hwf'.
    rewrite Hrun in Hwf'. simpl in Hwf'. destruct Hwf' as (Hnd & _ & _).
    destruct (filter _ _) as [|t r] eqn:E; [reflexivity|].
    assert (Hin : In t (filter (fun task => includes (assignedNodes (status task)) n)
                               (mvalues (activeTasks s')))).
    { rewrite E. now left. }
    apply filter_In in Hin. destruct Hin as [Hin Hinc].
    apply In_mvalues in Hin. destruct Hin as [k Hin].
    apply In_mget in Hin; [|exact Hnd].
    rewrite Hlook in Hin.
    destruct (mget (activeTasks s) k) as [t0|]; [|discriminate].
    simpl in Hin. injection Hin as <-.
    rewrite touch_not_assigned in Hinc. discriminate.
  - intros k t Hget Hinc. rewrite Hlook, Hget. simpl.
    unfold touch. now rewrite Hinc.
Qed.

Lemma removeNode_leaves_no_task_for_node_witness :
  exists s',
    removeNode "N1" individual "eu" Scenario.distributed = Ok tt s'
    /\ getTasksForNode "N1" s' = []
    /\ (forall k t, mget (activeTasks Scenario.distributed) k = Some t ->
                    includes (assignedNodes (status t)) "N1" = false ->
                    mget (activeTasks s') k = Some t).
Proof.
  apply (removeNode_leaves_no_task_for_node Scenario.distributed "N1"
           individual "eu").
  apply (reachable_tables_wf envConfig).
  apply (reach_step envConfig _ (CdistributeTask Scenario.trainTask "eu" "R")).
  apply (reach_step envConfig _ (CbroadcastTask 0 Scenario.trainTask "G")).
  apply (reach_step envConfig _ (CaddNode Scenario.N2)).
  apply (reach_step envConfig _ (CaddNode Scenario.N1)).
  apply (reach_step envConfig _ (CaddNode Scenario.R)).
  apply (reach_step envConfig _ (CaddNode Scenario.G)).
  apply reach_init.
Defined.

Example getTasksForNode_before_removal :
  map taskId (getTasksForNode "N1" Scenario.distributed) = ["T"].
Proof. reflexivity. Qed.







Example validateTaskBudget_needs_the_node_share :
  validateTaskBudget Scenario.trainTask = true
  /\ validateTaskBudget
       (set_reward Scenario.trainTask
          {| total := 105; perNode := 90; validatorShare := 10;
             deadline := ""; penaltyRate := 1 |}) = false.
Proof. split; reflexivity. Qed.

End QueryFacts.

(** ** Completion reports and finalization *)

Section CompletionFacts.
Import ValidatorSystem.





(** X13. A completion report has no effect for a task the engine does not
    hold, and for a held task that no node has accepted yet - the ledger
    has no reward map for it - the report raises and leaves the state as
    it was. *)
Theorem completion_without_acceptance_raises :
  forall (s : State) (now : Z) (id peer : string),
    mget (rewardDistributions s) id = None ->
    match mget (activeTasks s) id with
    | None => handleTaskCompletion now id peer s = Ok tt s
    | Some _ => exists e, handleTaskCompletion now id peer s = Throw e s
    end.
Proof.
  intros s now id peer Hledger.
  unfold handleTaskCompletion, recordCompletion. run.
  destruct (mget (activeTasks s) id) as [task|]; simpl; [|reflexivity].
  rewrite Hledger. eexists. reflexivity.
Qed.

Lemma completion_without_acceptance_raises_witness :
  exists e,
    handleTaskCompletion 5 "T" "N1" Scenario.distributed
    = Throw e Scenario.distributed.
Proof.
  apply (completion_without_acceptance_raises Scenario.distributed 5 "T" "N1").
  reflexivity.
Defined.



End CompletionFacts.

(** ** The pools of the task engine *)

Section PoolFacts.
Import ValidatorSystem.

Lemma mget_ensure_region {V : Type} (reg : string) (m : JsMap.t (JsMap.t V)) :
  exists inner, mget (ensure_region reg m) reg = Some inner
                /\ (mget m reg = Some inner \/ (mget m reg = None /\ inner = [])).
Proof.
  unfold ensure_region, mhas.
  destruct (mget m reg) as [inner|] eqn:E.
  - exists inner. auto.
  - exists []. split; [apply mget_mset_same | auto].
Qed.

Lemma mget_ensure_region_other {V : Type} (reg k : string)
  (m : JsMap.t (JsMap.t V)) :
  k <> reg -> mget (ensure_region reg m) k = mget m k.
Proof.
  intros Hk. unfold ensure_region. destruct (mhas m reg); [reflexivity|].
  apply mget_mset_other. congruence.
Qed.

Lemma pool_entry_addNode (peer : ConnectedPeer) (s : State) :
  pool_entry (nodeType (info peer)) (region (info peer)) (peerId (info peer))
             (state_of (addNode peer s)) = Some peer.
Proof.
  unfold addNode, pool_entry. run.
  destruct (nodeType (info peer)); simpl.
  - destruct (mget_ensure_region (region (info peer)) (individualNodes s))
      as (inner & Hget & _).
    unfold region_set. rewrite Hget, mget_mset_same. apply mget_mset_same.
  - destruct (mget_ensure_region (region (info peer)) (regionalValidators s))
      as (inner & Hget & _).
    unfold region_set. rewrite Hget, mget_mset_same. apply mget_mset_same.
  - apply mget_mset_same.
Qed.

Lemma pool_entry_removeNode (s : State) (id : string) (ty : NodeType)
  (reg : string) :
  keys_match (activeTasks s) ->
  forall reg' id',
    pool_entry ty reg' id' (state_of (removeNode id ty reg s))
    = if String.eqb id' id
         && (NodeType_eqb ty global_node || String.eqb reg' reg)
      then None
      else pool_entry ty reg' id' s.
Proof.
  intros Hkm reg' id'.
  destruct (failIfAssigned_loop id (mkeys (activeTasks s)) s Hkm)
    as (s1 & Hrun & _ & _ & _).
  assert (Hpools : globalValidators s1 = globalValidators s
                   /\ regionalValidators s1 = regionalValidators s
                   /\ individualNodes s1 = individualNodes s).
  { pose proof (forEach_keeps
                  (fun a b : State =>
                     globalValidators b = globalValidators a
                     /\ regionalValidators b = regionalValidators a
                     /\ individualNodes b = individualNodes a)
                  (failIfAssigned id)) as Hk.
    specialize (Hk (fun a => conj eq_refl (conj eq_refl eq_refl))).
    assert (Htrans : forall a b c : State,
               globalValidators b = globalValidators a
               /\ regionalValidators b = regionalValidators a
               /\ individualNodes b = individualNodes a ->
               globalValidators c = globalValidators b
               /\ regionalValidators c = regionalValidators b
               /\ individualNodes c = individualNodes b ->
               globalValidators c = globalValidators a
               /\ regionalValidators c = regionalValidators a
               /\ individualNodes c = individualNodes a).
    { intros a b c (H1 & H2 & H3) (H4 & H5 & H6). repeat split; congruence. }
    specialize (Hk Htrans).
    assert (Hbody : forall (k : string) (a : State),
               globalValidators (state_of (failIfAssigned id k a)) = globalValidators a
               /\ regionalValidators (state_of (failIfAssigned id k a))
                  = regionalValidators a
               /\ individualNodes (state_of (failIfAssigned id k a)) = individualNodes a).
    { intros k a. unfold failIfAssigned, handleNodeFailure, cleanupTask. run.
      destruct (mget (activeTasks a) k) as [t|]; simpl; auto.
      destruct (includes (assignedNodes (status t)) id); simpl; auto.
      destruct (mget (activeTasks a) (taskId t)) as [t'|]; simpl; auto.
      destruct (Nat.eqb _ 0); simpl; auto.
      destruct (mget (taskTimeouts a) (taskId t)); simpl; auto. }
    specialize (Hk Hbody (mkeys (activeTasks s)) s).
    rewrite Hrun in Hk. exact Hk. }
  destruct Hpools as (Hg & Hr & Hi).
  unfold removeNode. unfold bind at 1, gets at 1. unfold bind at 1.
  rewrite Hrun. unfold pool_entry.
  destruct ty; simpl.
  - rewrite Hi. rewrite ?orb_false_l. unfold region_delete.
    destruct (String.eqb_spec reg' reg) as [->|Hreg].
    + destruct (mget (individualNodes s) reg) as [inner|] eqn:E.
      * rewrite mget_mset_same.
        destruct (String.eqb_spec id' id) as [->|Hid]; simpl.
        -- apply mget_mdelete_same.
        -- rewrite mget_mdelete_other by congruence. reflexivity.
      * rewrite E. now destruct (String.eqb id' id).
    + rewrite andb_false_r.
      destruct (mget (individualNodes s) reg) as [inner|] eqn:E; [|reflexivity].
      rewrite mget_mset_other by congruence. reflexivity.
  - rewrite Hr. rewrite ?orb_false_l. unfold region_delete.
    destruct (String.eqb_spec reg' reg) as [->|Hreg].
    + destruct (mget (regionalValidators s) reg) as [inner|] eqn:E.
      * rewrite mget_mset_same.
        destruct (String.eqb_spec id' id) as [->|Hid]; simpl.
        -- apply mget_mdelete_same.
        -- rewrite mget_mdelete_other by congruence. reflexivity.
      * rewrite E. now destruct (String.eqb id' id).
    + rewrite andb_false_r.
      destruct (mget (regionalValidators s) reg) as [inner|] eqn:E; [|reflexivity].
      rewrite mget_mset_other by congruence. reflexivity.
  - rewrite Hg. rewrite ?orb_true_l, ?andb_true_r.
    destruct (String.eqb_spec id' id) as [->|Hid].
    + apply mget_mdelete_same.
    + apply mget_mdelete_other. congruence.
Qed.

(** X15. [addNode] files a peer in the pool of its type under its region
    and id, and [removeNode] with the same id, type and region takes it
    out again. A regional validator or an individual node removed under
    another region than the one it was filed under stays in its pool. *)
Theorem addNode_then_removeNode :
  forall (peer : ConnectedPeer) (s : State) (reg : string),
    keys_match (activeTasks s) ->
    let ty := nodeType (info peer) in
    let id := peerId (info peer) in
    let added := state_of (addNode peer s) in
    pool_entry ty (region (info peer)) id added = Some peer
    /\ pool_entry ty (region (info peer)) id
         (state_of (removeNode id ty (region (info peer)) added)) = None
    /\ (ty <> global_node -> reg <> region (info peer) ->
        pool_entry ty (region (info peer)) id
          (state_of (removeNode id ty reg added)) = Some peer).
Proof.
  intros peer s reg Hkm ty id added.
  assert (Hkm' : keys_match (activeTasks added)).
  { unfold added, addNode. run. destruct (nodeType (info peer)); exact Hkm. }
  pose proof (pool_entry_addNode peer s) as Hadd. fold ty id added in Hadd.
  split; [exact Hadd|]. split.
  - rewrite (pool_entry_removeNode added id ty (region (info peer)) Hkm').
    now rewrite !String.eqb_refl, orb_true_r.
  - intros Hty Hreg.
    rewrite (pool_entry_removeNode added id ty reg Hkm').
    destruct (String.eqb_spec (region (info peer)) reg) as [E|_]; [congruence|].
    destruct ty; try congruence; simpl; now rewrite andb_false_r.
Qed.

Lemma addNode_then_removeNode_witness :
  let ty := nodeType (info Scenario.N1) in
  let id := peerId (info Scenario.N1) in
  let added := state_of (addNode Scenario.N1 init) in
  pool_entry ty (region (info Scenario.N1)) id added = Some Scenario.N1
  /\ pool_entry ty (region (info Scenario.N1)) id
       (state_of (removeNode id ty (region (info Scenario.N1)) added)) = None
  /\ (ty <> global_node -> "asia" <> region (info Scenario.N1) ->
      pool_entry ty (region (info Scenario.N1)) id
        (state_of (removeNode id ty "asia" added)) = Some Scenario.N1).
Proof.
  apply (addNode_then_removeNode Scenario.N1 init "asia").
  intros k t Hget. discriminate.
Defined.

End PoolFacts.

(** ** The signaling server's handlers *)

Section ServerFacts.
Import SignalingServer.

Lemma same_registries_refl (s : SignalingServer.State) : same_registries s s.
Proof. unfold same_registries. auto. Qed.

Lemma same_registries_trans (a b c : SignalingServer.State) :
  same_registries a b -> same_registries b c -> same_registries a c.
Proof.
  unfold same_registries. intros (H1 & H2 & H3) (H4 & H5 & H6).
  repeat split; congruence.
Qed.

Lemma sendMessage_effect (ws : ExtendedWebSocket) (m : SignalingMessage)
  (s : SignalingServer.State) :
  exists s',
    sendMessage ws m s = Ok tt s'
    /\ same_registries s s'
    /\ SignalingServer.wire s'
       = SignalingServer.wire s
         ++ (if readyOpen ws && negb (sendFails ws) then [(wsId ws, m)] else []).
Proof.
  unfold sendMessage, same_registries.
  destruct (readyOpen ws), (sendFails ws); run;
    eexists; (split; [reflexivity|]); simpl;
    rewrite ?app_nil_r; auto.
Qed.

Lemma broadcast_group_loop (message : SignalingMessage)
  (l : list ConnectedPeer) :
  forall s : SignalingServer.State,
    let run :=
      forEach l (fun peer =>
        if readyOpen (ws peer) then
          if sendFails (ws peer) then throw "send failed"
          else modify (SignalingServer.emit (wsId (ws peer), message))
        else ret tt) s in
    same_registries s (state_of run)
    /\ exists tail,
         SignalingServer.wire (state_of run) = SignalingServer.wire s ++ tail
         /\ Forall (fun m => snd m = message
                             /\ exists p, In p l /\ wsId (ws p) = fst m) tail.
Proof.
  induction l as [|p r IH]; intros s; simpl.
  - split; [apply same_registries_refl|]. exists []. now rewrite app_nil_r.
  - unfold bind at 1.
    destruct (readyOpen (ws p)) eqn:Hopen; [destruct (sendFails (ws p)) eqn:Hf|].
    + simpl. split; [apply same_registries_refl|]. exists [].
      now rewrite app_nil_r.
    + unfold modify at 1. cbv beta iota.
      destruct (IH (SignalingServer.emit (wsId (ws p), message) s))
        as (Hsame & tail & Hw & Hall).
      split.
      * eapply same_registries_trans; [|exact Hsame].
        unfold same_registries. simpl. auto.
      * exists ((wsId (ws p), message) :: tail). split.
        -- etransitivity; [exact Hw|]. simpl. now rewrite <- app_assoc.
        -- constructor.
           ++ split; [reflexivity|]. exists p. split; [now left | reflexivity].
           ++ eapply Forall_impl; [|exact Hall].
              intros m (Hm & q & Hq & Hid). split; [exact Hm|].
              exists q. split; [now right | exact Hid].
    + unfold ret at 1. cbv beta iota.
      destruct (IH s) as (Hsame & tail & Hw & Hall).
      split; [exact Hsame|]. exists tail. split; [exact Hw|].
      eapply Forall_impl; [|exact Hall].
      intros m (Hm & q & Hq & Hid). split; [exact Hm|].
      exists q. split; [now right | exact Hid].
Qed.



(** X17. A task broadcast is only taken from a registered global
    validator and a task assignment only from a registered regional
    validator: from any other sender either message leaves the server and
    its task engine as they were, and nothing is written. *)
Theorem task_messages_need_validator_role :
  forall (cfg : Config) (now : Z) (task : Task) (sender : string)
         (s : SignalingServer.State),
    ((forall peer, mget (peers s) sender = Some peer ->
                   nodeType (info peer) <> global_node) ->
     handleTaskBroadcast cfg now (Mtask_broadcast (Some task) (Some sender)) s
     = Ok tt s)
    /\ ((forall peer, mget (peers s) sender = Some peer ->
                      nodeType (info peer) <> regional_node) ->
        handleTaskAssignment (Mtask_assignment (Some task) (Some sender)) s
        = Ok tt s).
Proof.
  intros cfg now task sender s. split; intros Hrole.
  - unfold handleTaskBroadcast.
    destruct (String.eqb sender ""); [reflexivity|].
    unfold bind, gets.
    destruct (mget (peers s) sender) as [peer|]; [|reflexivity].
    specialize (Hrole peer eq_refl).
    destruct (nodeType (info peer)); try reflexivity. congruence.
  - unfold handleTaskAssignment.
    destruct (String.eqb sender ""); [reflexivity|].
    unfold bind, gets.
    destruct (mget (peers s) sender) as [peer|]; [|reflexivity].
    specialize (Hrole peer eq_refl).
    destruct (nodeType (info peer)); try reflexivity. congruence.
Qed.

(** X18. A failure report never changes a task: [handleTaskFailure]
    leaves the peers, the regions and the whole task engine as they were.
    It writes at most one message, the report itself forwarded to the
    socket of the task's submitter, and only when the task is held, the
    reporting peer is registered and the submitter is registered. *)
Theorem handleTaskFailure_only_forwards :
  forall (message : SignalingMessage) (s : SignalingServer.State),
    exists s',
      handleTaskFailure message s = Ok tt s'
      /\ same_registries s s'
      /\ (SignalingServer.wire s' = SignalingServer.wire s
          \/ exists taskId sender err t g,
               message = Mtask_failed (Some taskId) (Some sender) err
               /\ ValidatorSystem.getTaskStatus taskId (validatorSystem s) = Some t
               /\ mhas (peers s) sender = true
               /\ mget (peers s) (submitter t) = Some g
               /\ SignalingServer.wire s'
                  = SignalingServer.wire s
                    ++ [(wsId (ws g), Mtask_failed (Some taskId) None err)]).
Proof.
  intros message s.
  assert (Hnone : exists s', Ok tt s = Ok tt s'
                             /\ same_registries s s'
                             /\ (SignalingServer.wire s' = SignalingServer.wire s
                                 \/ exists taskId sender err t g,
               message = Mtask_failed (Some taskId) (Some sender) err
               /\ ValidatorSystem.getTaskStatus taskId (validatorSystem s) = Some t
               /\ mhas (peers s) sender = true
               /\ mget (peers s) (submitter t) = Some g
               /\ SignalingServer.wire s'
                  = SignalingServer.wire s
                    ++ [(wsId (ws g), Mtask_failed (Some taskId) None err)])).
  { exists s. split; [reflexivity|]. split; [apply same_registries_refl|].
    now left. }
  unfold handleTaskFailure.
  destruct message as [| | | | | |?|[taskId|] [sender|] err| | | | | | | | | | |];
    try exact Hnone.
  destruct (String.eqb taskId "" || String.eqb sender ""); [exact Hnone|].
  unfold bind, gets.
  destruct (ValidatorSystem.getTaskStatus taskId (validatorSystem s))
    as [t|] eqn:Ht; [|exact Hnone].
  destruct (mget (peers s) sender) as [p|] eqn:Hp; [|exact Hnone].
  destruct (mget (peers s) (submitter t)) as [g|] eqn:Hg; [|exact Hnone].
  destruct (sendMessage_effect (ws g) (Mtask_failed (Some taskId) None err) s)
    as (s' & Hrun & Hsame & Hw).
  exists s'. split; [exact Hrun|]. split; [exact Hsame|].
  destruct (readyOpen (ws g) && negb (sendFails (ws g))).
  - right. exists taskId, sender, err, t, g.
    repeat split; auto. unfold mhas. now rewrite Hp.
  - left. now rewrite Hw, app_nil_r.
Qed.

End ServerFacts.

(** ** Joining and leaving *)

Section RegistryFacts.
Import SignalingServer.

Lemma bind_ok {S A B : Type} (m : M S A) (k : A -> M S B) (s s1 : S) (a : A) :
  m s = Ok a s1 -> bind m k s = k a s1.
Proof. intros H. unfold bind. now rewrite H. Qed.

Lemma set_add_In (l : list string) (x : string) : In x (set_add l x).
Proof.
  unfold set_add. destruct (includes l x) eqn:E.
  - now apply includes_In.
  - apply in_or_app. right. now left.
Qed.

Lemma set_delete_not_In (l : list string) (x : string) : ~ In x (set_delete l x).
Proof. apply not_in_filter_neq. Qed.

Lemma addNode_ok (peer : ConnectedPeer) (v : ValidatorSystem.State) :
  ValidatorSystem.addNode peer v
  = Ok tt (state_of (ValidatorSystem.addNode peer v)).
Proof.
  unfold ValidatorSystem.addNode. run.
  destruct (nodeType (info peer)); reflexivity.
Qed.

Lemma updateRegionInfo_effect (now : Z) (reg id : string) (ty : NodeType)
  (s : SignalingServer.State) :
  exists s',
    updateRegionInfo now reg id ty s = Ok tt s'
    /\ peers s' = peers s
    /\ validatorSystem s' = validatorSystem s
    /\ SignalingServer.wire s' = SignalingServer.wire s
    /\ (exists r, mget (regions s') reg = Some r
                  /\ In id (r_peers r)
                  /\ (ty <> individual -> In id (r_validators r)))
    /\ (forall k, k <> reg -> mget (regions s') k = mget (regions s) k).
Proof.
  unfold updateRegionInfo. run. unfold mhas.
  destruct (mget (regions s) reg) as [r|] eqn:E; simpl.
  - eexists. split; [reflexivity|]. simpl. rewrite E.
    do 3 (split; [reflexivity|]). split.
    + eexists. split; [apply mget_mset_same|]. simpl.
      split; [apply set_add_In|].
      intros Hty. destruct ty; try congruence; apply set_add_In.
    + intros k Hk. apply mget_mset_other. congruence.
  - eexists. split; [reflexivity|]. simpl. rewrite mget_mset_same.
    do 3 (split; [reflexivity|]). split.
    + eexists. split; [apply mget_mset_same|]. simpl.
      split; [now left|].
      intros Hty. destruct ty; try congruence; now left.
    + intros k Hk. rewrite !mget_mset_other by congruence. reflexivity.
Qed.

Lemma network_state_same (a b : SignalingServer.State) :
  same_registries a b -> network_state_of b = network_state_of a.
Proof. intros (H1 & H2 & H3). unfold network_state_of. now rewrite H1, H2, H3. Qed.

(** X19. A join that passes the checks registers the peer everywhere: the
    peer table holds the new peer object under its id, the task engine has
    gone through [addNode] for it, and its region lists it among its peers
    and, for a validator, among its validators, the other regions being
    untouched. The joining socket, when open and in order, is then sent
    the network state as it is after the registration, and what follows
    on the wire are [peer_joined] notices to other peers of the region. *)
Theorem handleJoin_registers_admissible_peer :
  forall (cfg : Config) (now : Z) (ws0 : ExtendedWebSocket) (id : string)
         (ty : NodeType) (tier : NodeTier) (balance : option Q) (reg : string)
         (s : SignalingServer.State),
    admissible_join cfg id ty tier balance reg ->
    let peer :=
      new_peer now ws0 id ty tier reg
        (match balance with Some b => b | None => 0%Q end) in
    let s' :=
      state_of (handleJoin cfg now ws0
                  (Mjoin (Some id) (Some ty) (Some tier) balance (Some reg)) s) in
    peers s' = mset (peers s) id peer
    /\ validatorSystem s'
       = state_of (ValidatorSystem.addNode peer (validatorSystem s))
    /\ pool_entry ty reg id (validatorSystem s') = Some peer
    /\ (exists r, mget (regions s') reg = Some r
                  /\ In id (r_peers r)
                  /\ (ty <> individual -> In id (r_validators r)))
    /\ (forall k, k <> reg -> mget (regions s') k = mget (regions s) k)
    /\ exists tail,
         SignalingServer.wire s'
         = SignalingServer.wire s
           ++ (if readyOpen ws0 && negb (sendFails ws0)
               then [(wsId ws0, network_state_of s')] else [])
           ++ tail
         /\ Forall (fun m => snd m = Mpeer_joined (info peer)
                             /\ exists p, In p (mvalues (peers s'))
                                          /\ region (info p) = reg
                                          /\ peerId (info p) <> id
                                          /\ wsId (ws p) = fst m) tail.
Proof.
  intros cfg now ws0 id ty tier balance reg s (Hid & Hreg & Hok) peer s'.
  set (s1 := upd_peers (fun m => mset m id peer) s).
  set (s2 := set_validatorSystem
               (state_of (ValidatorSystem.addNode peer (validatorSystem s))) s1).
  destruct (updateRegionInfo_effect now reg id ty s2)
    as (s3 & Hrun3 & Hp3 & Hv3 & Hw3 & Hr3 & Hother3).
  destruct (sendMessage_effect ws0 (network_state_of s3) s3)
    as (s4 & Hrun4 & Hsame4 & Hw4).
  set (group := filter (fun p => String.eqb (region (info p)) (region (info peer))
                                 && negb (String.eqb (peerId (info p))
                                                     (peerId (info peer))))
                       (mvalues (peers s4))).
  destruct (broadcast_group_loop (Mpeer_joined (info peer)) group s4)
    as (Hsame5 & tail & Hw5 & Hall5).
  assert (Hrun : handleJoin cfg now ws0
                   (Mjoin (Some id) (Some ty) (Some tier) balance (Some reg)) s
                 = forEach group (fun p =>
                     if readyOpen (ws p) then
                       if sendFails (ws p) then throw "send failed"
                       else modify (SignalingServer.emit
                                      (wsId (ws p), Mpeer_joined (info peer)))
                     else ret tt) s4).
  { unfold handleJoin. cbv beta iota zeta.
    destruct (String.eqb_spec id "") as [|_]; [contradiction|].
    destruct (String.eqb_spec reg "") as [|_]; [contradiction|].
    change (false || false) with false. cbv beta iota zeta.
    assert (Hcheck : negb (NodeType_eqb ty individual)
                     && negb (validateValidatorEligibility cfg tier ty
                                (match balance with Some b => b | None => 0%Q end))
                     = false).
    { destruct Hok as [->|Hv]; [reflexivity|]. rewrite Hv.
      now rewrite andb_false_r. }
    rewrite Hcheck. cbv beta iota zeta.
    rewrite (bind_ok _ _ s s1 tt) by reflexivity.
    rewrite (bind_ok _ _ s1 s2 tt)
      by (unfold callV; simpl; now rewrite addNode_ok).
    rewrite (bind_ok _ _ s2 s3 tt) by exact Hrun3.
    rewrite (bind_ok _ _ s3 s4 tt)
      by (unfold sendNetworkState, bind, gets; exact Hrun4).
    unfold broadcastToPeerGroup, bind, gets. reflexivity. }
  unfold s'. rewrite Hrun.
  destruct Hsame4 as (Hp4 & Hg4 & Hv4).
  destruct Hsame5 as (Hp5 & Hg5 & Hv5).
  assert (Hpeers : peers (state_of (forEach group (fun p =>
                     if readyOpen (ws p) then
                       if sendFails (ws p) then throw "send failed"
                       else modify (SignalingServer.emit
                                      (wsId (ws p), Mpeer_joined (info peer)))
                     else ret tt) s4)) = mset (peers s) id peer).
  { rewrite Hp5, Hp4, Hp3. reflexivity. }
  assert (Hvs : validatorSystem (state_of (forEach group (fun p =>
                     if readyOpen (ws p) then
                       if sendFails (ws p) then throw "send failed"
                       else modify (SignalingServer.emit
                                      (wsId (ws p), Mpeer_joined (info peer)))
                     else ret tt) s4))
                = state_of (ValidatorSystem.addNode peer (validatorSystem s))).
  { rewrite Hv5, Hv4, Hv3. reflexivity. }
  split; [exact Hpeers|]. split; [exact Hvs|].
  split; [rewrite Hvs; exact (pool_entry_addNode peer (validatorSystem s))|].
  rewrite Hg5, Hg4.
  split; [exact Hr3|]. split; [exact Hother3|].
  exists tail. split.
  - rewrite Hw5, Hw4, Hw3. rewrite <- app_assoc. f_equal. f_equal.
    destruct (readyOpen ws0 && negb (sendFails ws0)); [|reflexivity].
    f_equal. f_equal. symmetry. apply network_state_same.
    unfold same_registries. rewrite Hp5, Hg5, Hv5, Hp4, Hg4, Hv4. auto.
  - eapply Forall_impl; [|exact Hall5].
    intros m (Hm & p & Hin & Hfst). split; [exact Hm|].
    exists p. unfold group in Hin. apply filter_In in Hin.
    destruct Hin as [Hin Hcond]. apply andb_prop in Hcond.
    destruct Hcond as [Hsame Hdiff].
    rewrite Hpeers. rewrite Hp4, Hp3 in Hin.
    split; [exact Hin|]. split; [now apply String.eqb_eq in Hsame|].
    split; [|exact Hfst].
    apply negb_true_iff in Hdiff. now apply String.eqb_neq in Hdiff.
Qed.

Lemma handleJoin_registers_admissible_peer_witness :
  let peer := new_peer 5 (Scenario.sock 2) "R" regional_node aggregator "eu" 1000 in
  let s' :=
    state_of (handleJoin envConfig 5 (Scenario.sock 2)
                (Mjoin (Some "R") (Some regional_node) (Some aggregator)
                       (Some 1000%Q) (Some "eu")) Scenario.server_broadcast) in
  peers s' = mset (peers Scenario.server_broadcast) "R" peer
  /\ validatorSystem s'
     = state_of (ValidatorSystem.addNode peer
                   (validatorSystem Scenario.server_broadcast))
  /\ pool_entry regional_node "eu" "R" (validatorSystem s') = Some peer
  /\ (exists r, mget (regions s') "eu" = Some r
                /\ In "R" (r_peers r)
                /\ (regional_node <> individual -> In "R" (r_validators r)))
  /\ (forall k, k <> "eu" ->
                mget (regions s') k = mget (regions Scenario.server_broadcast) k)
  /\ exists tail,
       SignalingServer.wire s'
       = SignalingServer.wire Scenario.server_broadcast
         ++ (if readyOpen (Scenario.sock 2) && negb (sendFails (Scenario.sock 2))
             then [(wsId (Scenario.sock 2), network_state_of s')] else [])
         ++ tail
       /\ Forall (fun m => snd m = Mpeer_joined (info peer)
                           /\ exists p, In p (mvalues (peers s'))
                                        /\ region (info p) = "eu"
                                        /\ peerId (info p) <> "R"
                                        /\ wsId (ws p) = fst m) tail.
Proof.
  apply (handleJoin_registers_admissible_peer envConfig 5 (Scenario.sock 2) "R"
           regional_node aggregator (Some 1000%Q) "eu" Scenario.server_broadcast).
  split; [discriminate|]. split; [discriminate|]. right. reflexivity.
Defined.

(** X20. When a registered peer leaves, it is taken out of the peer
    table, out of the peer list (and, for a validator, the validator list)
    of its region and out of the pool of the task engine it was filed in,
    and every task that listed it as assigned loses it as [removeNode]
    prescribes. The only messages written are [peer_left] notices. *)
Theorem handleLeave_unregisters_peer :
  forall (id : string) (peer : ConnectedPeer) (s : SignalingServer.State),
    mget (peers s) id = Some peer ->
    peerId (info peer) = id ->
    keys_match (ValidatorSystem.activeTasks (validatorSystem s)) ->
    let s' := state_of (handleLeave (Some id) s) in
    mget (peers s') id = None
    /\ (forall k, k <> id -> mget (peers s') k = mget (peers s) k)
    /\ (forall r, mget (regions s') (region (info peer)) = Some r ->
                  ~ In id (r_peers r)
                  /\ (nodeType (info peer) <> individual ->
                      ~ In id (r_validators r)))
    /\ pool_entry (nodeType (info peer)) (region (info peer)) id
         (validatorSystem s') = None
    /\ (forall k,
          mget (ValidatorSystem.activeTasks (validatorSystem s')) k
          = option_map (touch id)
              (mget (ValidatorSystem.activeTasks (validatorSystem s)) k))
    /\ exists tail,
         SignalingServer.wire s' = SignalingServer.wire s ++ tail
         /\ Forall (fun m => snd m = Mpeer_left id (region (info peer))) tail.
Proof.
  intros id peer s Hget Hid Hkm s'.
  set (p := info peer).
  set (s1 := upd_regions (fun m =>
        match mget m (region p) with
        | Some r =>
            mset m (region p)
              {| r_id := r_id r; r_name := r_name r;
                 r_validators :=
                   (if NodeType_eqb (nodeType p) individual then r_validators r
                    else set_delete (r_validators r) (peerId p));
                 r_peers := set_delete (r_peers r) (peerId p);
                 r_lastUpdate := r_lastUpdate r; r_status := r_status r |}
        | None => m
        end) s).
  destruct (removeNode_table (validatorSystem s) (peerId p) (nodeType p)
              (region p) Hkm) as (v' & Hrm & _ & Hlook).
  set (s2 := set_validatorSystem v' s1).
  set (s3 := upd_peers (fun m => mdelete m (peerId p)) s2).
  set (group := filter (fun q => String.eqb (region (info q)) (region p)
                                 && negb (String.eqb (peerId (info q)) (peerId p)))
                       (mvalues (peers s3))).
  destruct (broadcast_group_loop (Mpeer_left (peerId p) (region p)) group s3)
    as ((Hp5 & Hg5 & Hv5) & tail & Hw5 & Hall5).
  assert (Hrun : handleLeave (Some id) s
                 = forEach group (fun q =>
                     if readyOpen (ws q) then
                       if sendFails (ws q) then throw "send failed"
                       else modify (SignalingServer.emit
                                      (wsId (ws q),
                                       Mpeer_left (peerId p) (region p)))
                     else ret tt) s3).
  { unfold handleLeave. unfold bind at 1, gets at 1. rewrite Hget.
    fold p.
    rewrite (bind_ok _ _ s s1 tt) by reflexivity.
    rewrite (bind_ok _ _ s1 s2 tt)
      by (unfold callV; simpl; now rewrite Hrm).
    rewrite (bind_ok _ _ s2 s3 tt) by reflexivity.
    unfold broadcastToPeerGroup, bind, gets. reflexivity. }
  unfold s'. rewrite Hrun. rewrite Hp5, Hg5, Hv5, Hw5.
  assert (Hpid : peerId p = id) by exact Hid.
  simpl. rewrite Hpid.
  split; [apply mget_mdelete_same|].
  split; [intros k Hk; apply mget_mdelete_other; congruence|].
  split.
  { intros r. destruct (mget (regions s) (region p)) as [r0|] eqn:E.
    - rewrite mget_mset_same. intros Hr. injection Hr as <-. simpl.
      split; [apply set_delete_not_In|].
      intros Hty. destruct (nodeType p); try congruence; apply set_delete_not_In.
    - rewrite E. discriminate. }
  split.
  { pose proof (pool_entry_removeNode (validatorSystem s) (peerId p) (nodeType p)
                  (region p) Hkm (region p) id) as Hpool.
    rewrite Hrm in Hpool. simpl in Hpool.
    rewrite Hpid, !String.eqb_refl, orb_true_r in Hpool. exact Hpool. }
  split; [intros k; rewrite <- Hpid; apply Hlook|].
  exists tail. split; [reflexivity|].
  eapply Forall_impl; [|exact Hall5].
  intros m (Hm & _). now rewrite <- Hpid.
Qed.

Lemma handleLeave_unregisters_peer_witness :
  let s := Scenario.server_broadcast in
  let s' := state_of (handleLeave (Some "G") s) in
  mget (peers s') "G" = None
  /\ (forall k, k <> "G" -> mget (peers s') k = mget (peers s) k)
  /\ (forall r, mget (regions s') (region (info Scenario.G1)) = Some r ->
                ~ In "G" (r_peers r)
                /\ (nodeType (info Scenario.G1) <> individual ->
                    ~ In "G" (r_validators r)))
  /\ pool_entry (nodeType (info Scenario.G1)) (region (info Scenario.G1)) "G"
       (validatorSystem s') = None
  /\ (forall k,
        mget (ValidatorSystem.activeTasks (validatorSystem s')) k
        = option_map (touch "G")
            (mget (ValidatorSystem.activeTasks (validatorSystem s)) k))
  /\ exists tail,
       SignalingServer.wire s' = SignalingServer.wire s ++ tail
       /\ Forall (fun m => snd m = Mpeer_left "G" (region (info Scenario.G1))) tail.
Proof.
  apply (handleLeave_unregisters_peer "G" Scenario.G1 Scenario.server_broadcast).
  - reflexivity.
  - reflexivity.
  - assert (E : validatorSystem Scenario.server_broadcast
                = perform envConfig (CbroadcastTask 1 Scenario.trainTask "G")
                    (perform envConfig (CaddNode Scenario.G1) ValidatorSystem.init))
      by (vm_compute; reflexivity).
    rewrite E. apply (reachable_keys_match envConfig).
    apply reach_step. apply reach_step. apply reach_init.
Defined.

Lemma task_messages_need_validator_role_witness :
  handleTaskAssignment (Mtask_assignment (Some Scenario.trainTask) (Some "G"))
    Scenario.server_broadcast
  = Ok tt Scenario.server_broadcast.
Proof.
  apply (proj2 (task_messages_need_validator_role envConfig 3 Scenario.trainTask
                  "G" Scenario.server_broadcast)).
  intros peer Hget. vm_compute in Hget. injection Hget as <-. discriminate.
Defined.

End RegistryFacts.

(** ** Health checks of the coordinator *)

Section HealthFacts.
Import GlobalNodeCoordinator.

Lemma broadcast_loop_exact (message : SignalingMessage)
  (targets : list ConnectedPeer) :
  forall s : State,
    exists s',
      forEach targets (fun node =>
        try_catch (forwardMessage node message) (fun _ => ret tt)) s = Ok tt s'
      /\ same_tables s s'
      /\ wire s'
         = wire s
           ++ map (fun node => (wsId (ws node), message))
                  (filter (fun node => readyOpen (ws node)
                                       && negb (sendFails (ws node))) targets).
Proof.
  induction targets as [|node r IH]; intros s; simpl.
  - exists s. unfold ret, same_tables. rewrite app_nil_r. auto 10.
  - unfold bind at 1, try_catch at 1, forwardMessage at 1.
    destruct (readyOpen (ws node)); simpl;
      [destruct (sendFails (ws node)); simpl|].
    + apply IH.
    + destruct (IH (emit (wsId (ws node), message) s))
        as (s' & Hrun & Hsame & Hw).
      exists s'. split; [exact Hrun|]. split; [exact Hsame|].
      rewrite Hw. simpl. now rewrite <- app_assoc.
    + apply IH.
Qed.

(** X21. [broadcastToGlobalNodes] never throws and changes no table. It
    writes the message once, in the order of the table, to every tracked
    node whose health status is active and whose socket is open and in
    order, and to no other. *)
Theorem broadcastToGlobalNodes_reaches_healthy_nodes :
  forall (message : SignalingMessage) (s : State),
    exists s',
      broadcastToGlobalNodes message s = Ok tt s'
      /\ same_tables s s'
      /\ wire s' = wire s ++ map (fun node => (wsId (ws node), message)) (reached s)
      /\ incl (map info (reached s)) (getHealthyGlobalNodes s).
Proof.
  intros message s. unfold broadcastToGlobalNodes. unfold bind at 1, gets at 1.
  destruct (broadcast_loop_exact message
              (filter (fun node => isNodeHealthy (peerId (info node)) s)
                      (mvalues (globalNodes s))) s) as (s' & Hrun & Hsame & Hw).
  exists s'. split; [exact Hrun|]. split; [exact Hsame|]. split; [exact Hw|].
  unfold reached, getHealthyGlobalNodes. intros p Hp.
  apply in_map_iff in Hp. destruct Hp as (node & <- & Hin).
  apply filter_In in Hin. destruct Hin as [Hin _]. now apply in_map.
Qed.

Lemma handleDegradedNode_ok (id : string) (s : State) :
  exists s' tail,
    handleDegradedNode id s = Ok tt s'
    /\ same_tables s s'
    /\ wire s' = wire s ++ tail
    /\ Forall (fun m => message_type (snd m) = "global_node_health") tail.
Proof.
  unfold handleDegradedNode. unfold bind at 1, gets at 1.
  unfold bind at 1, gets at 1.
  destruct (mget (globalNodes s) id) as [n|];
    [destruct (mget (healthMetrics s) id) as [h|]|].
  - match goal with |- context [broadcastToGlobalNodes ?m s] =>
      destruct (broadcastToGlobalNodes_ok m s) as (s' & tail & Hrun & Hsame & Hw & Hall)
    end.
    exists s', tail. split; [exact Hrun|]. split; [exact Hsame|].
    split; [exact Hw|].
    eapply Forall_impl; [|exact Hall]. intros m ->. reflexivity.
  - exists s, []. unfold ret, same_tables. rewrite app_nil_r. auto 10.
  - exists s, []. unfold ret, same_tables. rewrite app_nil_r. auto 10.
Qed.

(** One iteration of the loop of [checkGlobalNodesHealth]. *)
Lemma check_one (now : Z) (pong : string -> option Q) (id : string)
  (peer : ConnectedPeer) (s : State) :
  exists s' tail,
    try_catch
      (health <- gets (assessNodeHealth now pong peer) ;;
       modify (upd_healthMetrics (fun m => mset m id health)) ;;
       (if GlobalNodeStatus_eqb (gh_status health) gs_failing
        then handleDegradedNode id
        else ret tt) ;;
       broadcastHealthUpdate health)%js
      (fun _ => ret tt) s = Ok tt s'
    /\ globalNodes s' = globalNodes s
    /\ healthMetrics s'
       = mset (healthMetrics s) id (assessNodeHealth now pong peer s)
    /\ failoverHistory s' = failoverHistory s
    /\ activeTasks s' = activeTasks s
    /\ wire s' = wire s ++ tail
    /\ Forall (fun m => message_type (snd m) = "global_node_health") tail.
Proof.
  set (health := assessNodeHealth now pong peer s).
  set (s1 := upd_healthMetrics (fun m => mset m id health) s).
  assert (Hdeg : exists s2 tail2,
             (if GlobalNodeStatus_eqb (gh_status health) gs_failing
              then handleDegradedNode id else ret tt) s1 = Ok tt s2
             /\ same_tables s1 s2
             /\ wire s2 = wire s1 ++ tail2
             /\ Forall (fun m => message_type (snd m) = "global_node_health") tail2).
  { destruct (GlobalNodeStatus_eqb (gh_status health) gs_failing).
    - apply handleDegradedNode_ok.
    - exists s1, []. unfold ret, same_tables. rewrite app_nil_r. auto 10. }
  destruct Hdeg as (s2 & tail2 & Hrun2 & (Hg2 & Hh2 & Hf2 & Ha2) & Hw2 & Hall2).
  destruct (broadcastToGlobalNodes_ok (Mglobal_node_health health) s2)
    as (s3 & tail3 & Hrun3 & (Hg3 & Hh3 & Hf3 & Ha3) & Hw3 & Hall3).
  exists s3, (tail2 ++ tail3). split.
  { unfold try_catch. unfold bind at 1, gets at 1. fold health.
    unfold bind at 1, modify at 1. fold s1.
    unfold bind at 1. rewrite Hrun2.
    unfold broadcastHealthUpdate. rewrite Hrun3. reflexivity. }
  rewrite Hg3, Hh3, Hf3, Ha3, Hw3, Hg2, Hh2, Hf2, Ha2, Hw2. simpl.
  rewrite <- app_assoc. do 5 (split; [reflexivity|]).
  apply Forall_app. split; [exact Hall2|].
  eapply Forall_impl; [|exact Hall3]. intros m ->. reflexivity.
Qed.

Lemma assessNodeHealth_ext (now : Z) (pong : string -> option Q)
  (peer : ConnectedPeer) (a b : State) :
  globalNodes b = globalNodes a ->
  mget (healthMetrics b) (peerId (info peer))
  = mget (healthMetrics a) (peerId (info peer)) ->
  assessNodeHealth now pong peer b = assessNodeHealth now pong peer a.
Proof.
  intros Hg Hh. unfold assessNodeHealth, getNodeTaskMetrics.
  now rewrite Hg, Hh.
Qed.

Lemma check_loop (now : Z) (pong : string -> option Q)
  (nodes : JsMap.t ConnectedPeer) :
  forall s : State,
    exists s' tail,
      forEach nodes (fun '(id, peer) =>
        try_catch
          (health <- gets (assessNodeHealth now pong peer) ;;
           modify (upd_healthMetrics (fun m => mset m id health)) ;;
           (if GlobalNodeStatus_eqb (gh_status health) gs_failing
            then handleDegradedNode id
            else ret tt) ;;
           broadcastHealthUpdate health)%js
          (fun _ => ret tt)) s = Ok tt s'
      /\ globalNodes s' = globalNodes s
      /\ failoverHistory s' = failoverHistory s
      /\ activeTasks s' = activeTasks s
      /\ wire s' = wire s ++ tail
      /\ Forall (fun m => message_type (snd m) = "global_node_health") tail
      /\ (forall k, ~ In k (mkeys nodes) ->
                    mget (healthMetrics s') k = mget (healthMetrics s) k)
      /\ (NoDup (mkeys nodes) ->
          (forall k p, In (k, p) nodes -> peerId (info p) = k) ->
          forall k p, In (k, p) nodes ->
                      mget (healthMetrics s') k
                      = Some (assessNodeHealth now pong p s)).
Proof.
  induction nodes as [|[id peer] r IH]; intros s.
  - exists s, []. simpl. unfold ret. rewrite app_nil_r.
    repeat split; auto. intros _ _ k p [].
  - destruct (check_one now pong id peer s)
      as (s1 & tail1 & Hrun1 & Hg1 & Hh1 & Hf1 & Ha1 & Hw1 & Hall1).
    destruct (IH s1)
      as (s2 & tail2 & Hrun2 & Hg2 & Hf2 & Ha2 & Hw2 & Hall2 & Hout2 & Hin2).
    exists s2, (tail1 ++ tail2). split.
    { simpl. unfold bind at 1. rewrite Hrun1. exact Hrun2. }
    split; [congruence|]. split; [congruence|]. split; [congruence|].
    split; [rewrite Hw2, Hw1; now rewrite <- app_assoc|].
    split; [apply Forall_app; now split|].
    split.
    { intros k Hk. simpl in Hk. rewrite Hout2 by tauto.
      rewrite Hh1. apply mget_mset_other. tauto. }
    intros Hnd Hkeyed k p Hin.
    simpl in Hnd. inversion Hnd as [|? ? Hfresh Hnd']; subst.
    destruct Hin as [Heq|Hin].
    + injection Heq as <- <-. rewrite Hout2 by exact Hfresh.
      rewrite Hh1. apply mget_mset_same.
    + rewrite (Hin2 Hnd' (fun k0 p0 H0 => Hkeyed k0 p0 (or_intror H0)) k p Hin).
      f_equal. apply assessNodeHealth_ext; [exact Hg1|].
      rewrite Hh1, (Hkeyed k p (or_intror Hin)).
      apply mget_mset_other. intros <-. apply Hfresh.
      unfold mkeys. apply in_map_iff. exists (id, p). auto.
Qed.

(** X22. A round of health checks never throws and never touches the
    table of global validators, the failover history or the tasks: no
    node is failed over or dropped by it, whatever its assessment. Every
    message it writes is of type [global_node_health]. *)
Theorem checkGlobalNodesHealth_keeps_membership :
  forall (now : Z) (pong : string -> option Q) (s : State),
    exists s' tail,
      checkGlobalNodesHealth now pong s = Ok tt s'
      /\ globalNodes s' = globalNodes s
      /\ failoverHistory s' = failoverHistory s
      /\ activeTasks s' = activeTasks s
      /\ wire s' = wire s ++ tail
      /\ Forall (fun m => message_type (snd m) = "global_node_health") tail.
Proof.
  intros now pong s. unfold checkGlobalNodesHealth. unfold bind at 1, gets at 1.
  destruct (check_loop now pong (globalNodes s) s)
    as (s' & tail & Hrun & Hg & Hf & Ha & Hw & Hall & _).
  exists s', tail. auto 10.
Qed.

(** X23. After a round of health checks the health table holds, for every
    tracked node, the assessment of that node made against the tables as
    they were before the round: the probe answer, the responsiveness, the
    task metrics and the status derived from them. Entries of untracked
    nodes are left alone. *)
Theorem checkGlobalNodesHealth_records_assessment :
  forall (now : Z) (pong : string -> option Q) (s : State),
    nodes_keyed s ->
    let s' := state_of (checkGlobalNodesHealth now pong s) in
    (forall id peer, mget (globalNodes s) id = Some peer ->
                     mget (healthMetrics s') id
                     = Some (assessNodeHealth now pong peer s))
    /\ (forall id, mget (globalNodes s) id = None ->
                   mget (healthMetrics s') id = mget (healthMetrics s) id).
Proof.
  intros now pong s [Hnd Hkeyed] s'.
  destruct (check_loop now pong (globalNodes s) s)
    as (s1 & tail & Hrun & _ & _ & _ & _ & _ & Hout & Hin).
  assert (Hs : s' = s1).
  { unfold s', checkGlobalNodesHealth. unfold bind at 1, gets at 1.
    now rewrite Hrun. }
  rewrite Hs. split.
  - intros id peer Hget. apply (Hin Hnd Hkeyed). now apply mget_In.
  - intros id Hget. apply Hout. now apply mget_None_keys.
Qed.

Lemma checkGlobalNodesHealth_records_assessment_witness :
  let s' := state_of (checkGlobalNodesHealth 1 Scenario.all_but_A Scenario.tracked) in
  (forall id peer, mget (globalNodes Scenario.tracked) id = Some peer ->
                   mget (healthMetrics s') id
                   = Some (assessNodeHealth 1 Scenario.all_but_A peer Scenario.tracked))
  /\ (forall id, mget (globalNodes Scenario.tracked) id = None ->
                 mget (healthMetrics s') id = mget (healthMetrics Scenario.tracked) id).
Proof.
  apply (checkGlobalNodesHealth_records_assessment 1 Scenario.all_but_A
           Scenario.tracked).
  split.
  - vm_compute. repeat constructor; simpl; intuition discriminate.
  - intros k p Hin. vm_compute in Hin.
    destruct Hin as [Hin|[Hin|[Hin|[]]]]; injection Hin as <- <-; reflexivity.
Defined.

End HealthFacts.

(** ** Missed probes and undeliverable reassignments *)

Section ProbeFacts.
Import GlobalNodeCoordinator.

Lemma nodes_keyed_id (s : State) (id : string) (peer : ConnectedPeer) :
  nodes_keyed s -> mget (globalNodes s) id = Some peer -> peerId (info peer) = id.
Proof. intros [_ Hk] Hget. apply Hk. now apply mget_In. Qed.

Lemma check_round (now : Z) (pong : string -> option Q) (s : State) (id : string)
  (peer : ConnectedPeer) :
  nodes_keyed s ->
  mget (globalNodes s) id = Some peer ->
  globalNodes (state_of (checkGlobalNodesHealth now pong s)) = globalNodes s
  /\ mget (healthMetrics (state_of (checkGlobalNodesHealth now pong s))) id
     = Some (assessNodeHealth now pong peer s).
Proof.
  intros [Hnd Hkeyed] Hget.
  destruct (check_loop now pong (globalNodes s) s)
    as (s1 & tail & Hrun & Hg & _ & _ & _ & _ & _ & Hin).
  assert (Hs : checkGlobalNodesHealth now pong s = Ok tt s1)
    by (unfold checkGlobalNodesHealth; unfold bind at 1, gets at 1; exact Hrun).
  rewrite Hs. simpl. split; [exact Hg|].
  apply (Hin Hnd Hkeyed). now apply mget_In.
Qed.

Lemma assess_unanswered (now : Z) (pong : string -> option Q)
  (peer : ConnectedPeer) (h : GlobalNodeHealth) (s : State) :
  unanswered pong peer ->
  mget (healthMetrics s) (peerId (info peer)) = Some h ->
  responsiveness (metrics (assessNodeHealth now pong peer s))
  = Qmax 0 (responsiveness (metrics h) - 20)
  /\ issues (assessNodeHealth now pong peer s)
     = issues h ++ ["Node not responding to ping"]
  /\ gh_status (assessNodeHealth now pong peer s)
     = determineNodeStatus (metrics (assessNodeHealth now pong peer s)).
Proof.
  unfold unanswered. intros Hun Hget. unfold assessNodeHealth.
  rewrite Hget, Hun. simpl. auto.
Qed.

Lemma Qmax_wear (r k : Q) :
  (0 <= k)%Q ->
  (Qmax 0 (Qmax 0 (r - 20) - k) == Qmax 0 (r - (20 + k)))%Q.
Proof.
  intros Hk.
  destruct (Q.max_spec 0 (r - 20)) as [[H1 E1]|[H1 E1]];
  destruct (Q.max_spec 0 (Qmax 0 (r - 20) - k)) as [[H2 E2]|[H2 E2]];
  destruct (Q.max_spec 0 (r - (20 + k))) as [[H3 E3]|[H3 E3]];
  rewrite E2, E3; rewrite E1 in H2; try rewrite E1; lra.
Qed.

Lemma missed_rounds (pong : string -> option Q) (id : string)
  (peer : ConnectedPeer) (times : list Z) :
  unanswered pong peer ->
  forall (s : State) (h : GlobalNodeHealth),
    nodes_keyed s ->
    mget (globalNodes s) id = Some peer ->
    mget (healthMetrics s) id = Some h ->
    exists h',
      mget (healthMetrics (health_rounds times pong s)) id = Some h'
      /\ (Qmax 0 (responsiveness (metrics h')) 
          == Qmax 0 (responsiveness (metrics h)
                     - 20 * inject_Z (Z.of_nat (length times))))%Q
      /\ (times <> [] -> (0 <= responsiveness (metrics h'))%Q)
      /\ issues h'
         = issues h ++ repeat "Node not responding to ping" (length times)
      /\ (times <> [] -> gh_status h' = determineNodeStatus (metrics h')).
Proof.
  intros Hun. induction times as [|t ts IH]; intros s h Hkeyed Hnode Hh.
  - exists h. simpl. split; [exact Hh|]. split.
    + setoid_replace (responsiveness (metrics h) - 20 * inject_Z 0)%Q
        with (responsiveness (metrics h)) by ring. reflexivity.
    + split; [congruence|]. split; [now rewrite app_nil_r | congruence].
  - pose proof (nodes_keyed_id s id peer Hkeyed Hnode) as Hid.
    destruct (check_round t pong s id peer Hkeyed Hnode) as [Hg1 Hh1].
    rewrite <- Hid in Hh.
    destruct (assess_unanswered t pong peer h s Hun Hh) as (Hr & Hi & Hs).
    set (s1 := state_of (checkGlobalNodesHealth t pong s)) in *.
    set (h1 := assessNodeHealth t pong peer s) in *.
    assert (Hkeyed1 : nodes_keyed s1).
    { unfold nodes_keyed. rewrite Hg1. exact Hkeyed. }
    assert (Hnode1 : mget (globalNodes s1) id = Some peer) by now rewrite Hg1.
    destruct (IH s1 h1 Hkeyed1 Hnode1 Hh1) as (h' & Hget' & Hr' & Hpos' & Hi' & Hs').
    exists h'. split; [exact Hget'|].
    assert (Hn : (0 <= 20 * inject_Z (Z.of_nat (length ts)))%Q).
    { apply Qmult_le_0_compat; [lra|].
      change 0%Q with (inject_Z 0). rewrite <- Zle_Qle. lia. }
    split.
    { rewrite Hr', Hr.
      rewrite (Qmax_wear (responsiveness (metrics h))
                 (20 * inject_Z (Z.of_nat (length ts))) Hn).
      apply Q.max_compat; [reflexivity|].
      change (length (t :: ts)) with (S (length ts)).
      rewrite Nat2Z.inj_succ. unfold Z.succ. rewrite inject_Z_plus.
      change (inject_Z 1) with 1%Q. ring. }
    split.
    { intros _. destruct ts as [|t' ts'].
      - simpl in Hget'. rewrite Hh1 in Hget'. injection Hget' as <-.
        rewrite Hr. apply Q.le_max_l.
      - apply Hpos'. discriminate. }
    split.
    { rewrite Hi', Hi. rewrite <- app_assoc. reflexivity. }
    intros _. destruct ts as [|t' ts'].
    + simpl in Hget'. rewrite Hh1 in Hget'. injection Hget' as <-. exact Hs.
    + apply Hs'. discriminate.
Qed.

(** X24. A tracked global validator that does not answer the probe in any
    of [n >= 1] consecutive rounds of health checks ends with
    responsiveness [max(0, r - 20 n)], [r] being its responsiveness
    before, and with one more "Node not responding to ping" issue per
    round; it is assessed failing as soon as [r - 20 n < 50]. *)
Theorem missed_probes_wear_responsiveness :
  forall (pong : string -> option Q) (id : string) (peer : ConnectedPeer)
         (times : list Z) (s : State) (h : GlobalNodeHealth),
    nodes_keyed s ->
    mget (globalNodes s) id = Some peer ->
    mget (healthMetrics s) id = Some h ->
    unanswered pong peer ->
    times <> [] ->
    let n := inject_Z (Z.of_nat (length times)) in
    exists h',
      mget (healthMetrics (health_rounds times pong s)) id = Some h'
      /\ (responsiveness (metrics h')
          == Qmax 0 (responsiveness (metrics h) - 20 * n))%Q
      /\ issues h'
         = issues h ++ repeat "Node not responding to ping" (length times)
      /\ ((responsiveness (metrics h) - 20 * n < 50)%Q ->
          gh_status h' = gs_failing).
Proof.
  intros pong id peer times s h Hkeyed Hnode Hh Hun Hne n.
  destruct (missed_rounds pong id peer times Hun s h Hkeyed Hnode Hh)
    as (h' & Hget & Hr & Hpos & Hi & Hs).
  exists h'. split; [exact Hget|].
  assert (Hresp : (responsiveness (metrics h')
                   == Qmax 0 (responsiveness (metrics h) - 20 * n))%Q).
  { transitivity (Qmax 0 (responsiveness (metrics h'))); [|exact Hr].
    symmetry. apply Q.max_r. now apply Hpos. }
  split; [exact Hresp|]. split; [exact Hi|].
  intros Hlow. rewrite (Hs Hne). unfold determineNodeStatus.
  assert (Hlt : Qlt_bool (responsiveness (metrics h')) 50 = true).
  { apply Qlt_bool_iff. rewrite Hresp.
    destruct (Q.max_spec 0 (responsiveness (metrics h) - 20 * n))
      as [[_ E]|[_ E]]; rewrite E; lra. }
  now rewrite Hlt.
Qed.

Lemma missed_probes_wear_responsiveness_witness :
  let n := inject_Z (Z.of_nat (length [1; 2; 3]%Z)) in
  exists h',
    mget (healthMetrics (health_rounds [1; 2; 3]%Z Scenario.all_but_A
                           Scenario.tracked)) "A" = Some h'
    /\ (responsiveness (metrics h')
        == Qmax 0 (responsiveness (metrics (defaultHealth 0 "A")) - 20 * n))%Q
    /\ issues h'
       = issues (defaultHealth 0 "A")
         ++ repeat "Node not responding to ping" (length [1; 2; 3]%Z)
    /\ ((responsiveness (metrics (defaultHealth 0 "A")) - 20 * n < 50)%Q ->
        gh_status h' = gs_failing).
Proof.
  apply (missed_probes_wear_responsiveness Scenario.all_but_A "A" Scenario.A
           [1; 2; 3]%Z Scenario.tracked (defaultHealth 0 "A")).
  - split.
    + vm_compute. repeat constructor; simpl; intuition discriminate.
    + intros k p Hin. vm_compute in Hin.
      destruct Hin as [Hin|[Hin|[Hin|[]]]]; injection Hin as <- <-; reflexivity.
  - reflexivity.
  - reflexivity.
  - reflexivity.
  - discriminate.
Defined.

Example three_missed_probes_make_A_failing :
  option_map gh_status
    (mget (healthMetrics (health_rounds [1; 2; 3]%Z Scenario.all_but_A
                            Scenario.tracked)) "A") = Some gs_failing
  /\ option_map gh_status
       (mget (healthMetrics (health_rounds [1; 2]%Z Scenario.all_but_A
                               Scenario.tracked)) "A") = Some gs_degraded.
Proof. split; vm_compute; reflexivity. Qed.



End ProbeFacts.

(** ** Task backups *)

Section BackupFacts.
Import TaskBackupSystem.

Lemma sendBackupToNode_effect (node : ConnectedPeer) (message : BackupMessage)
  (s : State) :
  if reachable_node node
  then sendBackupToNode node message s = Ok tt (emit (wsId (ws node), message) s)
  else exists e, sendBackupToNode node message s = Throw e s.
Proof.
  unfold reachable_node, sendBackupToNode.
  destruct (readyOpen (ws node)), (sendFails (ws node)); simpl;
    try reflexivity; eexists; reflexivity.
Qed.

Lemma sendAll_effect (message : BackupMessage) (nodes : list ConnectedPeer) :
  forall s : State,
    exists r s',
      sendAll nodes message s = Ok r s'
      /\ taskBackups s' = taskBackups s
      /\ wire s'
         = wire s ++ map (fun n => (wsId (ws n), message))
                         (filter reachable_node nodes)
      /\ (r = None <-> forallb reachable_node nodes = true).
Proof.
  induction nodes as [|node rest IH]; intros s; simpl.
  - exists None, s. unfold ret. rewrite app_nil_r. intuition.
  - pose proof (sendBackupToNode_effect node message s) as Hsend.
    destruct (reachable_node node) eqn:Hr.
    + destruct (IH (emit (wsId (ws node), message) s))
        as (r & s' & Hrun & Ht & Hw & Hiff).
      exists r, s'. split.
      { unfold bind at 1, try_catch at 1. unfold bind at 1. rewrite Hsend.
        unfold ret at 1. unfold bind at 1. rewrite Hrun. reflexivity. }
      split; [exact Ht|]. split; [|exact Hiff].
      rewrite Hw. simpl. now rewrite <- app_assoc.
    + destruct Hsend as [e Hsend].
      destruct (IH s) as (r & s' & Hrun & Ht & Hw & Hiff).
      exists (Some e), s'. split.
      { unfold bind at 1, try_catch at 1. unfold bind at 1. rewrite Hsend.
        unfold ret at 1. unfold bind at 1. rewrite Hrun. reflexivity. }
      split; [exact Ht|]. split; [exact Hw|].
      split; discriminate.
Qed.

(** X26. When every node [backupTask] picks - the first
    [redundancy || 2] of the nodes offered - has an open socket that
    takes the write, the call returns, each picked node has been written
    the [task_backup] message once, and the backup table holds for the
    task one copy per picked node, replacing what it held before; the
    backup count is the number of picked nodes, at most the redundancy. *)
Theorem backupTask_stores_one_copy_per_node :
  forall (task : Task) (backupNodes : list ConnectedPeer) (s : State),
    forallb reachable_node (backup_targets task backupNodes) = true ->
    let picked := backup_targets task backupNodes in
    exists s',
      backupTask task backupNodes s = Ok tt s'
      /\ taskBackups s'
         = mset (taskBackups s) (taskId task) (repeat task (length picked))
      /\ getBackupCount (taskId task) s' = length picked
      /\ wire s' = wire s ++ map (fun n => (wsId (ws n), Mtask_backup task)) picked
      /\ ((0 <= redundancy_or_2 task)%Z ->
          (Z.of_nat (length picked) <= redundancy_or_2 task)%Z).
Proof.
  intros task backupNodes s Hall picked.
  destruct (sendAll_effect (Mtask_backup task) picked s)
    as (r & s1 & Hrun & Ht & Hw & Hiff).
  assert (Hr : r = None) by now apply Hiff.
  subst r.
  assert (Hcopies : map (fun _ : ConnectedPeer => task) picked
                    = repeat task (length picked)).
  { clear. induction picked as [|x l IH]; simpl; [reflexivity | now f_equal]. }
  assert (Hfilter : filter reachable_node picked = picked).
  { clear -Hall. fold picked in Hall.
    induction picked as [|x l IH]; simpl in *; [reflexivity|].
    apply andb_prop in Hall. destruct Hall as [Hx Hl].
    rewrite Hx. f_equal. now apply IH. }
  eexists. split.
  { unfold backupTask, try_catch. fold (backup_targets task backupNodes).
    fold picked. unfold bind at 1. rewrite Hrun. unfold modify. reflexivity. }
  simpl. rewrite Ht, Hw, Hcopies, Hfilter.
  split; [reflexivity|]. split.
  { unfold getBackupCount. simpl. rewrite mget_mset_same. apply repeat_length. }
  split; [reflexivity|].
  intros Hpos. now apply slice0_length.
Qed.

Lemma backupTask_stores_one_copy_per_node_witness :
  let picked := backup_targets Scenario.trainTask
                  [Scenario.N1; Scenario.N2; Scenario.R] in
  exists s',
    backupTask Scenario.trainTask [Scenario.N1; Scenario.N2; Scenario.R] init
    = Ok tt s'
    /\ taskBackups s'
       = mset (taskBackups init) (taskId Scenario.trainTask)
           (repeat Scenario.trainTask (length picked))
    /\ getBackupCount (taskId Scenario.trainTask) s' = length picked
    /\ wire s'
       = wire init
         ++ map (fun n => (wsId (ws n), Mtask_backup Scenario.trainTask)) picked
    /\ ((0 <= redundancy_or_2 Scenario.trainTask)%Z ->
        (Z.of_nat (length picked) <= redundancy_or_2 Scenario.trainTask)%Z).
Proof.
  apply (backupTask_stores_one_copy_per_node Scenario.trainTask
           [Scenario.N1; Scenario.N2; Scenario.R] init).
  reflexivity.
Defined.

(** X27. When one of the picked nodes has a closed socket or one that
    raises, [backupTask] throws and the backup table is left as it was -
    whatever it held for the task stays - although every picked node that
    could be written to has received the [task_backup] message. *)
Theorem backupTask_unreachable_node_keeps_table :
  forall (task : Task) (backupNodes : list ConnectedPeer) (s : State),
    forallb reachable_node (backup_targets task backupNodes) = false ->
    exists e s',
      backupTask task backupNodes s = Throw e s'
      /\ taskBackups s' = taskBackups s
      /\ getBackupCount (taskId task) s' = getBackupCount (taskId task) s
      /\ wire s'
         = wire s
           ++ map (fun n => (wsId (ws n), Mtask_backup task))
                  (filter reachable_node (backup_targets task backupNodes)).
Proof.
  intros task backupNodes s Hsome.
  destruct (sendAll_effect (Mtask_backup task)
              (backup_targets task backupNodes) s)
    as (r & s1 & Hrun & Ht & Hw & Hiff).
  destruct r as [e|].
  - exists e, s1. split.
    { unfold backupTask, try_catch. fold (backup_targets task backupNodes).
      unfold bind at 1. rewrite Hrun. reflexivity. }
    split; [exact Ht|]. split; [|exact Hw].
    unfold getBackupCount. now rewrite Ht.
  - assert (Hall : forallb reachable_node (backup_targets task backupNodes) = true)
      by now apply Hiff.
    congruence.
Qed.

Lemma backupTask_unreachable_node_keeps_table_witness :
  exists e s',
    backupTask Scenario.trainTask [Scenario.N1; Scenario.unreachableB] init
    = Throw e s'
    /\ taskBackups s' = taskBackups init
    /\ getBackupCount (taskId Scenario.trainTask) s'
       = getBackupCount (taskId Scenario.trainTask) init
    /\ wire s'
       = wire init
         ++ map (fun n => (wsId (ws n), Mtask_backup Scenario.trainTask))
                (filter reachable_node
                   (backup_targets Scenario.trainTask
                      [Scenario.N1; Scenario.unreachableB])).
Proof.
  apply (backupTask_unreachable_node_keeps_table Scenario.trainTask
           [Scenario.N1; Scenario.unreachableB] init).
  reflexivity.
Defined.

Lemma nth_error_last_repeat {A : Type} (x : A) (n : nat) :
  n <> 0%nat -> nth_error (repeat x n) (length (repeat x n) - 1) = Some x.
Proof.
  intros Hn. rewrite repeat_length.
  destruct (nth_error (repeat x n) (n - 1)) as [y|] eqn:E.
  - apply nth_error_In in E. apply repeat_spec in E. now subst.
  - apply nth_error_None in E. rewrite repeat_length in E. lia.
Qed.

(** X28. A task backed up to at least one node is given back by
    [recoverTask]: after a [backupTask] that reached all its picked
    nodes, recovering the task to a node with a working socket returns
    the task as it was backed up and writes that node one
    [task_recovery] message, leaving the table alone; to a node that
    cannot be written to it returns nothing, without throwing; and once
    [clearTaskBackups] has run it returns nothing and writes nothing. *)
Theorem recoverTask_returns_backed_up_task :
  forall (task : Task) (backupNodes : list ConnectedPeer)
         (target : ConnectedPeer) (s : State),
    backup_targets task backupNodes <> [] ->
    forallb reachable_node (backup_targets task backupNodes) = true ->
    let s1 := state_of (backupTask task backupNodes s) in
    (if reachable_node target
     then recoverTask (taskId task) target s1
          = Ok (Some task) (emit (wsId (ws target), Mtask_recovery task) s1)
     else recoverTask (taskId task) target s1 = Ok None s1)
    /\ recoverTask (taskId task) target
         (state_of (clearTaskBackups (taskId task) s1))
       = Ok None (state_of (clearTaskBackups (taskId task) s1)).
Proof.
  intros task backupNodes target s Hne Hall s1.
  assert (Hget : mget (taskBackups s1) (taskId task)
                 = Some (repeat task (length (backup_targets task backupNodes)))).
  { destruct (sendAll_effect (Mtask_backup task)
                (backup_targets task backupNodes) s)
      as (r & s0 & Hrun & Ht & Hw & Hiff).
    assert (Hr : r = None) by now apply Hiff.
    subst r. unfold s1, backupTask, try_catch.
    fold (backup_targets task backupNodes).
    unfold bind at 1. rewrite Hrun. unfold modify. simpl.
    rewrite mget_mset_same. f_equal.
    clear. induction (backup_targets task backupNodes) as [|x l IH]; simpl;
      [reflexivity | now f_equal]. }
  assert (Hlen : length (backup_targets task backupNodes) <> 0%nat).
  { intros H0. apply length_zero_iff_nil in H0. contradiction. }
  clearbody s1. split.
  - pose proof (sendBackupToNode_effect target (Mtask_recovery task) s1) as Hsend.
    destruct (reachable_node target); cbv iota in Hsend;
      unfold recoverTask; unfold bind at 1, gets at 1; rewrite Hget;
      rewrite (nth_error_last_repeat task _ Hlen).
    + unfold try_catch, bind. rewrite Hsend. reflexivity.
    + destruct Hsend as [e Hsend]. unfold try_catch, bind. rewrite Hsend.
      reflexivity.
  - unfold recoverTask, clearTaskBackups, modify. simpl.
    unfold bind at 1, gets at 1. simpl. rewrite mget_mdelete_same. reflexivity.
Qed.

Lemma recoverTask_returns_backed_up_task_witness :
  let s1 := state_of (backupTask Scenario.trainTask
                        [Scenario.N1; Scenario.N2] init) in
  (if reachable_node Scenario.R
   then recoverTask (taskId Scenario.trainTask) Scenario.R s1
        = Ok (Some Scenario.trainTask)
             (emit (wsId (ws Scenario.R), Mtask_recovery Scenario.trainTask) s1)
   else recoverTask (taskId Scenario.trainTask) Scenario.R s1 = Ok None s1)
  /\ recoverTask (taskId Scenario.trainTask) Scenario.R
       (state_of (clearTaskBackups (taskId Scenario.trainTask) s1))
     = Ok None (state_of (clearTaskBackups (taskId Scenario.trainTask) s1)).
Proof.
  apply (recoverTask_returns_backed_up_task Scenario.trainTask
           [Scenario.N1; Scenario.N2] Scenario.R init).
  - discriminate.
  - reflexivity.
Defined.

Example single_backup_is_reported_invalid :
  validateBackups
    (state_of (backupTask Scenario.trainTask [Scenario.N1] init))
  = [("T", false, 1%nat)].
Proof. reflexivity. Qed.

End BackupFacts.

(** ** Lookups in the DHT *)

Section LookupFacts.
Import DHTNetwork.

(** X29. A node that is not connected to the DHT network refuses both
    [store] and [findValue] with 'Not connected to DHT network': nothing
    is written to the local store, not even a value that is already
    there is returned, and no node is contacted. *)
Theorem disconnected_node_refuses_store_and_lookup :
  forall (cfg : Config) (replies : Replies) (key : string) (value : JsValue)
         (s : DHTNetwork.State),
    connected s = false ->
    store cfg replies key value s = Throw "Not connected to DHT network" s
    /\ findValue replies key s = Throw "Not connected to DHT network" s.
Proof.
  intros cfg replies key value s Hc.
  unfold store, findValue, bind, gets. rewrite Hc. split; reflexivity.
Qed.

Lemma disconnected_node_refuses_store_and_lookup_witness :
  store envConfig Scenario.silence "k" (Vnum 1) Scenario.offline_holder
  = Throw "Not connected to DHT network" Scenario.offline_holder
  /\ findValue Scenario.silence "k" Scenario.offline_holder
     = Throw "Not connected to DHT network" Scenario.offline_holder.
Proof.
  apply (disconnected_node_refuses_store_and_lookup envConfig Scenario.silence
           "k" (Vnum 1) Scenario.offline_holder).
  reflexivity.
Defined.








Example lookup_stops_at_b :
  map d_id (fst (asked_until Scenario.b_knows "k" Scenario.linked
                   (mvalues (nodes Scenario.linked)))) = ["a"; "b"]
  /\ snd (asked_until Scenario.b_knows "k" Scenario.linked
            (mvalues (nodes Scenario.linked))) = Some (Vstr "v").
Proof. split; reflexivity. Qed.

End LookupFacts.
